(** * WorkloadClustersMux: a shallow embedding of the in-memory provider's
      multiplexing server (package [server]) and the properties of its
      port allocator, listener registry, certificate resolver, protocol
      demultiplexer, hot restart and shutdown. *)

From Stdlib Require Import ZArith String Ascii List Lia.
From stdpp Require Import base decidable option list gmap strings pretty.

Local Open Scope string_scope.
Local Open Scope Z_scope.

(** ** Machine integers

    Go's [int] is a 64-bit two's complement integer on the supported
    platforms; arithmetic wraps around silently. *)

Definition int_min : Z := - 2 ^ 63.
Definition int_max : Z := 2 ^ 63 - 1.

Definition wrap_int (z : Z) : Z := (z + 2 ^ 63) `mod` 2 ^ 64 - 2 ^ 63.

Definition is_int (z : Z) : Prop := int_min ≤ z ≤ int_max.

(** ** Opaque values owned by collaborators

    Certificates, keys and sockets are produced by the standard library and
    by the certificate helpers; the mux only stores and hands them out, so
    a value is identified by a tag. *)

Inductive x509_Certificate := X509Cert (id : string).
Inductive rsa_PrivateKey := RSAKey (id : string).
Inductive tls_Certificate := TLSCert (id : string).
(** A TCP listener is identified by the address it was bound to. *)
Inductive net_Listener := TCPListener (address : string).

Global Instance x509_Certificate_eq_dec : EqDecision x509_Certificate.
Proof. solve_decision. Defined.
Global Instance rsa_PrivateKey_eq_dec : EqDecision rsa_PrivateKey.
Proof. solve_decision. Defined.
Global Instance tls_Certificate_eq_dec : EqDecision tls_Certificate.
Proof. solve_decision. Defined.
Global Instance net_Listener_eq_dec : EqDecision net_Listener.
Proof. solve_decision. Defined.

(** ** Errors

    One constructor per [errors.Errorf]/[errors.New] site of the source,
    carrying the values formatted into the message; [ErrWrap] is
    [errors.Wrap]/[errors.Wrapf]; [ErrExternal] is an error value returned
    by a collaborator (certificate helper, [net], [net/http]). *)

Inductive error :=
| ErrResolverNoListener (host : string)
| ErrNoListenerName (hostPort : string)
| ErrNoListenerWithName (wclName hostPort : string)
| ErrAlreadyInitialized
| ErrHostChanged (clusterHost muxHost : string)
| ErrDuplicatePort (port : Z)
| ErrMissingAnnotation (namespace name annotation : string)
| ErrMustBeInitialized (wclName : string)
| ErrNoMoreFreePorts (minPort maxPort : Z)
| ErrExternal (what : string)
| ErrWrap (cause : error) (message : string).

Inductive result (A : Type) :=
| Ok (a : A)
| Err (e : error).
Arguments Ok {A} a.
Arguments Err {A} e.

(** ** Constants *)

Definition debugPort : Z := 19000.
Definition minPort_const : Z := 20000.
Definition maxPort_const : Z := 24000.

(** ** Listener records *)

(** Modelled from the spec: the struct [WorkloadClusterListener] is
    declared outside this file; its fields are those of the spec's Listener
    Record, under the names this file reads and writes them by. [wcl_host]
    and [wcl_port] are the struct's [host] and [port] (renamed since the mux
    has a [host] of its own). A nil pointer is [None]. The values of
    [etcdServingCertificates] are never nil: the only store is of the
    address of a fresh certificate. *)
Record WorkloadClusterListener := mkListener {
  wcl_host : string;
  wcl_port : Z;
  apiServers : gset string;
  apiServerCaCertificate : option x509_Certificate;
  apiServerCaKey : option rsa_PrivateKey;
  apiServerServingCertificate : option tls_Certificate;
  adminCertificate : option x509_Certificate;
  adminKey : option rsa_PrivateKey;
  etcdMembers : gset string;
  etcdServingCertificates : gmap string tls_Certificate;
  listener : option net_Listener
}.

(** [net.JoinHostPort]: a host holding a colon is put in square
    brackets. *)
Fixpoint has_byte (b : ascii) (s : string) : bool :=
  match s with
  | EmptyString => false
  | String c s' => if Ascii.eqb c b then true else has_byte b s'
  end.

Definition JoinHostPort (h p : string) : string :=
  if has_byte ":" h
  then "[" +:+ h +:+ "]:" +:+ p
  else h +:+ ":" +:+ p.

(** Modelled from the spec: the method [HostPort] of
    [WorkloadClusterListener] is declared outside this file; the reverse
    index is keyed by the bound [host:port], the host joined with the port
    printed in decimal. *)
Definition HostPort (wcl : WorkloadClusterListener) : string :=
  JoinHostPort (wcl_host wcl) (pretty (wcl_port wcl)).

(** ** The mux *)

(** The mutable part of [WorkloadClustersMux] guarded by [lock]. Each
    value of [workloadClusterListeners] points to a record allocated by
    [initWorkloadClusterListenerWithPortLocked] and referenced from that
    one key, so the map is modelled as holding the records themselves. *)
Record WorkloadClustersMux := mkMux {
  host : string;
  minPort : Z;
  maxPort : Z;
  portIndex : Z;
  workloadClusterListeners : gmap string WorkloadClusterListener;
  workloadClusterNameByHost : gmap string string
}.

Definition NewWorkloadClustersMux (h : string) : WorkloadClustersMux :=
  {| host := h;
     minPort := minPort_const;
     maxPort := maxPort_const;
     portIndex := minPort_const;
     workloadClusterListeners := ∅;
     workloadClusterNameByHost := ∅ |}.

Definition set_portIndex (p : Z) (m : WorkloadClustersMux) : WorkloadClustersMux :=
  {| host := host m; minPort := minPort m; maxPort := maxPort m;
     portIndex := p;
     workloadClusterListeners := workloadClusterListeners m;
     workloadClusterNameByHost := workloadClusterNameByHost m |}.

(** [m.workloadClusterListeners[wclName] = wcl], also used to write back a
    record mutated through its pointer. *)
Definition set_listener_record (wclName : string) (wcl : WorkloadClusterListener)
    (m : WorkloadClustersMux) : WorkloadClustersMux :=
  {| host := host m; minPort := minPort m; maxPort := maxPort m;
     portIndex := portIndex m;
     workloadClusterListeners := <[wclName := wcl]> (workloadClusterListeners m);
     workloadClusterNameByHost := workloadClusterNameByHost m |}.

Definition set_name_by_host (hostPort wclName : string)
    (m : WorkloadClustersMux) : WorkloadClustersMux :=
  {| host := host m; minPort := minPort m; maxPort := maxPort m;
     portIndex := portIndex m;
     workloadClusterListeners := workloadClusterListeners m;
     workloadClusterNameByHost := <[hostPort := wclName]> (workloadClusterNameByHost m) |}.

(** ** Port allocator *)

(** [getFreePortLocked]: the pair [(port, err)] and the mux afterwards. *)
Definition getFreePortLocked (m : WorkloadClustersMux)
    : Z * option error * WorkloadClustersMux :=
  let port := portIndex m in
  if decide (port > maxPort m) then
    (-1, Some (ErrNoMoreFreePorts (minPort m) (maxPort m)), m)
  else
    (port, None, set_portIndex (wrap_int (portIndex m + 1)) m).

(** ** Listener initialisation *)

Definition initWorkloadClusterListenerWithPortLocked (m : WorkloadClustersMux)
    (wclName : string) (port : Z)
    : WorkloadClusterListener * WorkloadClustersMux :=
  let wcl := {| wcl_host := host m;
                wcl_port := port;
                apiServers := ∅;
                apiServerCaCertificate := None;
                apiServerCaKey := None;
                apiServerServingCertificate := None;
                adminCertificate := None;
                adminKey := None;
                etcdMembers := ∅;
                etcdServingCertificates := ∅;
                listener := None |} in
  let m := set_listener_record wclName wcl m in
  let m := set_name_by_host (HostPort wcl) wclName m in
  (wcl, m).

Definition InitWorkloadClusterListener (m : WorkloadClustersMux) (wclName : string)
    : result WorkloadClusterListener * WorkloadClustersMux :=
  match workloadClusterListeners m !! wclName with
  | Some wcl => (Ok wcl, m)
  | None =>
    match getFreePortLocked m with
    | (_, Some err, m) => (Err err, m)
    | (port, None, m) =>
      let '(wcl, m) := initWorkloadClusterListenerWithPortLocked m wclName port in
      (Ok wcl, m)
    end
  end.

(** ** Adding API servers and etcd members *)

Definition with_apiServers (s : gset string) (w : WorkloadClusterListener) :=
  {| wcl_host := wcl_host w; wcl_port := wcl_port w; apiServers := s;
     apiServerCaCertificate := apiServerCaCertificate w;
     apiServerCaKey := apiServerCaKey w;
     apiServerServingCertificate := apiServerServingCertificate w;
     adminCertificate := adminCertificate w; adminKey := adminKey w;
     etcdMembers := etcdMembers w;
     etcdServingCertificates := etcdServingCertificates w;
     listener := listener w |}.

Definition with_apiServerCa (c : option x509_Certificate) (k : option rsa_PrivateKey)
    (w : WorkloadClusterListener) :=
  {| wcl_host := wcl_host w; wcl_port := wcl_port w; apiServers := apiServers w;
     apiServerCaCertificate := c;
     apiServerCaKey := k;
     apiServerServingCertificate := apiServerServingCertificate w;
     adminCertificate := adminCertificate w; adminKey := adminKey w;
     etcdMembers := etcdMembers w;
     etcdServingCertificates := etcdServingCertificates w;
     listener := listener w |}.

Definition with_apiServerServingCertificate (c : option tls_Certificate)
    (w : WorkloadClusterListener) :=
  {| wcl_host := wcl_host w; wcl_port := wcl_port w; apiServers := apiServers w;
     apiServerCaCertificate := apiServerCaCertificate w;
     apiServerCaKey := apiServerCaKey w;
     apiServerServingCertificate := c;
     adminCertificate := adminCertificate w; adminKey := adminKey w;
     etcdMembers := etcdMembers w;
     etcdServingCertificates := etcdServingCertificates w;
     listener := listener w |}.

Definition with_admin (c : option x509_Certificate) (k : option rsa_PrivateKey)
    (w : WorkloadClusterListener) :=
  {| wcl_host := wcl_host w; wcl_port := wcl_port w; apiServers := apiServers w;
     apiServerCaCertificate := apiServerCaCertificate w;
     apiServerCaKey := apiServerCaKey w;
     apiServerServingCertificate := apiServerServingCertificate w;
     adminCertificate := c; adminKey := k;
     etcdMembers := etcdMembers w;
     etcdServingCertificates := etcdServingCertificates w;
     listener := listener w |}.

Definition with_etcdMembers (s : gset string) (w : WorkloadClusterListener) :=
  {| wcl_host := wcl_host w; wcl_port := wcl_port w; apiServers := apiServers w;
     apiServerCaCertificate := apiServerCaCertificate w;
     apiServerCaKey := apiServerCaKey w;
     apiServerServingCertificate := apiServerServingCertificate w;
     adminCertificate := adminCertificate w; adminKey := adminKey w;
     etcdMembers := s;
     etcdServingCertificates := etcdServingCertificates w;
     listener := listener w |}.

Definition with_etcdServingCertificates (cs : gmap string tls_Certificate)
    (w : WorkloadClusterListener) :=
  {| wcl_host := wcl_host w; wcl_port := wcl_port w; apiServers := apiServers w;
     apiServerCaCertificate := apiServerCaCertificate w;
     apiServerCaKey := apiServerCaKey w;
     apiServerServingCertificate := apiServerServingCertificate w;
     adminCertificate := adminCertificate w; adminKey := adminKey w;
     etcdMembers := etcdMembers w;
     etcdServingCertificates := cs;
     listener := listener w |}.

Definition with_listener (l : option net_Listener) (w : WorkloadClusterListener) :=
  {| wcl_host := wcl_host w; wcl_port := wcl_port w; apiServers := apiServers w;
     apiServerCaCertificate := apiServerCaCertificate w;
     apiServerCaKey := apiServerCaKey w;
     apiServerServingCertificate := apiServerServingCertificate w;
     adminCertificate := adminCertificate w; adminKey := adminKey w;
     etcdMembers := etcdMembers w;
     etcdServingCertificates := etcdServingCertificates w;
     listener := l |}.

(** What the collaborators answer during one [AddAPIServer] call. Each
    answer is read only if the call reaches the step that asks for it. *)
Record APIServerEnv := mkAPIServerEnv {
  (** [newCertAndKey(caCert, caKey, apiServerCertificateConfig(wcl.host))] *)
  servingCertAndKey : result (x509_Certificate * rsa_PrivateKey);
  (** [tls.X509KeyPair] on the PEM encoding of the pair above *)
  servingKeyPair : result tls_Certificate;
  (** [newCertAndKey(caCert, caKey, adminClientCertificateConfig())] *)
  adminCertAndKey : result (x509_Certificate * rsa_PrivateKey);
  (** [net.Listen("tcp", wcl.HostPort())]: [None] when the bind succeeds *)
  listenErr : option error;
  (** [startErr] as read after the grace period *)
  startErr : option error
}.

(** What the collaborators answer during one [AddEtcdMember] call. *)
Record EtcdMemberEnv := mkEtcdMemberEnv {
  (** [newCertAndKey(caCert, caKey, etcdServerCertificateConfig(podName, wcl.host))] *)
  etcdCertAndKey : result (x509_Certificate * rsa_PrivateKey);
  (** [tls.X509KeyPair] on the PEM encoding of the pair above *)
  etcdKeyPair : result tls_Certificate
}.

Definition AddAPIServer (m : WorkloadClustersMux) (wclName podName : string)
    (caCert : option x509_Certificate) (caKey : option rsa_PrivateKey)
    (env : APIServerEnv) : option error * WorkloadClustersMux :=
  match workloadClusterListeners m !! wclName with
  | None => (Some (ErrMustBeInitialized wclName), m)
  | Some wcl =>
    let wcl := with_apiServers ({[podName]} ∪ apiServers wcl) wcl in
    let wcl := with_apiServerCa caCert caKey wcl in
    (* the serving certificate, minted when there is none *)
    let serving : result WorkloadClusterListener :=
      match apiServerServingCertificate wcl with
      | Some _ => Ok wcl
      | None =>
        match servingCertAndKey env with
        | Err err =>
          Err (ErrWrap err ("failed to create serving certificate for API server " +:+ podName))
        | Ok _ =>
          match servingKeyPair env with
          | Err err =>
            Err (ErrWrap err ("failed to create X509KeyPair for API server " +:+ podName))
          | Ok certificate =>
            Ok (with_apiServerServingCertificate (Some certificate) wcl)
          end
        end
      end in
    match serving with
    | Err err => (Some err, set_listener_record wclName wcl m)
    | Ok wcl =>
      (* the admin certificate, minted when there is none *)
      let admin : result WorkloadClusterListener :=
        match adminCertificate wcl with
        | Some _ => Ok wcl
        | None =>
          match adminCertAndKey env with
          | Err err =>
            Err (ErrWrap err ("failed to create admin certificate for API server " +:+ podName))
          | Ok (cert, key) => Ok (with_admin (Some cert) (Some key) wcl)
          end
        end in
      match admin with
      | Err err => (Some err, set_listener_record wclName wcl m)
      | Ok wcl =>
        (* the listener, started when there is none *)
        match listener wcl with
        | Some _ => (None, set_listener_record wclName wcl m)
        | None =>
          match listenErr env with
          | Some err =>
            (Some (ErrWrap err ("failed to start WorkloadClusterListener " +:+ wclName
                                  +:+ ", " +:+ HostPort wcl)),
             set_listener_record wclName wcl m)
          | None =>
            let wcl := with_listener (Some (TCPListener (HostPort wcl))) wcl in
            match startErr env with
            | Some err => (Some err, set_listener_record wclName wcl m)
            | None => (None, set_listener_record wclName wcl m)
            end
          end
        end
      end
    end
  end.

Definition HasAPIServer (m : WorkloadClustersMux) (wclName podName : string) : bool :=
  match workloadClusterListeners m !! wclName with
  | None => false
  | Some wcl => bool_decide (podName ∈ apiServers wcl)
  end.

Definition AddEtcdMember (m : WorkloadClustersMux) (wclName podName : string)
    (caCert : option x509_Certificate) (caKey : option rsa_PrivateKey)
    (env : EtcdMemberEnv) : option error * WorkloadClustersMux :=
  match workloadClusterListeners m !! wclName with
  | None => (Some (ErrMustBeInitialized wclName), m)
  | Some wcl =>
    let wcl := with_etcdMembers ({[podName]} ∪ etcdMembers wcl) wcl in
    match etcdServingCertificates wcl !! podName with
    | Some _ => (None, set_listener_record wclName wcl m)
    | None =>
      match etcdCertAndKey env with
      | Err err =>
        (Some (ErrWrap err ("failed to create serving certificate for etcd member " +:+ podName)),
         set_listener_record wclName wcl m)
      | Ok _ =>
        match etcdKeyPair env with
        | Err err =>
          (Some (ErrWrap err ("failed to create X509KeyPair for etcd member " +:+ podName)),
           set_listener_record wclName wcl m)
        | Ok certificate =>
          let wcl := with_etcdServingCertificates
                       (<[podName := certificate]> (etcdServingCertificates wcl)) wcl in
          (None, set_listener_record wclName wcl m)
        end
      end
    end
  end.

Definition HasEtcdMember (m : WorkloadClustersMux) (wclName podName : string) : bool :=
  match workloadClusterListeners m !! wclName with
  | None => false
  | Some wcl => bool_decide (podName ∈ etcdMembers wcl)
  end.

(** [ListListeners], over the method [Address] of the listener, which is
    declared outside this file. *)
Definition ListListeners (address : WorkloadClusterListener → string)
    (m : WorkloadClustersMux) : gmap string string :=
  address <$> workloadClusterListeners m.

(** ** Certificate resolver *)

(** [resourceGroupResolver], the closure handed to both handlers. *)
Definition resourceGroupResolver (m : WorkloadClustersMux) (h : string) : result string :=
  match workloadClusterNameByHost m !! h with
  | None => Err (ErrResolverNoListener h)
  | Some wclName => Ok wclName
  end.

(** [getCertificate]: [hostPort] is [info.Conn.LocalAddr().String()] and
    [serverName] is [info.ServerName]. The result is Go's pair of a
    certificate pointer and an error, each of which can be nil. *)
Definition getCertificate (m : WorkloadClustersMux) (hostPort serverName : string)
    : option tls_Certificate * option error :=
  match workloadClusterNameByHost m !! hostPort with
  | None => (None, Some (ErrNoListenerName hostPort))
  | Some wclName =>
    match workloadClusterListeners m !! wclName with
    | None => (None, Some (ErrNoListenerWithName wclName hostPort))
    | Some wcl =>
      if decide (serverName ∈ etcdMembers wcl) then
        (etcdServingCertificates wcl !! serverName, None)
      else
        (apiServerServingCertificate wcl, None)
    end
  end.

(** ** Protocol demultiplexer *)

(** [textproto.CanonicalMIMEHeaderKey]: a key made of header-field bytes
    gets an upper-case letter first and after each hyphen and lower-case
    letters elsewhere; any other key is returned as it is. *)
Definition is_lower (c : ascii) : bool :=
  (97 <=? N_of_ascii c)%N && (N_of_ascii c <=? 122)%N.
Definition is_upper (c : ascii) : bool :=
  (65 <=? N_of_ascii c)%N && (N_of_ascii c <=? 90)%N.
Definition is_digit (c : ascii) : bool :=
  (48 <=? N_of_ascii c)%N && (N_of_ascii c <=? 57)%N.

Definition validHeaderFieldByte (c : ascii) : bool :=
  is_lower c || is_upper c || is_digit c || has_byte c "!#$%&'*+-.^_`|~".

Definition to_upper (c : ascii) : ascii :=
  if is_lower c then ascii_of_N (N_of_ascii c - 32) else c.
Definition to_lower (c : ascii) : ascii :=
  if is_upper c then ascii_of_N (N_of_ascii c + 32) else c.

Fixpoint all_valid (s : string) : bool :=
  match s with
  | EmptyString => true
  | String c s' => validHeaderFieldByte c && all_valid s'
  end.

Fixpoint canonical_case (upper : bool) (s : string) : string :=
  match s with
  | EmptyString => EmptyString
  | String c s' =>
    String (if upper then to_upper c else to_lower c)
           (canonical_case (Ascii.eqb c "-") s')
  end.

Definition CanonicalMIMEHeaderKey (s : string) : string :=
  if all_valid s then canonical_case true s else s.

(** [http.Header]: canonical keys to the values of the lines with that key. *)
Definition Header_Get (h : gmap string (list string)) (key : string) : string :=
  match h !! CanonicalMIMEHeaderKey key with
  | Some (v :: _) => v
  | _ => ""
  end.

(** The two fields of [http.Request] the mixed handler looks at. *)
Record Request := mkRequest {
  ProtoMajor : Z;
  Header : gmap string (list string)
}.

(** [strings.HasPrefix s prefix] *)
Definition HasPrefix (s p : string) : bool := String.prefix p s.

Inductive Handler := etcdHandler | apiHandler.

(** The handler the closure [mixedHandler] serves the request with. *)
Definition mixedHandler (r : Request) : Handler :=
  if decide (ProtoMajor r = 2) then
    if HasPrefix (Header_Get (Header r) "content-type") "application/grpc"
    then etcdHandler
    else apiHandler
  else apiHandler.

(** ** Shutdown *)

Inductive ServerCall := DebugServerShutdown | MuxServerShutdown.

(** What [http.Server.Shutdown] answers for each of the two servers. *)
Record ShutdownEnv := mkShutdownEnv {
  debugServerShutdown : option error;
  muxServerShutdown : option error
}.

(** [Shutdown]: the calls made to the two servers, in order, and the
    error returned. *)
Definition Shutdown (env : ShutdownEnv) : list ServerCall * option error :=
  match debugServerShutdown env with
  | Some err =>
    ([DebugServerShutdown], Some (ErrWrap err "failed to shutdown the debug server"))
  | None =>
    match muxServerShutdown env with
    | Some err =>
      ([DebugServerShutdown; MuxServerShutdown],
       Some (ErrWrap err "failed to shutdown the mux server"))
    | None => ([DebugServerShutdown; MuxServerShutdown], None)
    end
  end.

(** ** Hot restart *)

(** Modelled from the spec: [infrav1.InMemoryCluster] is declared in the
    API package; an entry of the external list carries a name, a bind host
    and a reserved port, and the annotations [HotRestart] reads. [cpHost]
    and [cpPort] are [Spec.ControlPlaneEndpoint.Host] and
    [Spec.ControlPlaneEndpoint.Port], the latter an [int]. *)
Record InMemoryCluster := mkCluster {
  Namespace : string;
  Name : string;
  Annotations : gmap string string;
  cpHost : string;
  cpPort : Z
}.

Section HotRestart.
(** [infrav1.ResourceGroupAnnotationName], declared in the API package. *)
Variable ResourceGroupAnnotationName : string.

(** The [for] loop of [HotRestart]: the error it returns with, if any,
    the mux, and the local [maxPort]. The local set [ports] is read by the
    loop and never written. *)
Fixpoint HotRestart_loop (m : WorkloadClustersMux) (ports : gset Z) (maxP : Z)
    (items : list InMemoryCluster) : option error * WorkloadClustersMux * Z :=
  match items with
  | [] => (None, m, maxP)
  | c :: items =>
    if decide (cpHost c = "") then HotRestart_loop m ports maxP items
    else if decide (cpHost c ≠ host m) then
      (Some (ErrHostChanged (cpHost c) (host m)), m, maxP)
    else if decide (cpPort c ∈ ports) then
      (Some (ErrDuplicatePort (cpPort c)), m, maxP)
    else
      match Annotations c !! ResourceGroupAnnotationName with
      | None =>
        (Some (ErrMissingAnnotation (Namespace c) (Name c) ResourceGroupAnnotationName),
         m, maxP)
      | Some resourceGroup =>
        let m := (initWorkloadClusterListenerWithPortLocked m resourceGroup (cpPort c)).2 in
        let maxP := if decide (maxP < cpPort c) then cpPort c else maxP in
        HotRestart_loop m ports maxP items
      end
  end.

Definition HotRestart (m : WorkloadClustersMux) (clusters : list InMemoryCluster)
    : option error * WorkloadClustersMux :=
  if decide (length clusters = 0%nat) then (None, m)
  else if decide (0 < size (workloadClusterListeners m))%nat then
    (Some ErrAlreadyInitialized, m)
  else
    match HotRestart_loop m ∅ (wrap_int (minPort m - 1)) clusters with
    | (Some err, m, _) => (Some err, m)
    | (None, m, maxP) => (None, set_portIndex (wrap_int (maxP + 1)) m)
    end.

(** ** Administrative calls as a transition system *)

Inductive Op :=
| OpInitListener (wclName : string)
| OpAddAPIServer (wclName podName : string)
    (caCert : option x509_Certificate) (caKey : option rsa_PrivateKey)
    (env : APIServerEnv)
| OpAddEtcdMember (wclName podName : string)
    (caCert : option x509_Certificate) (caKey : option rsa_PrivateKey)
    (env : EtcdMemberEnv)
| OpHotRestart (clusters : list InMemoryCluster).

(** One call: the error it returns (nil is [None]) and the mux afterwards. *)
Definition call (m : WorkloadClustersMux) (op : Op)
    : option error * WorkloadClustersMux :=
  match op with
  | OpInitListener wclName =>
    match InitWorkloadClusterListener m wclName with
    | (Ok _, m) => (None, m)
    | (Err err, m) => (Some err, m)
    end
  | OpAddAPIServer wclName podName caCert caKey env =>
    AddAPIServer m wclName podName caCert caKey env
  | OpAddEtcdMember wclName podName caCert caKey env =>
    AddEtcdMember m wclName podName caCert caKey env
  | OpHotRestart clusters => HotRestart m clusters
  end.

(** The mux after one call, whatever the call returned. *)
Definition step (m : WorkloadClustersMux) (op : Op) : WorkloadClustersMux :=
  (call m op).2.

Definition run (m : WorkloadClustersMux) (ops : list Op) : WorkloadClustersMux :=
  fold_left step ops m.

Definition is_AddAPIServer (op : Op) : bool :=
  match op with
  | OpAddAPIServer _ _ _ _ _ => true
  | _ => false
  end.

(** No [AddAPIServer] call of the sequence returns an error. *)
Fixpoint apiServer_calls_succeed (m : WorkloadClustersMux) (ops : list Op) : Prop :=
  match ops with
  | [] => True
  | op :: ops =>
    (is_AddAPIServer op = true → (call m op).1 = None)
    ∧ apiServer_calls_succeed (step m op) ops
  end.

(** The listener names [HotRestart] registers the listed clusters under. *)
Definition resourceGroups (clusters : list InMemoryCluster) : list string :=
  omap (λ c, Annotations c !! ResourceGroupAnnotationName) clusters.
End HotRestart.

(** [InitWorkloadClusterListener] called for each name in turn: what each
    call returns, and the mux at the end. *)
Fixpoint InitListeners (m : WorkloadClustersMux) (names : list string)
    : list (result WorkloadClusterListener) * WorkloadClustersMux :=
  match names with
  | [] => ([], m)
  | n :: names =>
    let '(r, m) := InitWorkloadClusterListener m n in
    let '(rs, m) := InitListeners m names in
    (r :: rs, m)
  end.

(** A record as [initWorkloadClusterListenerWithPortLocked] creates it:
    a port, no identity, no certificate, no socket. *)
Definition reserved (h : string) (port : Z) : WorkloadClusterListener :=
  {| wcl_host := h; wcl_port := port; apiServers := ∅;
     apiServerCaCertificate := None; apiServerCaKey := None;
     apiServerServingCertificate := None;
     adminCertificate := None; adminKey := None;
     etcdMembers := ∅; etcdServingCertificates := ∅; listener := None |}.

(** ** Relations between a record before and after a call *)

(** What [AddAPIServer], returning [err], does to the record it finds. *)
Definition api_server_update (podName : string)
    (caCert : option x509_Certificate) (caKey : option rsa_PrivateKey)
    (err : option error) (w w' : WorkloadClusterListener) : Prop :=
  wcl_host w' = wcl_host w ∧ wcl_port w' = wcl_port w
  ∧ apiServers w' = {[podName]} ∪ apiServers w
  ∧ apiServerCaCertificate w' = caCert ∧ apiServerCaKey w' = caKey
  ∧ etcdMembers w' = etcdMembers w
  ∧ etcdServingCertificates w' = etcdServingCertificates w
  ∧ (is_Some (apiServerServingCertificate w) →
     apiServerServingCertificate w' = apiServerServingCertificate w)
  ∧ (is_Some (adminCertificate w) →
     adminCertificate w' = adminCertificate w ∧ adminKey w' = adminKey w)
  ∧ (is_Some (listener w) → listener w' = listener w)
  ∧ (err = None → is_Some (listener w'))
  ∧ (listener w = None → is_Some (listener w') →
     is_Some (apiServerServingCertificate w')).

(** What [AddEtcdMember] does to the record it finds. *)
Definition etcd_member_update (podName : string)
    (w w' : WorkloadClusterListener) : Prop :=
  wcl_host w' = wcl_host w ∧ wcl_port w' = wcl_port w
  ∧ apiServers w' = apiServers w
  ∧ apiServerCaCertificate w' = apiServerCaCertificate w
  ∧ apiServerCaKey w' = apiServerCaKey w
  ∧ apiServerServingCertificate w' = apiServerServingCertificate w
  ∧ adminCertificate w' = adminCertificate w ∧ adminKey w' = adminKey w
  ∧ listener w' = listener w
  ∧ etcdMembers w' = {[podName]} ∪ etcdMembers w
  ∧ (∀ pod c, etcdServingCertificates w !! pod = Some c →
              etcdServingCertificates w' !! pod = Some c).

(** The certificates a record holds are still there, unchanged, in [w']:
    the serving certificate, the admin certificate with its key, and each
    etcd member's serving certificate. *)
Definition minted_certificates_kept (w w' : WorkloadClusterListener) : Prop :=
  (is_Some (apiServerServingCertificate w) →
   apiServerServingCertificate w' = apiServerServingCertificate w)
  ∧ (is_Some (adminCertificate w) →
     adminCertificate w' = adminCertificate w ∧ adminKey w' = adminKey w)
  ∧ (∀ pod c, etcdServingCertificates w !! pod = Some c →
              etcdServingCertificates w' !! pod = Some c).

(** A record with a socket has an API server. *)
Definition listener_implies_apiServer (w : WorkloadClusterListener) : Prop :=
  is_Some (listener w) → apiServers w ≠ ∅.

(** A record with a socket has a serving certificate for the API server. *)
Definition listener_implies_certificate (w : WorkloadClusterListener) : Prop :=
  is_Some (listener w) → is_Some (apiServerServingCertificate w).

(** A record has a socket exactly when it has an API server. *)
Definition listener_iff_apiServer (w : WorkloadClusterListener) : Prop :=
  is_Some (listener w) ↔ apiServers w ≠ ∅.

(** The port range is a range of machine integers that leaves room below
    its lower bound. *)
Definition range_ok (m : WorkloadClustersMux) : Prop :=
  int_min < minPort m ∧ minPort m ≤ int_max ∧ minPort m ≤ maxPort m.

(** ** Sample inputs *)

Definition sample_annotation : string := "resource-group".
Definition sample_host : string := "127.0.0.1".

Definition sample_cluster (name h : string) (port : Z) : InMemoryCluster :=
  {| Namespace := "default"; Name := name;
     Annotations := {[ sample_annotation := name ]};
     cpHost := h; cpPort := port |}.

(** Collaborators that all succeed. *)
Definition sample_env_ok : APIServerEnv :=
  {| servingCertAndKey := Ok (X509Cert "apiserver", RSAKey "apiserver");
     servingKeyPair := Ok (TLSCert "apiserver");
     adminCertAndKey := Ok (X509Cert "admin", RSAKey "admin");
     listenErr := None;
     startErr := None |}.

(** Collaborators that succeed until the bind, which fails. *)
Definition sample_env_bind_fails : APIServerEnv :=
  {| servingCertAndKey := Ok (X509Cert "apiserver", RSAKey "apiserver");
     servingKeyPair := Ok (TLSCert "apiserver");
     adminCertAndKey := Ok (X509Cert "admin", RSAKey "admin");
     listenErr := Some (ErrExternal "bind: address already in use");
     startErr := None |}.

(** ** Further relations and predicates on records and calls *)

(** All the collaborators of one [AddAPIServer] call succeed. *)
Definition env_succeeds (env : APIServerEnv) : Prop :=
  (∃ p, servingCertAndKey env = Ok p)
  ∧ (∃ c, servingKeyPair env = Ok c)
  ∧ (∃ p, adminCertAndKey env = Ok p)
  ∧ listenErr env = None
  ∧ startErr env = None.

(** What [AddAPIServer], returning [err], does to the socket and to the
    admin key of the record it finds. *)
Definition api_server_socket_update (err : option error)
    (w w' : WorkloadClusterListener) : Prop :=
  (listener w' = listener w
   ∨ (listener w = None
      ∧ listener w' = Some (TCPListener (HostPort w))
      ∧ is_Some (apiServerServingCertificate w')
      ∧ is_Some (adminCertificate w')))
  ∧ (err = None →
     is_Some (apiServerServingCertificate w')
     ∧ is_Some (adminCertificate w')
     ∧ is_Some (listener w'))
  ∧ ((adminCertificate w' = adminCertificate w ∧ adminKey w' = adminKey w)
     ∨ (adminCertificate w = None
        ∧ is_Some (adminCertificate w') ∧ is_Some (adminKey w')))
  ∧ (apiServerServingCertificate w' = apiServerServingCertificate w
     ∨ apiServerServingCertificate w = None).

(** What [AddEtcdMember], returning [err], does to the certificates of the
    etcd members of the record it finds. *)
Definition etcd_certificate_update (podName : string) (err : option error)
    (w w' : WorkloadClusterListener) : Prop :=
  (∀ pod c, etcdServingCertificates w' !! pod = Some c →
            pod = podName ∨ etcdServingCertificates w !! pod = Some c)
  ∧ (err = None ↔ is_Some (etcdServingCertificates w' !! podName)).

(** What holds of every record of a mux on host [h]: it is on that host;
    its socket, if any, is bound to its own address; a record with a socket
    has its serving and admin certificates; the admin certificate and its
    key come together; only etcd members have an etcd certificate. *)
Definition record_wf (h : string) (w : WorkloadClusterListener) : Prop :=
  wcl_host w = h
  ∧ (∀ l, listener w = Some l → l = TCPListener (HostPort w))
  ∧ (is_Some (listener w) →
     is_Some (apiServerServingCertificate w) ∧ is_Some (adminCertificate w))
  ∧ (is_Some (adminCertificate w) ↔ is_Some (adminKey w))
  ∧ (∀ pod, is_Some (etcdServingCertificates w !! pod) → pod ∈ etcdMembers w).

Definition is_HotRestart (op : Op) : bool :=
  match op with
  | OpHotRestart _ => true
  | _ => false
  end.

(** Every reverse index entry names a cluster that has a record. *)
Definition index_sound (m : WorkloadClustersMux) : Prop :=
  ∀ hostPort wclName,
    workloadClusterNameByHost m !! hostPort = Some wclName →
    is_Some (workloadClusterListeners m !! wclName).

(** The records of a mux that was never hot restarted: each is on the
    host of the mux, on a port that the cursor has passed, and is the one
    its address resolves to. *)
Definition records_allocated (m : WorkloadClustersMux) : Prop :=
  minPort m ≤ portIndex m ≤ maxPort m + 1
  ∧ ∀ k w, workloadClusterListeners m !! k = Some w →
           wcl_host w = host m
           ∧ minPort m ≤ wcl_port w < portIndex m
           ∧ workloadClusterNameByHost m !! HostPort w = Some k.

(** * The MachinePool admission webhook (package [v1beta1]) *)

Module Webhook.

(** Modelled from the spec: [corev1.ObjectReference] is declared outside
    the repository's sources at hand; the webhook reads and writes its
    namespace and leaves the other fields alone. *)
Record ObjectReference := mkObjectReference {
  refKind : string;
  refNamespace : string;
  refName : string;
  refAPIVersion : string
}.

Definition with_refNamespace (ns : string) (r : ObjectReference) : ObjectReference :=
  {| refKind := refKind r; refNamespace := ns; refName := refName r;
     refAPIVersion := refAPIVersion r |}.

(** Modelled from the spec: [clusterv1.ObjectMeta], the metadata of the
    machine template, is declared in the core API package: labels and
    annotations. *)
Record ObjectMeta := mkObjectMeta {
  metaLabels : gmap string string;
  metaAnnotations : gmap string string
}.

(** Modelled from the spec: the type [MachinePool] is declared in another
    file of the package; these are the fields the webhook reads and writes.
    [Labels] is nil ([None]) or a map; [Replicas], [MinReadySeconds] and
    [Version] are pointers; [ConfigRef] is [Spec.Template.Spec.Bootstrap.ConfigRef],
    [DataSecretName] is [Spec.Template.Spec.Bootstrap.DataSecretName],
    [InfrastructureRef] is [Spec.Template.Spec.InfrastructureRef], [Version]
    is [Spec.Template.Spec.Version] and [TemplateMeta] is
    [Spec.Template.ObjectMeta]. *)
Record MachinePool := mkMachinePool {
  Namespace : string;
  Name : string;
  Labels : option (gmap string string);
  ClusterName : string;
  Replicas : option Z;
  MinReadySeconds : option Z;
  TemplateMeta : ObjectMeta;
  ConfigRef : option ObjectReference;
  DataSecretName : option string;
  InfrastructureRef : ObjectReference;
  Version : option string
}.

(** Go's [append] on slices used as values. *)
Definition append {A : Type} (s elems : list A) : list A := (s ++ elems)%list.

(** [field.Path], the names from the root down. *)
Definition NewPath (name : string) : list string := [name].
Definition Child (p : list string) (names : list string) : list string :=
  append p names.

Inductive ErrorType := ErrorTypeRequired | ErrorTypeInvalid | ErrorTypeForbidden.

(** [field.Error] *)
Record FieldError := mkFieldError {
  Type_ : ErrorType;
  Field : list string;
  BadValue : string;
  Detail : string
}.

Definition Required (p : list string) (detail : string) : FieldError :=
  {| Type_ := ErrorTypeRequired; Field := p; BadValue := ""; Detail := detail |}.
Definition Invalid (p : list string) (value detail : string) : FieldError :=
  {| Type_ := ErrorTypeInvalid; Field := p; BadValue := value; Detail := detail |}.
Definition Forbidden (p : list string) (detail : string) : FieldError :=
  {| Type_ := ErrorTypeForbidden; Field := p; BadValue := ""; Detail := detail |}.

(** The errors the validators return: a [*field.Error] as it is,
    [apierrors.NewBadRequest] and [apierrors.NewInvalid]. *)
Inductive webhook_error :=
| FieldErr (e : FieldError)
| StatusBadRequest (message : string)
| StatusInvalid (group kind name : string) (errs : list FieldError).

(** A [runtime.Object] as [ValidateUpdate] sees it: a pointer to a
    [MachinePool], possibly nil, or a value of another type, of which the
    type's name is what matters. *)
Inductive RuntimeObject :=
| ObjMachinePool (mp : option MachinePool)
| ObjOther (typeName : string).

Section Validators.
(** [clusterv1.ClusterNameLabel] *)
Variable ClusterNameLabel : string.
(** The group of [GroupVersion] *)
Variable Group : string.
(** [feature.Gates.Enabled(feature.MachinePool)] at the time of the call *)
Variable MachinePoolEnabled : bool.
(** [version.KubeSemver.MatchString] *)
Variable KubeSemver_MatchString : string → bool.
(** The method [Validate] of [clusterv1.ObjectMeta] *)
Variable ObjectMeta_Validate : ObjectMeta → list string → list FieldError.

(** [Default]: the object after the call. *)
Definition Default (m : MachinePool) : MachinePool :=
  {| Namespace := Namespace m;
     Name := Name m;
     Labels :=
       Some (<[ClusterNameLabel := ClusterName m]>
               (match Labels m with None => ∅ | Some labels => labels end));
     ClusterName := ClusterName m;
     Replicas := match Replicas m with None => Some 1 | Some r => Some r end;
     MinReadySeconds :=
       match MinReadySeconds m with None => Some 0 | Some s => Some s end;
     TemplateMeta := TemplateMeta m;
     ConfigRef :=
       match ConfigRef m with
       | Some r =>
         if decide (refNamespace r = "")
         then Some (with_refNamespace (Namespace m) r)
         else Some r
       | None => None
       end;
     DataSecretName := DataSecretName m;
     InfrastructureRef :=
       if decide (refNamespace (InfrastructureRef m) = "")
       then with_refNamespace (Namespace m) (InfrastructureRef m)
       else InfrastructureRef m;
     Version :=
       match Version m with
       | Some v => if HasPrefix v "v" then Some v else Some ("v" +:+ v)
       | None => None
       end |}.

(** The list [allErrs] at the end of [validate]. *)
Definition validate_errors (m : MachinePool) (old : option MachinePool)
    : list FieldError :=
  let specPath := NewPath "spec" in
  let allErrs : list FieldError := [] in
  let allErrs :=
    match ConfigRef m, DataSecretName m with
    | None, None =>
      append allErrs [Required (Child specPath ["template"; "spec"; "bootstrap"; "data"])
        "expected either spec.bootstrap.dataSecretName or spec.bootstrap.configRef to be populated"]
    | _, _ => allErrs
    end in
  let allErrs :=
    match ConfigRef m with
    | Some r =>
      if decide (refNamespace r ≠ Namespace m) then
        append allErrs [Invalid
          (Child specPath ["template"; "spec"; "bootstrap"; "configRef"; "namespace"])
          (refNamespace r) "must match metadata.namespace"]
      else allErrs
    | None => allErrs
    end in
  let allErrs :=
    if decide (refNamespace (InfrastructureRef m) ≠ Namespace m) then
      append allErrs [Invalid (Child specPath ["infrastructureRef"; "namespace"])
                    (refNamespace (InfrastructureRef m)) "must match metadata.namespace"]
    else allErrs in
  let allErrs :=
    match old with
    | Some o =>
      if decide (ClusterName o ≠ ClusterName m) then
        append allErrs [Forbidden (Child specPath ["clusterName"]) "field is immutable"]
      else allErrs
    | None => allErrs
    end in
  let allErrs :=
    match Version m with
    | Some v =>
      if KubeSemver_MatchString v then allErrs
      else append allErrs [Invalid (Child specPath ["template"; "spec"; "version"]) v
                         "must be a valid semantic version"]
    | None => allErrs
    end in
  append allErrs (ObjectMeta_Validate (TemplateMeta m) (Child specPath ["template"; "metadata"])).

(** [validate]: nil is [None]. *)
Definition validate (m : MachinePool) (old : option MachinePool) : option webhook_error :=
  let specPath := NewPath "spec" in
  if negb MachinePoolEnabled then
    Some (FieldErr (Forbidden specPath
                      "can be set only if the MachinePool feature flag is enabled"))
  else
    let allErrs := validate_errors m old in
    if decide (length allErrs = 0%nat) then None
    else Some (StatusInvalid Group "MachinePool" (Name m) allErrs).

(** The validators return no warnings; the error is what is modelled. *)
Definition ValidateCreate (m : MachinePool) : option webhook_error :=
  validate m None.

Definition ValidateUpdate (m : MachinePool) (old : RuntimeObject) : option webhook_error :=
  match old with
  | ObjOther typeName =>
    Some (StatusBadRequest ("expected a MachinePool but got a " +:+ typeName))
  | ObjMachinePool oldMP => validate m oldMP
  end.

Definition ValidateDelete (m : MachinePool) : option webhook_error :=
  validate m None.
End Validators.

(** The two namespace conditions and the version condition under which an
    object passes [validate] once [Default] has run. *)
Definition namespace_defaultable (m : MachinePool) (r : ObjectReference) : Prop :=
  refNamespace r = "" ∨ refNamespace r = Namespace m.

Definition normalized_version (v : string) : string :=
  if HasPrefix v "v" then v else "v" +:+ v.

(** Sample inputs. *)
Definition sample_group : string := "cluster.x-k8s.io".
Definition sample_label : string := "cluster.x-k8s.io/cluster-name".

Definition sample_ref (kind ns : string) : ObjectReference :=
  {| refKind := kind; refNamespace := ns; refName := "pool-template";
     refAPIVersion := "infrastructure.cluster.x-k8s.io/v1beta1" |}.

Definition sample_pool (ns cluster refns : string) (version : option string)
    : MachinePool :=
  {| Namespace := ns; Name := "pool"; Labels := None; ClusterName := cluster;
     Replicas := None; MinReadySeconds := None;
     TemplateMeta := {| metaLabels := ∅; metaAnnotations := ∅ |};
     ConfigRef := Some (sample_ref "KubeadmConfigTemplate" refns);
     DataSecretName := None;
     InfrastructureRef := sample_ref "DockerMachinePool" refns;
     Version := version |}.

(** A version matcher that asks for the leading "v" only, and a metadata
    validation that finds nothing. *)
Definition sample_semver (v : string) : bool := HasPrefix v "v".
Definition sample_meta_validate (meta : ObjectMeta) (p : list string)
    : list FieldError := [].

End Webhook.

(** * Properties *)

(** ** Strings *)

Lemma HasPrefix_spec (s p : string) :
  HasPrefix s p = true ↔ ∃ rest, s = p +:+ rest.
Proof.
  unfold HasPrefix. revert s.
  induction p as [|c p IH]; intros s; simpl.
  - destruct s; (split; [intros _; eexists; reflexivity | done]).
  - destruct s as [|d s]; simpl.
    + split; [done | intros [rest Hr]; discriminate].
    + destruct (ascii_dec c d) as [->|Hne].
      * rewrite IH. split; intros [rest Hr]; exists rest.
        -- by rewrite Hr.
        -- by injection Hr.
      * split; [done | intros [rest Hr]; injection Hr; congruence].
Qed.

(** ** Protocol demultiplexer *)

(** C8. A request is served by the etcd handler exactly when its major
    protocol version is 2 and the value of its content-type header starts
    with "application/grpc"; every other request is served by the API
    server handler. *)
Theorem mixedHandler_routing (r : Request) :
  (mixedHandler r = etcdHandler ↔
     ProtoMajor r = 2 ∧
     ∃ rest, Header_Get (Header r) "content-type" = "application/grpc" +:+ rest)
  ∧ (mixedHandler r = apiHandler ↔
     ¬ (ProtoMajor r = 2 ∧
        ∃ rest, Header_Get (Header r) "content-type" = "application/grpc" +:+ rest)).
Proof.
  unfold mixedHandler. rewrite <- HasPrefix_spec.
  destruct (decide (ProtoMajor r = 2)) as [Hv|Hv].
  - destruct (HasPrefix _ _) eqn:Hp; (split; split).
    + done.
    + done.
    + done.
    + intros H. by destruct H.
    + done.
    + by intros [_ ?].
    + by intros _ [_ ?].
    + done.
  - split; split.
    + done.
    + by intros [? _].
    + by intros _ [? _].
    + done.
Qed.

(** The content-type header is the first value stored under the canonical
    key. *)
Lemma Header_Get_content_type (h : gmap string (list string)) :
  Header_Get h "content-type" =
  match h !! "Content-Type" with Some (v :: _) => v | _ => "" end.
Proof. reflexivity. Qed.

Example mixedHandler_grpc_over_http2 :
  mixedHandler (mkRequest 2 {[ "Content-Type" := ["application/grpc"] ]}) = etcdHandler.
Proof. vm_compute. reflexivity. Qed.

Example mixedHandler_grpc_over_http1 :
  mixedHandler (mkRequest 1 {[ "Content-Type" := ["application/grpc"] ]}) = apiHandler.
Proof. vm_compute. reflexivity. Qed.

Example mixedHandler_json_over_http2 :
  mixedHandler (mkRequest 2 {[ "Content-Type" := ["application/json"] ]}) = apiHandler.
Proof. vm_compute. reflexivity. Qed.

(** ** Shutdown *)

(** C1, as the code has it. The debug server is always asked to shut down,
    first; the mux server is asked exactly when the debug server's shutdown
    succeeded; the error returned is the first one met, wrapped. *)
Theorem Shutdown_calls (env : ShutdownEnv) :
  (∃ rest, (Shutdown env).1 = DebugServerShutdown :: rest)
  ∧ (MuxServerShutdown ∈ (Shutdown env).1 ↔ debugServerShutdown env = None)
  ∧ (Shutdown env).2 =
      match debugServerShutdown env with
      | Some err => Some (ErrWrap err "failed to shutdown the debug server")
      | None =>
        match muxServerShutdown env with
        | Some err => Some (ErrWrap err "failed to shutdown the mux server")
        | None => None
        end
      end.
Proof.
  unfold Shutdown.
  destruct (debugServerShutdown env) as [e|]; [|destruct (muxServerShutdown env) as [e|]];
    simpl; (split; [eauto|split; [|done]]).
  - split; [|done]. intros H. apply list_elem_of_singleton in H. discriminate.
  - split; [done|]. intros _. set_solver.
  - split; [done|]. intros _. set_solver.
Qed.

(** C1 fails when the debug server's shutdown fails: the mux server is
    not asked to shut down. *)
Lemma Shutdown_skips_mux_server :
  let env := {| debugServerShutdown := Some (ErrExternal "context deadline exceeded");
                muxServerShutdown := None |} in
  (Shutdown env).1 = [DebugServerShutdown]
  ∧ MuxServerShutdown ∉ (Shutdown env).1.
Proof.
  simpl. split; [reflexivity|].
  intros H. apply list_elem_of_singleton in H. discriminate.
Qed.

(** ** Certificate resolver *)

(** C3, as the code has it. When the local address resolves to a record
    and the server name is not an etcd member of it, the resolver returns
    the record's API server serving certificate, set or not, and no error. *)
Theorem getCertificate_api_server (m : WorkloadClustersMux)
    (hostPort serverName wclName : string) (wcl : WorkloadClusterListener) :
  workloadClusterNameByHost m !! hostPort = Some wclName →
  workloadClusterListeners m !! wclName = Some wcl →
  serverName ∉ etcdMembers wcl →
  getCertificate m hostPort serverName = (apiServerServingCertificate wcl, None).
Proof.
  intros Hh Hl Hs. unfold getCertificate. rewrite Hh, Hl.
  by destruct (decide (serverName ∈ etcdMembers wcl)).
Qed.

(** C3 fails on a listener that was initialised and has no API server
    yet: the resolver returns a nil certificate and a nil error. *)
Lemma getCertificate_nil_without_error :
  let m := (InitWorkloadClusterListener (NewWorkloadClustersMux "127.0.0.1") "c").2 in
  workloadClusterNameByHost m !! "127.0.0.1:20000" = Some "c"
  ∧ (∃ wcl, workloadClusterListeners m !! "c" = Some wcl
            ∧ ("kube-apiserver" ∉ etcdMembers wcl)
            ∧ apiServerServingCertificate wcl = None)
  ∧ getCertificate m "127.0.0.1:20000" "kube-apiserver" = (None, None).
Proof.
  simpl. split; [by vm_compute|]. split; [|by vm_compute].
  exists (reserved "127.0.0.1" 20000).
  split; [by vm_compute|]. split; [|done].
  simpl. apply not_elem_of_empty.
Qed.

Lemma getCertificate_api_server_witness :
  getCertificate (InitWorkloadClusterListener (NewWorkloadClustersMux "127.0.0.1") "c").2
    "127.0.0.1:20000" "kube-apiserver" = (None, None).
Proof.
  apply (getCertificate_api_server _ _ _ "c" (reserved "127.0.0.1" 20000)).
  - by vm_compute.
  - by vm_compute.
  - simpl. apply not_elem_of_empty.
Defined.

(** ** Machine integers *)

Lemma wrap_int_id (z : Z) : is_int z → wrap_int z = z.
Proof.
  unfold is_int, int_min, int_max, wrap_int. intros Hz.
  rewrite Z.mod_small; lia.
Qed.

(** ** Listener initialisation *)

Lemma Init_existing (m : WorkloadClustersMux) (c : string) (wcl : WorkloadClusterListener) :
  workloadClusterListeners m !! c = Some wcl →
  InitWorkloadClusterListener m c = (Ok wcl, m).
Proof. intros H. unfold InitWorkloadClusterListener. by rewrite H. Qed.

Lemma Init_fresh_exhausted (m : WorkloadClustersMux) (c : string) :
  workloadClusterListeners m !! c = None →
  portIndex m > maxPort m →
  InitWorkloadClusterListener m c
  = (Err (ErrNoMoreFreePorts (minPort m) (maxPort m)), m).
Proof.
  intros H Hp. unfold InitWorkloadClusterListener, getFreePortLocked.
  rewrite H. by destruct (decide (portIndex m > maxPort m)).
Qed.

Lemma Init_fresh_ok (m : WorkloadClustersMux) (c : string) :
  workloadClusterListeners m !! c = None →
  portIndex m ≤ maxPort m →
  InitWorkloadClusterListener m c
  = (Ok (reserved (host m) (portIndex m)),
     {| host := host m; minPort := minPort m; maxPort := maxPort m;
        portIndex := wrap_int (portIndex m + 1);
        workloadClusterListeners :=
          <[c := reserved (host m) (portIndex m)]> (workloadClusterListeners m);
        workloadClusterNameByHost :=
          <[HostPort (reserved (host m) (portIndex m)) := c]>
            (workloadClusterNameByHost m) |}).
Proof.
  intros H Hp. unfold InitWorkloadClusterListener, getFreePortLocked.
  rewrite H. destruct (decide (portIndex m > maxPort m)); [lia|]. reflexivity.
Qed.

(** C6. A name that has a record gets that record back and the mux is
    left as it was, port cursor included; and calling twice in a row with
    one name returns the same result both times, the second call changing
    nothing. *)
Theorem InitWorkloadClusterListener_idempotent (m : WorkloadClustersMux) (c : string) :
  (∀ wcl, workloadClusterListeners m !! c = Some wcl →
          InitWorkloadClusterListener m c = (Ok wcl, m))
  ∧ InitWorkloadClusterListener (InitWorkloadClusterListener m c).2 c
    = InitWorkloadClusterListener m c.
Proof.
  split; [intros wcl; apply Init_existing|].
  destruct (workloadClusterListeners m !! c) as [wcl|] eqn:Hc.
  - rewrite (Init_existing _ _ _ Hc). simpl. by apply Init_existing.
  - destruct (decide (portIndex m > maxPort m)) as [Hp|Hp].
    + rewrite (Init_fresh_exhausted _ _ Hc Hp). simpl.
      by apply Init_fresh_exhausted.
    + rewrite (Init_fresh_ok _ _ Hc) by lia. simpl.
      apply Init_existing. simpl. apply lookup_insert_eq.
Qed.

Lemma InitWorkloadClusterListener_idempotent_witness :
  let m := (InitWorkloadClusterListener (NewWorkloadClustersMux "127.0.0.1") "c").2 in
  workloadClusterListeners m !! "c" = Some (reserved "127.0.0.1" 20000)
  ∧ InitWorkloadClusterListener m "c" = (Ok (reserved "127.0.0.1" 20000), m)
  ∧ portIndex m = 20001.
Proof.
  simpl.
  assert (H : workloadClusterListeners
                (InitWorkloadClusterListener (NewWorkloadClustersMux "127.0.0.1") "c").2
              !! "c" = Some (reserved "127.0.0.1" 20000)) by (by vm_compute).
  split; [exact H|]. split; [|by vm_compute].
  exact (proj1 (InitWorkloadClusterListener_idempotent _ "c") _ H).
Defined.

(** ** Port allocation *)

Lemma InitListeners_fresh (names : list string) :
  ∀ (m : WorkloadClustersMux),
  is_int (portIndex m) → maxPort m < int_max →
  NoDup names →
  (∀ n, n ∈ names → workloadClusterListeners m !! n = None) →
  ∀ (i : nat) (n : string), names !! i = Some n →
  (InitListeners m names).1 !! i
  = Some (if decide (portIndex m + Z.of_nat i ≤ maxPort m)
          then Ok (reserved (host m) (portIndex m + Z.of_nat i))
          else Err (ErrNoMoreFreePorts (minPort m) (maxPort m))).
Proof.
  induction names as [|n0 names IH]; intros m Hint Hmax Hnd Hfresh i n Hi.
  - by rewrite lookup_nil in Hi.
  - apply NoDup_cons in Hnd as [Hn0 Hnd].
    assert (Hf0 : workloadClusterListeners m !! n0 = None)
      by (apply Hfresh; left).
    simpl.
    destruct (decide (portIndex m > maxPort m)) as [Hp|Hp].
    + rewrite (Init_fresh_exhausted _ _ Hf0 Hp).
      destruct (InitListeners m names) as [rs mf] eqn:Hrs.
      destruct i as [|i]; simpl.
      * destruct (decide (portIndex m + Z.of_nat 0 ≤ maxPort m)); [lia|done].
      * specialize (IH m Hint Hmax Hnd
                      (λ k Hk, Hfresh k (list_elem_of_further _ _ _ Hk)) i n Hi).
        rewrite Hrs in IH. simpl in IH. rewrite IH.
        destruct (decide (portIndex m + Z.of_nat i ≤ maxPort m)); [lia|].
        destruct (decide (portIndex m + Z.of_nat (S i) ≤ maxPort m)); [lia|done].
    + rewrite (Init_fresh_ok _ _ Hf0) by lia.
      set (m1 := {| host := host m |}).
      destruct (InitListeners m1 names) as [rs mf] eqn:Hrs.
      assert (Hw : wrap_int (portIndex m + 1) = portIndex m + 1).
      { apply wrap_int_id. unfold is_int, int_max, int_min in *. lia. }
      destruct i as [|i]; simpl.
      * destruct (decide (portIndex m + Z.of_nat 0 ≤ maxPort m)); [|lia].
        by rewrite Z.add_0_r.
      * assert (Hint1 : is_int (portIndex m1)).
        { simpl. rewrite Hw. unfold is_int, int_max, int_min in *. lia. }
        assert (Hfresh1 : ∀ k, k ∈ names → workloadClusterListeners m1 !! k = None).
        { intros k Hk. simpl. rewrite lookup_insert_ne.
          - apply Hfresh. by right.
          - intros ->. done. }
        specialize (IH m1 Hint1 Hmax Hnd Hfresh1 i n Hi).
        rewrite Hrs in IH. simpl in IH. rewrite IH, Hw.
        replace (portIndex m + 1 + Z.of_nat i) with (portIndex m + Z.of_nat (S i)) by lia.
        done.
Qed.

(** ** What each call does to the records *)

Lemma AddAPIServer_missing (m : WorkloadClustersMux) (wclName podName : string)
    caCert caKey env :
  workloadClusterListeners m !! wclName = None →
  AddAPIServer m wclName podName caCert caKey env
  = (Some (ErrMustBeInitialized wclName), m).
Proof. intros H. unfold AddAPIServer. by rewrite H. Qed.

Lemma AddAPIServer_found (m : WorkloadClustersMux) (wclName podName : string)
    caCert caKey env (w : WorkloadClusterListener) :
  workloadClusterListeners m !! wclName = Some w →
  ∃ err w',
    AddAPIServer m wclName podName caCert caKey env
    = (err, set_listener_record wclName w' m)
    ∧ api_server_update podName caCert caKey err w w'.
Proof.
  intros H. unfold AddAPIServer, api_server_update. rewrite H.
  destruct w as [h p srv cac cak sc ac ak em ec l]; simpl.
  destruct sc as [sc|]; [|destruct (servingCertAndKey env) as [[]|];
                           [destruct (servingKeyPair env)|]];
    simpl;
    try (eexists _, _; split; [reflexivity|]; simpl;
         repeat split; try done; intros [? ?]; done);
    (destruct ac as [ac|]; [|destruct (adminCertAndKey env) as [[]|]];
     simpl;
     try (eexists _, _; split; [reflexivity|]; simpl;
          repeat split; try done; intros [? ?]; done);
     (destruct l as [l|]; [|destruct (listenErr env); [|destruct (startErr env)]];
      simpl; eexists _, _; (split; [reflexivity|]); simpl;
      repeat split; try done; try (intros [? ?]; done); eauto)).
Qed.

Lemma AddEtcdMember_missing (m : WorkloadClustersMux) (wclName podName : string)
    caCert caKey env :
  workloadClusterListeners m !! wclName = None →
  AddEtcdMember m wclName podName caCert caKey env
  = (Some (ErrMustBeInitialized wclName), m).
Proof. intros H. unfold AddEtcdMember. by rewrite H. Qed.

Lemma AddEtcdMember_found (m : WorkloadClustersMux) (wclName podName : string)
    caCert caKey env (w : WorkloadClusterListener) :
  workloadClusterListeners m !! wclName = Some w →
  ∃ err w',
    AddEtcdMember m wclName podName caCert caKey env
    = (err, set_listener_record wclName w' m)
    ∧ etcd_member_update podName w w'.
Proof.
  intros H. unfold AddEtcdMember, etcd_member_update. rewrite H.
  destruct w as [h p srv cac cak sc ac ak em ec l]; simpl.
  destruct (ec !! podName) as [c0|] eqn:Hc;
    [|destruct (etcdCertAndKey env); [destruct (etcdKeyPair env)|]];
    eexists _, _; (split; [reflexivity|]); simpl; repeat split; try done.
  intros pod c Hp. destruct (decide (podName = pod)) as [->|Hne].
  - congruence.
  - by rewrite lookup_insert_ne.
Qed.

Lemma step_InitListener (ann : string) (m : WorkloadClustersMux) (n : string) :
  step ann m (OpInitListener n) = (InitWorkloadClusterListener m n).2.
Proof.
  unfold step, call.
  by destruct (InitWorkloadClusterListener m n) as [[w|e] m'].
Qed.

Lemma Init_cases (m : WorkloadClustersMux) (n : string) :
  (InitWorkloadClusterListener m n).2 = m
  ∨ (workloadClusterListeners m !! n = None
     ∧ portIndex m ≤ maxPort m
     ∧ (InitWorkloadClusterListener m n).2
       = {| host := host m; minPort := minPort m; maxPort := maxPort m;
            portIndex := wrap_int (portIndex m + 1);
            workloadClusterListeners :=
              <[n := reserved (host m) (portIndex m)]> (workloadClusterListeners m);
            workloadClusterNameByHost :=
              <[HostPort (reserved (host m) (portIndex m)) := n]>
                (workloadClusterNameByHost m) |}).
Proof.
  destruct (workloadClusterListeners m !! n) as [w|] eqn:Hn.
  - left. by rewrite (Init_existing _ _ _ Hn).
  - destruct (decide (portIndex m > maxPort m)) as [Hp|Hp].
    + left. by rewrite (Init_fresh_exhausted _ _ Hn Hp).
    + right. split; [done|]. split; [lia|].
      by rewrite (Init_fresh_ok _ _ Hn) by lia.
Qed.

(** ** The loop of the hot restart *)

(** The five ways one iteration can go. *)
Lemma HotRestart_loop_cons (ann : string) (m : WorkloadClustersMux) (ports : gset Z)
    (mp : Z) (c : InMemoryCluster) (items : list InMemoryCluster) :
  (cpHost c = ""
   ∧ HotRestart_loop ann m ports mp (c :: items)
     = HotRestart_loop ann m ports mp items)
  ∨ (cpHost c ≠ "" ∧ cpHost c ≠ host m
     ∧ HotRestart_loop ann m ports mp (c :: items)
       = (Some (ErrHostChanged (cpHost c) (host m)), m, mp))
  ∨ (cpHost c ≠ "" ∧ cpHost c = host m ∧ cpPort c ∈ ports
     ∧ HotRestart_loop ann m ports mp (c :: items)
       = (Some (ErrDuplicatePort (cpPort c)), m, mp))
  ∨ (cpHost c ≠ "" ∧ cpHost c = host m ∧ (cpPort c ∉ ports)
     ∧ Annotations c !! ann = None
     ∧ HotRestart_loop ann m ports mp (c :: items)
       = (Some (ErrMissingAnnotation (Namespace c) (Name c) ann), m, mp))
  ∨ (∃ rg, cpHost c ≠ "" ∧ cpHost c = host m ∧ (cpPort c ∉ ports)
     ∧ Annotations c !! ann = Some rg
     ∧ HotRestart_loop ann m ports mp (c :: items)
       = HotRestart_loop ann
           (initWorkloadClusterListenerWithPortLocked m rg (cpPort c)).2
           ports (Z.max mp (cpPort c)) items).
Proof.
  simpl.
  destruct (decide (cpHost c = "")) as [Hh|Hh]; [by left|right].
  destruct (decide (cpHost c ≠ host m)) as [Hm|Hm]; [by left|right].
  assert (cpHost c = host m) by (by destruct (decide (cpHost c = host m))).
  destruct (decide (cpPort c ∈ ports)) as [Hp|Hp]; [by left|right].
  destruct (Annotations c !! ann) as [rg|] eqn:Ha; [right|by left].
  exists rg. repeat (split; [done|]).
  destruct (decide (mp < cpPort c)).
  - by rewrite Z.max_r by lia.
  - by rewrite Z.max_l by lia.
Qed.

Lemma HotRestart_loop_register (ann : string) (m : WorkloadClustersMux)
    (ports : gset Z) (mp : Z) (c : InMemoryCluster) (items : list InMemoryCluster)
    (rg0 : string) :
  cpHost c ≠ "" → cpHost c = host m → cpPort c ∉ ports →
  Annotations c !! ann = Some rg0 →
  HotRestart_loop ann m ports mp (c :: items)
  = HotRestart_loop ann
      (initWorkloadClusterListenerWithPortLocked m rg0 (cpPort c)).2
      ports (Z.max mp (cpPort c)) items.
Proof.
  intros Hh Hm Hp Ha.
  destruct (HotRestart_loop_cons ann m ports mp c items)
    as [(? & _)|[(_ & ? & _)|[(_ & _ & ? & _)|[(_ & _ & _ & ? & _)
       |(rg' & _ & _ & _ & Hrg & ->)]]]]; try done; try congruence.
Qed.

Ltac loop_cases ann m ports mp c items H :=
  destruct (HotRestart_loop_cons ann m ports mp c items)
    as [(? & Hstep)
       |[(? & ? & Hstep)
        |[(? & ? & ? & Hstep)
         |[(? & ? & ? & ? & Hstep)
          |(rg & ? & ? & ? & ? & Hstep)]]]];
  rewrite Hstep in H; clear Hstep.

Lemma HotRestart_loop_frame (ann : string) (items : list InMemoryCluster) :
  ∀ m ports mp e m' mp',
  HotRestart_loop ann m ports mp items = (e, m', mp') →
  host m' = host m ∧ minPort m' = minPort m ∧ maxPort m' = maxPort m
  ∧ portIndex m' = portIndex m.
Proof.
  induction items as [|c items IH]; intros m ports mp e m' mp' H.
  - simpl in H. by simplify_eq.
  - loop_cases ann m ports mp c items H; try (by simplify_eq).
    + by apply IH in H.
    + by apply IH in H.
Qed.

(** Every record after the loop was there before it, or was reserved by it
    for one of the listed clusters. *)
Lemma HotRestart_loop_records (ann : string) (items : list InMemoryCluster) :
  ∀ m ports mp e m' mp',
  HotRestart_loop ann m ports mp items = (e, m', mp') →
  ∀ k w, workloadClusterListeners m' !! k = Some w →
  workloadClusterListeners m !! k = Some w
  ∨ ∃ c, c ∈ items ∧ w = reserved (host m) (cpPort c).
Proof.
  induction items as [|c items IH]; intros m ports mp e m' mp' H k w Hk.
  - left. simpl in H. by simplify_eq.
  - loop_cases ann m ports mp c items H; try (left; by simplify_eq).
    + destruct (IH _ _ _ _ _ _ H k w Hk) as [?|(c' & ? & ?)]; [by left|].
      right. exists c'. split; [by right|done].
    + destruct (IH _ _ _ _ _ _ H k w Hk) as [Hm|(c' & ? & ?)].
      * simpl in Hm. destruct (decide (rg = k)) as [->|Hne].
        -- rewrite lookup_insert_eq in Hm. right. exists c.
           split; [left|]. by simplify_eq.
        -- rewrite lookup_insert_ne in Hm by done. by left.
      * right. exists c'. split; [by right|done].
Qed.

Lemma HotRestart_loop_keeps_keys (ann : string) (items : list InMemoryCluster) :
  ∀ m ports mp e m' mp',
  HotRestart_loop ann m ports mp items = (e, m', mp') →
  ∀ k, is_Some (workloadClusterListeners m !! k) →
       is_Some (workloadClusterListeners m' !! k).
Proof.
  induction items as [|c items IH]; intros m ports mp e m' mp' H k Hk.
  - simpl in H. by simplify_eq.
  - loop_cases ann m ports mp c items H; try (by simplify_eq).
    + by eapply IH.
    + eapply IH; [exact H|]. simpl.
      destruct (decide (rg = k)) as [->|Hne].
      * rewrite lookup_insert_eq. eauto.
      * by rewrite lookup_insert_ne.
Qed.

(** If the loop leaves the registry empty it has reserved nothing, and
    its local maximum is the one it started from. *)
Lemma HotRestart_loop_empty (ann : string) (items : list InMemoryCluster) :
  ∀ m ports mp e m' mp',
  HotRestart_loop ann m ports mp items = (e, m', mp') →
  workloadClusterListeners m' = ∅ → mp' = mp.
Proof.
  induction items as [|c items IH]; intros m ports mp e m' mp' H He.
  - simpl in H. by simplify_eq.
  - loop_cases ann m ports mp c items H; try (by simplify_eq).
    + by eapply IH.
    + exfalso.
      assert (Hs : is_Some (workloadClusterListeners m' !! rg)).
      { eapply HotRestart_loop_keeps_keys; [exact H|].
        simpl. rewrite lookup_insert_eq. eauto. }
      rewrite He, lookup_empty in Hs. by destruct Hs.
Qed.

(** ** The hot restart *)

Lemma nonempty_size (m : WorkloadClustersMux) :
  workloadClusterListeners m ≠ ∅ ↔ (0 < size (workloadClusterListeners m))%nat.
Proof.
  rewrite <- map_size_non_empty_iff. lia.
Qed.

Lemma HotRestart_initialized (ann : string) (m : WorkloadClustersMux)
    (clusters : list InMemoryCluster) :
  workloadClusterListeners m ≠ ∅ →
  HotRestart ann m clusters
  = (if decide (length clusters = 0%nat) then None else Some ErrAlreadyInitialized, m).
Proof.
  intros Hne. unfold HotRestart. apply nonempty_size in Hne.
  destruct (decide (length clusters = 0%nat)); [done|].
  by destruct (decide (0 < size (workloadClusterListeners m))%nat).
Qed.

Lemma HotRestart_frame (ann : string) (m : WorkloadClustersMux)
    (clusters : list InMemoryCluster) :
  host (HotRestart ann m clusters).2 = host m
  ∧ minPort (HotRestart ann m clusters).2 = minPort m
  ∧ maxPort (HotRestart ann m clusters).2 = maxPort m.
Proof.
  unfold HotRestart. repeat case_decide; try done.
  destruct (HotRestart_loop _ _ _ _ _) as [[e m'] mp'] eqn:Hl.
  apply HotRestart_loop_frame in Hl as (? & ? & ? & ?).
  by destruct e.
Qed.

Lemma HotRestart_records (ann : string) (m : WorkloadClustersMux)
    (clusters : list InMemoryCluster) (k : string) (w : WorkloadClusterListener) :
  workloadClusterListeners (HotRestart ann m clusters).2 !! k = Some w →
  workloadClusterListeners m !! k = Some w
  ∨ ∃ c, c ∈ clusters ∧ w = reserved (host m) (cpPort c).
Proof.
  unfold HotRestart. repeat case_decide; try (by left).
  destruct (HotRestart_loop _ _ _ _ _) as [[e m'] mp'] eqn:Hl.
  intros Hk. eapply HotRestart_loop_records; [exact Hl|].
  by destruct e.
Qed.

(** ** One call *)

Lemma step_frame (ann : string) (m : WorkloadClustersMux) (op : Op) :
  host (step ann m op) = host m
  ∧ minPort (step ann m op) = minPort m
  ∧ maxPort (step ann m op) = maxPort m.
Proof.
  destruct op as [n|n pod ca key env|n pod ca key env|cs].
  - rewrite step_InitListener.
    by destruct (Init_cases m n) as [->|(_ & _ & ->)].
  - unfold step, call.
    destruct (workloadClusterListeners m !! n) as [w|] eqn:Hn.
    + by destruct (AddAPIServer_found m n pod ca key env w Hn) as (e & w' & -> & _).
    + by rewrite AddAPIServer_missing.
  - unfold step, call.
    destruct (workloadClusterListeners m !! n) as [w|] eqn:Hn.
    + by destruct (AddEtcdMember_found m n pod ca key env w Hn) as (e & w' & -> & _).
    + by rewrite AddEtcdMember_missing.
  - apply HotRestart_frame.
Qed.

(** Where a record found after a call comes from. *)
Lemma step_records (ann : string) (m : WorkloadClustersMux) (op : Op)
    (k : string) (w' : WorkloadClusterListener) :
  workloadClusterListeners (step ann m op) !! k = Some w' →
  workloadClusterListeners m !! k = Some w'
  ∨ (∃ p, w' = reserved (host m) p)
  ∨ (∃ w pod ca key env,
        op = OpAddAPIServer k pod ca key env
        ∧ workloadClusterListeners m !! k = Some w
        ∧ api_server_update pod ca key (call ann m op).1 w w')
  ∨ (∃ w pod ca key env,
        op = OpAddEtcdMember k pod ca key env
        ∧ workloadClusterListeners m !! k = Some w
        ∧ etcd_member_update pod w w').
Proof.
  destruct op as [n|n pod ca key env|n pod ca key env|cs].
  - rewrite step_InitListener.
    destruct (Init_cases m n) as [->|(_ & _ & ->)]; [by left|].
    simpl. destruct (decide (n = k)) as [->|Hne].
    + rewrite lookup_insert_eq. intros ?. simplify_eq. right. left. eauto.
    + rewrite lookup_insert_ne by done. by left.
  - unfold step, call.
    destruct (workloadClusterListeners m !! n) as [w|] eqn:Hn.
    + destruct (AddAPIServer_found m n pod ca key env w Hn) as (e & w1 & -> & Hu).
      simpl. destruct (decide (n = k)) as [->|Hne].
      * rewrite lookup_insert_eq. intros ?. simplify_eq.
        right. right. left. by exists w, pod, ca, key, env.
      * rewrite lookup_insert_ne by done. by left.
    + rewrite AddAPIServer_missing by done. by left.
  - unfold step, call.
    destruct (workloadClusterListeners m !! n) as [w|] eqn:Hn.
    + destruct (AddEtcdMember_found m n pod ca key env w Hn) as (e & w1 & -> & Hu).
      simpl. destruct (decide (n = k)) as [->|Hne].
      * rewrite lookup_insert_eq. intros ?. simplify_eq.
        right. right. right. by exists w, pod, ca, key, env.
      * rewrite lookup_insert_ne by done. by left.
    + rewrite AddEtcdMember_missing by done. by left.
  - intros Hk. apply HotRestart_records in Hk as [?|(c & _ & ->)]; [by left|].
    right. left. eauto.
Qed.

(** Where a record present before a call goes. *)
Lemma step_records_forward (ann : string) (m : WorkloadClustersMux) (op : Op)
    (k : string) (w : WorkloadClusterListener) :
  workloadClusterListeners m !! k = Some w →
  ∃ w', workloadClusterListeners (step ann m op) !! k = Some w'
        ∧ (w' = w
           ∨ (∃ pod ca key env,
                 op = OpAddAPIServer k pod ca key env
                 ∧ api_server_update pod ca key (call ann m op).1 w w')
           ∨ (∃ pod ca key env,
                 op = OpAddEtcdMember k pod ca key env
                 ∧ etcd_member_update pod w w')).
Proof.
  intros Hk.
  destruct op as [n|n pod ca key env|n pod ca key env|cs].
  - rewrite step_InitListener.
    destruct (Init_cases m n) as [->|(Hn & _ & ->)]; [eauto|].
    simpl. exists w. split; [|by left].
    rewrite lookup_insert_ne; [done|]. intros ->. congruence.
  - unfold step, call.
    destruct (workloadClusterListeners m !! n) as [w0|] eqn:Hn.
    + destruct (AddAPIServer_found m n pod ca key env w0 Hn) as (e & w1 & -> & Hu).
      simpl. destruct (decide (n = k)) as [->|Hne].
      * rewrite lookup_insert_eq. simplify_eq. exists w1. split; [done|].
        right. left. by exists pod, ca, key, env.
      * rewrite lookup_insert_ne by done. eauto.
    + rewrite AddAPIServer_missing by done. eauto.
  - unfold step, call.
    destruct (workloadClusterListeners m !! n) as [w0|] eqn:Hn.
    + destruct (AddEtcdMember_found m n pod ca key env w0 Hn) as (e & w1 & -> & Hu).
      simpl. destruct (decide (n = k)) as [->|Hne].
      * rewrite lookup_insert_eq. simplify_eq. exists w1. split; [done|].
        right. right. by exists pod, ca, key, env.
      * rewrite lookup_insert_ne by done. eauto.
    + rewrite AddEtcdMember_missing by done. eauto.
  - unfold step, call. rewrite HotRestart_initialized; [eauto|].
    intros He. rewrite He, lookup_empty in Hk. done.
Qed.

Lemma step_keeps_nonempty (ann : string) (m : WorkloadClustersMux) (op : Op) :
  workloadClusterListeners m ≠ ∅ →
  workloadClusterListeners (step ann m op) ≠ ∅.
Proof.
  intros Hne He. apply Hne. apply map_empty. intros k.
  destruct (workloadClusterListeners m !! k) as [w|] eqn:Hk; [|done].
  destruct (step_records_forward ann m op k w Hk) as (w' & Hw' & _).
  rewrite He, lookup_empty in Hw'. done.
Qed.

(** Once the cursor is past the range, no call moves it. *)
Lemma step_exhausted (ann : string) (m : WorkloadClustersMux) (op : Op) :
  workloadClusterListeners m ≠ ∅ →
  portIndex m > maxPort m →
  portIndex (step ann m op) = portIndex m.
Proof.
  intros Hne Hp.
  destruct op as [n|n pod ca key env|n pod ca key env|cs].
  - rewrite step_InitListener.
    destruct (Init_cases m n) as [->|(_ & ? & _)]; [done|lia].
  - unfold step, call.
    destruct (workloadClusterListeners m !! n) as [w|] eqn:Hn.
    + by destruct (AddAPIServer_found m n pod ca key env w Hn) as (e & w' & -> & _).
    + by rewrite AddAPIServer_missing.
  - unfold step, call.
    destruct (workloadClusterListeners m !! n) as [w|] eqn:Hn.
    + by destruct (AddEtcdMember_found m n pod ca key env w Hn) as (e & w' & -> & _).
    + by rewrite AddEtcdMember_missing.
  - unfold step, call. by rewrite HotRestart_initialized.
Qed.

(** While the registry is empty the cursor is inside the range. *)
Lemma step_empty_cursor (ann : string) (m : WorkloadClustersMux) (op : Op) :
  range_ok m →
  (workloadClusterListeners m = ∅ → portIndex m ≤ maxPort m) →
  workloadClusterListeners (step ann m op) = ∅ →
  portIndex (step ann m op) ≤ maxPort (step ann m op).
Proof.
  intros (Hlo & Hhi & Hrange) Hinv He.
  destruct (decide (workloadClusterListeners m = ∅)) as [Hm|Hm];
    [|by apply (step_keeps_nonempty ann m op) in Hm].
  specialize (Hinv Hm).
  destruct op as [n|n pod ca key env|n pod ca key env|cs].
  - rewrite step_InitListener in *.
    destruct (Init_cases m n) as [->|(_ & _ & Heq)]; [done|].
    rewrite Heq in He. simpl in He. by apply insert_non_empty in He.
  - unfold step, call in *.
    rewrite AddAPIServer_missing in * by (by rewrite Hm, lookup_empty). done.
  - unfold step, call in *.
    rewrite AddEtcdMember_missing in * by (by rewrite Hm, lookup_empty). done.
  - unfold step, call, HotRestart in *.
    destruct (decide (length cs = 0%nat)); [done|].
    destruct (decide (0 < size (workloadClusterListeners m))%nat); [done|].
    destruct (HotRestart_loop _ _ _ _ _) as [[e m'] mp'] eqn:Hl.
    pose proof (HotRestart_loop_frame _ _ _ _ _ _ _ _ Hl) as (_ & _ & Hmax & Hpi).
    destruct e as [e|]; simpl in *.
    + lia.
    + apply (HotRestart_loop_empty _ _ _ _ _ _ _ _ Hl) in He. subst mp'.
      rewrite Hmax.
      rewrite (wrap_int_id (minPort m - 1))
        by (unfold is_int, int_min, int_max in *; lia).
      replace (minPort m - 1 + 1) with (minPort m) by lia.
      rewrite wrap_int_id by (unfold is_int, int_min, int_max in *; lia).
      done.
Qed.

(** ** Sequences of calls *)

Lemma run_frame (ann : string) (ops : list Op) :
  ∀ m, host (run ann m ops) = host m
       ∧ minPort (run ann m ops) = minPort m
       ∧ maxPort (run ann m ops) = maxPort m.
Proof.
  induction ops as [|op ops IH]; intros m; [done|].
  unfold run in *. simpl.
  destruct (IH (step ann m op)) as (-> & -> & ->). apply step_frame.
Qed.

Lemma run_empty_cursor (ann : string) (ops : list Op) :
  ∀ m, range_ok m →
       (workloadClusterListeners m = ∅ → portIndex m ≤ maxPort m) →
       workloadClusterListeners (run ann m ops) = ∅ →
       portIndex (run ann m ops) ≤ maxPort (run ann m ops).
Proof.
  induction ops as [|op ops IH]; intros m Hr Hinv; [done|].
  unfold run in *. simpl. apply IH.
  - destruct (step_frame ann m op) as (_ & Hmin & Hmax).
    unfold range_ok. by rewrite Hmin, Hmax.
  - by apply step_empty_cursor.
Qed.

Lemma run_exhausted (ann : string) (ops : list Op) :
  ∀ m, workloadClusterListeners m ≠ ∅ →
       portIndex m > maxPort m →
       portIndex (run ann m ops) > maxPort (run ann m ops).
Proof.
  induction ops as [|op ops IH]; intros m Hne Hp; [done|].
  unfold run in *. simpl. apply IH.
  - by apply step_keeps_nonempty.
  - rewrite step_exhausted by done.
    destruct (step_frame ann m op) as (_ & _ & ->). done.
Qed.

Lemma New_range_ok (h : string) : range_ok (NewWorkloadClustersMux h).
Proof. unfold range_ok, int_min, int_max. simpl. unfold minPort_const, maxPort_const. lia. Qed.

(** Exhaustion is permanent in every mux built by the constructor. *)
Lemma exhaustion_permanent (ann h : string) (ops1 ops2 : list Op) (c : string) :
  let m := run ann (NewWorkloadClustersMux h) ops1 in
  let m' := run ann m ops2 in
  portIndex m > maxPort m →
  workloadClusterListeners m' !! c = None →
  InitWorkloadClusterListener m' c
  = (Err (ErrNoMoreFreePorts (minPort m') (maxPort m')), m').
Proof.
  intros m m' Hp Hc.
  apply Init_fresh_exhausted; [done|].
  apply run_exhausted; [|done].
  intros He.
  pose proof (run_empty_cursor ann ops1 (NewWorkloadClustersMux h)
                (New_range_ok h) (λ _, ltac:(simpl; unfold minPort_const, maxPort_const; lia)) He).
  fold m in H. lia.
Qed.

(** Ports handed out to fresh names grow with the order of the calls. *)
Lemma InitListeners_increasing (m : WorkloadClustersMux) (names : list string)
    (i j : nat) (wi wj : WorkloadClusterListener) :
  is_int (portIndex m) → maxPort m < int_max →
  NoDup names →
  (∀ n, n ∈ names → workloadClusterListeners m !! n = None) →
  (i < j)%nat →
  (InitListeners m names).1 !! i = Some (Ok wi) →
  (InitListeners m names).1 !! j = Some (Ok wj) →
  wcl_port wi < wcl_port wj.
Proof.
  intros Hint Hmax Hnd Hfresh Hij Hi Hj.
  assert (Hlen : length (InitListeners m names).1 = length names).
  { clear. revert m. induction names as [|n names IH]; intros m; [done|].
    simpl. destruct (InitWorkloadClusterListener m n) as [r m1].
    specialize (IH m1). destruct (InitListeners m1 names) as [rs mf].
    simpl in *. by rewrite IH. }
  destruct (lookup_lt_is_Some_2 names i) as [ni Hni].
  { rewrite <- Hlen. by eapply lookup_lt_Some. }
  destruct (lookup_lt_is_Some_2 names j) as [nj Hnj].
  { rewrite <- Hlen. by eapply lookup_lt_Some. }
  rewrite (InitListeners_fresh names m Hint Hmax Hnd Hfresh i ni Hni) in Hi.
  rewrite (InitListeners_fresh names m Hint Hmax Hnd Hfresh j nj Hnj) in Hj.
  repeat case_decide; simplify_eq. simpl. lia.
Qed.

(** C5. Called for pairwise distinct names that have no record, starting
    with the cursor at [portIndex m], the i-th call returns a record on
    port [portIndex m + i] as long as that is within the range and the
    exhaustion error from then on; so the ports of any two successful calls
    are strictly increasing in call order (hence distinct), and one
    successful call returns the cursor and moves it by one. Once the cursor
    of a mux built by the constructor is past the range, whatever calls
    follow (initialisations, API servers, etcd members, hot restarts), a
    name without a record gets the exhaustion error and the mux stays as it
    is. *)
Theorem port_allocation (ann : string) :
  (∀ (m : WorkloadClustersMux) (names : list string),
     is_int (portIndex m) → maxPort m < int_max →
     NoDup names →
     (∀ n, n ∈ names → workloadClusterListeners m !! n = None) →
     (∀ (i : nat) (n : string), names !! i = Some n →
        (InitListeners m names).1 !! i
        = Some (if decide (portIndex m + Z.of_nat i ≤ maxPort m)
                then Ok (reserved (host m) (portIndex m + Z.of_nat i))
                else Err (ErrNoMoreFreePorts (minPort m) (maxPort m))))
     ∧ (∀ (i j : nat) wi wj, (i < j)%nat →
          (InitListeners m names).1 !! i = Some (Ok wi) →
          (InitListeners m names).1 !! j = Some (Ok wj) →
          wcl_port wi < wcl_port wj))
  ∧ (∀ (m : WorkloadClustersMux) (c : string),
       is_int (portIndex m) → maxPort m < int_max →
       workloadClusterListeners m !! c = None →
       portIndex m ≤ maxPort m →
       ∃ w m', InitWorkloadClusterListener m c = (Ok w, m')
               ∧ wcl_port w = portIndex m
               ∧ portIndex m' = portIndex m + 1)
  ∧ (∀ (h : string) (ops1 ops2 : list Op) (c : string),
       let m := run ann (NewWorkloadClustersMux h) ops1 in
       let m' := run ann m ops2 in
       portIndex m > maxPort m →
       workloadClusterListeners m' !! c = None →
       InitWorkloadClusterListener m' c
       = (Err (ErrNoMoreFreePorts (minPort m') (maxPort m')), m')).
Proof.
  split; [|split].
  - intros m names Hint Hmax Hnd Hfresh. split.
    + by apply InitListeners_fresh.
    + intros i j wi wj. by apply InitListeners_increasing.
  - intros m c Hint Hmax Hc Hp.
    rewrite (Init_fresh_ok _ _ Hc Hp). eexists _, _. split; [done|].
    split; [done|]. simpl. apply wrap_int_id.
    unfold is_int, int_min, int_max in *. lia.
  - intros h ops1 ops2 c. apply exhaustion_permanent.
Qed.

Lemma port_allocation_witness :
  let m := {| host := "127.0.0.1"; minPort := 20000; maxPort := 20001;
              portIndex := 20000;
              workloadClusterListeners := ∅; workloadClusterNameByHost := ∅ |} in
  let ops := [OpHotRestart [sample_cluster "a" sample_host 24000]] in
  let m1 := run sample_annotation (NewWorkloadClustersMux sample_host) ops in
  (InitListeners m ["a"; "b"; "c"]).1 !! 1%nat = Some (Ok (reserved "127.0.0.1" 20001))
  ∧ (InitListeners m ["a"; "b"; "c"]).1 !! 2%nat
    = Some (Err (ErrNoMoreFreePorts 20000 20001))
  ∧ portIndex m1 = 24001
  ∧ InitWorkloadClusterListener (run sample_annotation m1 []) "b"
    = (Err (ErrNoMoreFreePorts (minPort (run sample_annotation m1 []))
                               (maxPort (run sample_annotation m1 []))),
       run sample_annotation m1 []).
Proof.
  intros m ops m1.
  destruct (port_allocation sample_annotation) as (Hseq & _ & Hperm).
  assert (Hint : is_int (portIndex m)) by (split; by vm_compute).
  assert (Hmax : maxPort m < int_max) by (by vm_compute).
  assert (Hnd : NoDup ["a"; "b"; "c"]) by (by apply (bool_decide_unpack _); vm_compute).
  assert (Hfresh : ∀ n, n ∈ ["a"; "b"; "c"] → workloadClusterListeners m !! n = None)
    by (intros n _; apply lookup_empty).
  destruct (Hseq m ["a"; "b"; "c"] Hint Hmax Hnd Hfresh) as [Hi _].
  split; [|split; [|split]].
  - exact (Hi 1%nat "b" eq_refl).
  - exact (Hi 2%nat "c" eq_refl).
  - by vm_compute.
  - apply (Hperm sample_host ops [] "b").
    + by vm_compute.
    + by vm_compute.
Defined.

(** ** Sockets and API servers *)

Lemma singleton_union_nonempty (x : string) (X : gset string) : {[x]} ∪ X ≠ ∅.
Proof.
  intros He. apply (not_elem_of_empty (C:=gset string) x).
  rewrite <- He. apply elem_of_union_l. by apply elem_of_singleton.
Qed.

Lemma reserved_listener_iff (h : string) (p : Z) : listener_iff_apiServer (reserved h p).
Proof.
  unfold listener_iff_apiServer. simpl. split.
  - intros [? ?]. done.
  - intros H. done.
Qed.

Lemma run_listener_implies (ann : string) (ops : list Op) :
  ∀ m,
  (∀ k w, workloadClusterListeners m !! k = Some w → listener_implies_apiServer w) →
  ∀ k w, workloadClusterListeners (run ann m ops) !! k = Some w →
         listener_implies_apiServer w.
Proof.
  induction ops as [|op ops IH]; intros m Hinv; [done|].
  unfold run in *. simpl. apply IH. clear IH. intros k w' Hk.
  apply step_records in Hk
    as [Hk|[(p & ->)|[(w & pod & ca & key & env & -> & Hw & Hu)
                     |(w & pod & ca & key & env & -> & Hw & Hu)]]].
  - by eapply Hinv.
  - intros [? ?]. done.
  - destruct Hu as (_ & _ & Hs & _). intros _. rewrite Hs.
    apply singleton_union_nonempty.
  - destruct Hu as (_ & _ & Hs & _ & _ & _ & _ & _ & Hl & _).
    unfold listener_implies_apiServer. rewrite Hs, Hl. by eapply Hinv.
Qed.

Lemma run_listener_iff (ann : string) (ops : list Op) :
  ∀ m,
  (∀ k w, workloadClusterListeners m !! k = Some w → listener_iff_apiServer w) →
  apiServer_calls_succeed ann m ops →
  ∀ k w, workloadClusterListeners (run ann m ops) !! k = Some w →
         listener_iff_apiServer w.
Proof.
  induction ops as [|op ops IH]; intros m Hinv Hok; [done|].
  destruct Hok as [Hop Hok].
  unfold run in *. simpl. apply IH; [|done]. clear IH. intros k w' Hk.
  apply step_records in Hk
    as [Hk|[(p & ->)|[(w & pod & ca & key & env & -> & Hw & Hu)
                     |(w & pod & ca & key & env & -> & Hw & Hu)]]].
  - by eapply Hinv.
  - apply reserved_listener_iff.
  - destruct Hu as (_ & _ & Hs & _ & _ & _ & _ & _ & _ & _ & Hl & _).
    split.
    + intros _. rewrite Hs. apply singleton_union_nonempty.
    + intros _. apply Hl. by apply Hop.
  - destruct Hu as (_ & _ & Hs & _ & _ & _ & _ & _ & Hl & _).
    unfold listener_iff_apiServer. rewrite Hs, Hl. by eapply Hinv.
Qed.

(** C4, as the code has it. In every mux reached from the constructor by
    any calls, a record with a socket has an API server; and when no
    [AddAPIServer] call of the sequence returned an error, a record has a
    socket exactly when it has an API server. *)
Theorem listener_follows_apiServers (ann h : string) (ops : list Op) :
  let m := run ann (NewWorkloadClustersMux h) ops in
  (∀ k w, workloadClusterListeners m !! k = Some w →
          is_Some (listener w) → apiServers w ≠ ∅)
  ∧ (apiServer_calls_succeed ann (NewWorkloadClustersMux h) ops →
     ∀ k w, workloadClusterListeners m !! k = Some w →
            (is_Some (listener w) ↔ apiServers w ≠ ∅)).
Proof.
  split.
  - apply (run_listener_implies ann ops (NewWorkloadClustersMux h)).
    intros k w Hk. simpl in Hk. by rewrite lookup_empty in Hk.
  - intros Hok.
    apply (run_listener_iff ann ops (NewWorkloadClustersMux h)); [|done].
    intros k w Hk. simpl in Hk. by rewrite lookup_empty in Hk.
Qed.

Lemma lookup_field {A : Type} (f : WorkloadClusterListener → A)
    (m : WorkloadClustersMux) (k : string) (a : A) :
  f <$> workloadClusterListeners m !! k = Some a →
  ∃ w, workloadClusterListeners m !! k = Some w ∧ f w = a.
Proof. intros H. apply fmap_Some in H as (w & ? & ?). eauto. Qed.

(** C4 fails after an [AddAPIServer] call whose bind fails: the identity
    has been recorded and there is no socket. *)
Lemma listener_missing_after_failed_bind :
  let ops := [OpInitListener "c";
              OpAddAPIServer "c" "kube-apiserver-0"
                (Some (X509Cert "ca")) (Some (RSAKey "ca")) sample_env_bind_fails] in
  let m := run sample_annotation (NewWorkloadClustersMux sample_host) ops in
  ∃ w, workloadClusterListeners m !! "c" = Some w
       ∧ "kube-apiserver-0" ∈ apiServers w
       ∧ apiServers w ≠ ∅
       ∧ listener w = None.
Proof.
  intros ops m.
  assert (Hl : listener <$> workloadClusterListeners m !! "c" = Some None)
    by (by vm_compute).
  assert (Ha : HasAPIServer m "c" "kube-apiserver-0" = true) by (by vm_compute).
  apply lookup_field in Hl as (w & Hw & Hl).
  unfold HasAPIServer in Ha. rewrite Hw in Ha. apply bool_decide_eq_true in Ha.
  exists w. repeat split; try done.
  intros He. rewrite He in Ha. by apply not_elem_of_empty in Ha.
Qed.

Lemma listener_follows_apiServers_witness :
  let ops := [OpInitListener "c";
              OpAddAPIServer "c" "kube-apiserver-0"
                (Some (X509Cert "ca")) (Some (RSAKey "ca")) sample_env_ok] in
  let m := run sample_annotation (NewWorkloadClustersMux sample_host) ops in
  apiServer_calls_succeed sample_annotation (NewWorkloadClustersMux sample_host) ops
  ∧ ∃ w, workloadClusterListeners m !! "c" = Some w
         ∧ listener w = Some (TCPListener "127.0.0.1:20000")
         ∧ (is_Some (listener w) ↔ apiServers w ≠ ∅).
Proof.
  intros ops m.
  assert (Hok : apiServer_calls_succeed sample_annotation
                  (NewWorkloadClustersMux sample_host) ops).
  { split; [intros H; discriminate H|].
    split; [intros _; by vm_compute|done]. }
  split; [exact Hok|].
  assert (Hl : listener <$> workloadClusterListeners m !! "c"
               = Some (Some (TCPListener "127.0.0.1:20000"))) by (by vm_compute).
  apply lookup_field in Hl as (w & Hw & Hl).
  exists w. split; [done|]. split; [done|].
  exact (proj2 (listener_follows_apiServers sample_annotation sample_host ops)
           Hok "c" w Hw).
Defined.

(** On a socket the mux serves from, the resolver has a certificate for the
    API server: in every mux reached from the constructor a record with a
    socket has its serving certificate. *)
Lemma run_listener_certificate (ann : string) (ops : list Op) :
  ∀ m,
  (∀ k w, workloadClusterListeners m !! k = Some w → listener_implies_certificate w) →
  ∀ k w, workloadClusterListeners (run ann m ops) !! k = Some w →
         listener_implies_certificate w.
Proof.
  induction ops as [|op ops IH]; intros m Hinv; [done|].
  unfold run in *. simpl. apply IH. clear IH. intros k w' Hk.
  apply step_records in Hk
    as [Hk|[(p & ->)|[(w & pod & ca & key & env & -> & Hw & Hu)
                     |(w & pod & ca & key & env & -> & Hw & Hu)]]].
  - by eapply Hinv.
  - intros [? ?]. done.
  - destruct Hu as (_ & _ & _ & _ & _ & _ & _ & Hsc & _ & Hl & _ & Hnew).
    intros Hsome. destruct (listener w) as [l|] eqn:Hlw.
    + rewrite Hsc; by apply (Hinv k w Hw); rewrite Hlw.
    + by apply Hnew.
  - destruct Hu as (_ & _ & _ & _ & _ & Hsc & _ & _ & Hl & _).
    unfold listener_implies_certificate. rewrite Hsc, Hl. by eapply Hinv.
Qed.

Lemma listener_has_certificate (ann h : string) (ops : list Op)
    (k : string) (w : WorkloadClusterListener) :
  workloadClusterListeners (run ann (NewWorkloadClustersMux h) ops) !! k = Some w →
  is_Some (listener w) → is_Some (apiServerServingCertificate w).
Proof.
  apply (run_listener_certificate ann ops (NewWorkloadClustersMux h)).
  intros k' w' Hk. simpl in Hk. by rewrite lookup_empty in Hk.
Qed.

(** ** Certificates *)

(** [AddAPIServer] stores the authority it is given, whatever was stored. *)
Lemma AddAPIServer_sets_ca (m : WorkloadClustersMux) (wclName podName : string)
    caCert caKey env (w : WorkloadClusterListener) :
  workloadClusterListeners m !! wclName = Some w →
  ∃ w', workloadClusterListeners (AddAPIServer m wclName podName caCert caKey env).2
          !! wclName = Some w'
        ∧ apiServerCaCertificate w' = caCert
        ∧ apiServerCaKey w' = caKey.
Proof.
  intros Hw.
  destruct (AddAPIServer_found m wclName podName caCert caKey env w Hw)
    as (e & w' & -> & Hu).
  exists w'. simpl. rewrite lookup_insert_eq.
  destruct Hu as (_ & _ & _ & ? & ? & _). done.
Qed.

(** The serving certificate, the admin certificate with its key and the
    etcd members' serving certificates of a record, once there, stay as
    they are through every call. *)
Lemma minted_certificates_stable (ann : string) (ops : list Op) :
  ∀ (m : WorkloadClustersMux) (k : string) (w : WorkloadClusterListener),
  workloadClusterListeners m !! k = Some w →
  ∃ w', workloadClusterListeners (run ann m ops) !! k = Some w'
        ∧ minted_certificates_kept w w'.
Proof.
  induction ops as [|op ops IH]; intros m k w Hk.
  - exists w. split; [done|]. by repeat split.
  - destruct (step_records_forward ann m op k w Hk) as (w1 & Hk1 & Hu).
    destruct (IH _ _ _ Hk1) as (w' & Hk' & (Hs' & Ha' & He')).
    exists w'. split; [done|].
    assert (Hkept : minted_certificates_kept w w1).
    { destruct Hu as [->|[(pod & ca & key & env & _ & Hu)|(pod & ca & key & env & _ & Hu)]].
      - by repeat split.
      - destruct Hu as (_ & _ & _ & _ & _ & _ & Hec & Hsc & Hac & _).
        split; [done|]. split; [done|]. intros p c. by rewrite Hec.
      - destruct Hu as (_ & _ & _ & _ & _ & Hsc & Hac & Hak & _ & _ & Hec).
        split; [by intros _|]. split; [by intros _|]. done. }
    destruct Hkept as (Hs & Ha & He).
    split; [|split].
    + intros Hsome. rewrite Hs' by (by rewrite Hs). by apply Hs.
    + intros Hsome. destruct (Ha Hsome) as [Hc1 Hk1'].
      destruct Ha' as [Hc2 Hk2]; [by rewrite Hc1|]. by rewrite Hc2, Hk2.
    + intros p c Hp. by apply He', He.
Qed.

(** C7 at a second [AddAPIServer] call with another authority: both calls
    succeed, and the authority stored by the first is replaced by that of
    the second. *)
Theorem AddAPIServer_replaces_ca :
  let m1 := run sample_annotation (NewWorkloadClustersMux sample_host)
              [OpInitListener "c";
               OpAddAPIServer "c" "kube-apiserver-0"
                 (Some (X509Cert "ca-1")) (Some (RSAKey "ca-1")) sample_env_ok] in
  let r := AddAPIServer m1 "c" "kube-apiserver-1"
             (Some (X509Cert "ca-2")) (Some (RSAKey "ca-2")) sample_env_ok in
  apiServerCaCertificate <$> workloadClusterListeners m1 !! "c"
    = Some (Some (X509Cert "ca-1"))
  ∧ apiServerCaKey <$> workloadClusterListeners m1 !! "c"
    = Some (Some (RSAKey "ca-1"))
  ∧ r.1 = None
  ∧ apiServerCaCertificate <$> workloadClusterListeners r.2 !! "c"
    = Some (Some (X509Cert "ca-2"))
  ∧ apiServerCaKey <$> workloadClusterListeners r.2 !! "c"
    = Some (Some (RSAKey "ca-2")).
Proof. intros m1 r. repeat split; by vm_compute. Qed.

(** ** Hot restart: clusters without a host *)

Lemma wrap_int_pred_succ (z : Z) : wrap_int (wrap_int (z - 1) + 1) = wrap_int z.
Proof.
  unfold wrap_int. f_equal.
  replace ((z - 1 + 2 ^ 63) `mod` 2 ^ 64 - 2 ^ 63 + 1 + 2 ^ 63)
    with ((z - 1 + 2 ^ 63) `mod` 2 ^ 64 + 1) by lia.
  rewrite Zplus_mod_idemp_l. f_equal. lia.
Qed.

Lemma HotRestart_loop_filter (ann : string) (items : list InMemoryCluster) :
  ∀ m ports mp,
  HotRestart_loop ann m ports mp items
  = HotRestart_loop ann m ports mp (filter (λ c, cpHost c ≠ "") items).
Proof.
  induction items as [|c items IH]; intros m ports mp; [done|].
  destruct (decide (cpHost c = "")) as [Hc|Hc].
  - rewrite filter_cons_False by (intros H; by apply H).
    rewrite <- IH. simpl. by destruct (decide (cpHost c = "")).
  - rewrite filter_cons_True by done.
    simpl. destruct (decide (cpHost c = "")); [done|].
    repeat case_decide; try done.
    + destruct (Annotations c !! ann); [apply IH|done].
    + destruct (Annotations c !! ann); [apply IH|done].
Qed.

Lemma HotRestart_loop_skip (ann : string) (m : WorkloadClustersMux) (ports : gset Z)
    (mp : Z) (pre post : list InMemoryCluster) (c : InMemoryCluster) :
  cpHost c = "" →
  HotRestart_loop ann m ports mp (pre ++ c :: post)
  = HotRestart_loop ann m ports mp (pre ++ post).
Proof.
  intros Hc.
  rewrite (HotRestart_loop_filter ann (pre ++ c :: post)).
  rewrite (HotRestart_loop_filter ann (pre ++ post)).
  rewrite !filter_app.
  by rewrite filter_cons_False by (intros H; by apply H).
Qed.

Lemma filter_hosts_all_empty (items : list InMemoryCluster) :
  Forall (λ d, cpHost d = "") items →
  filter (λ c, cpHost c ≠ "") items = [].
Proof.
  induction 1 as [|d items Hd _ IH]; [done|].
  by rewrite filter_cons_False by (intros H; by apply H).
Qed.

(** C10. A listed cluster with an empty host is passed over by the loop:
    with or without it the loop ends with the same error or none, the same
    records and reverse index, and the same local maximum, wherever it is in
    the list, whatever its port and annotations, and alone it never makes
    the loop fail. For the call: as long as another cluster is listed,
    [HotRestart] returns the same error or none and the same mux with or
    without it; in every case the records and the reverse index after the
    call are the same with or without it; a call that fails either fails in
    the same way without it or fails because the mux already had records.
    The entry still counts for the test on the length of the list that
    precedes the loop: when no listed cluster has a host, the call returns
    the already-initialised error on a mux that has records, and on a mux
    without records it returns no error and puts the cursor at the start of
    the range. *)
Theorem HotRestart_skips_empty_host (ann : string) (m : WorkloadClustersMux)
    (pre post : list InMemoryCluster) (c : InMemoryCluster) :
  cpHost c = "" →
  (∀ ports mp,
     HotRestart_loop ann m ports mp (pre ++ c :: post)
     = HotRestart_loop ann m ports mp (pre ++ post))
  ∧ (∀ ports mp, HotRestart_loop ann m ports mp [c] = (None, m, mp))
  ∧ ((pre ++ post)%list ≠ [] →
     HotRestart ann m (pre ++ c :: post) = HotRestart ann m (pre ++ post))
  ∧ (workloadClusterListeners (HotRestart ann m (pre ++ c :: post)).2
     = workloadClusterListeners (HotRestart ann m (pre ++ post)).2
     ∧ workloadClusterNameByHost (HotRestart ann m (pre ++ c :: post)).2
       = workloadClusterNameByHost (HotRestart ann m (pre ++ post)).2)
  ∧ (∀ e m', HotRestart ann m (pre ++ c :: post) = (Some e, m') →
       HotRestart ann m (pre ++ post) = (Some e, m')
       ∨ (e = ErrAlreadyInitialized ∧ m' = m ∧ workloadClusterListeners m ≠ ∅))
  ∧ (Forall (λ d, cpHost d = "") (pre ++ post) →
     HotRestart ann m (pre ++ c :: post)
     = (if decide (workloadClusterListeners m = ∅)
        then (None, set_portIndex (wrap_int (minPort m)) m)
        else (Some ErrAlreadyInitialized, m))).
Proof.
  intros Hc.
  assert (Hone : ∀ ports mp, HotRestart_loop ann m ports mp [c] = (None, m, mp)).
  { intros ports mp. simpl. by destruct (decide (cpHost c = "")). }
  assert (Hcall : (pre ++ post)%list ≠ [] →
                  HotRestart ann m (pre ++ c :: post) = HotRestart ann m (pre ++ post)).
  { intros Hne. unfold HotRestart.
    destruct (decide (length (pre ++ c :: post) = 0%nat)) as [Hl|_].
    { rewrite length_app in Hl. simpl in Hl. lia. }
    destruct (decide (length (pre ++ post) = 0%nat)) as [Hl|_].
    { by apply length_zero_iff_nil in Hl. }
    by rewrite HotRestart_loop_skip. }
  split; [|split; [|split; [|split; [|split]]]].
  - intros ports mp. by apply HotRestart_loop_skip.
  - exact Hone.
  - exact Hcall.
  - destruct (decide ((pre ++ post)%list = [])) as [Hnil|Hne];
      [|by rewrite Hcall].
    apply app_eq_nil in Hnil as [-> ->]. cbn [app].
    unfold HotRestart.
    destruct (decide (length [c] = 0%nat)) as [Hl|_]; [done|].
    destruct (decide (length (@nil InMemoryCluster) = 0%nat)) as [_|Hl]; [|done].
    destruct (decide (0 < size (workloadClusterListeners m))%nat); [done|].
    by rewrite Hone.
  - intros e m' H.
    destruct (decide ((pre ++ post)%list = [])) as [Hnil|Hne];
      [|left; by rewrite <- Hcall].
    right. apply app_eq_nil in Hnil as [-> ->]. cbn [app] in H.
    unfold HotRestart in H.
    destruct (decide (length [c] = 0%nat)) as [Hl|_]; [done|].
    destruct (decide (0 < size (workloadClusterListeners m))%nat) as [Hs|_].
    + apply nonempty_size in Hs. by simplify_eq.
    + by rewrite Hone in H.
  - intros Hall. unfold HotRestart.
    destruct (decide (length (pre ++ c :: post) = 0%nat)) as [Hl|_].
    { rewrite length_app in Hl. simpl in Hl. lia. }
    destruct (decide (0 < size (workloadClusterListeners m))%nat) as [Hs|Hs].
    + apply nonempty_size in Hs. by rewrite decide_False.
    + rewrite decide_True by (apply map_size_empty_iff; lia).
      rewrite HotRestart_loop_skip by done.
      rewrite HotRestart_loop_filter, (filter_hosts_all_empty _ Hall). simpl.
      by rewrite wrap_int_pred_succ.
Qed.

(** On a mux that has a record, a list that holds one cluster without a
    host makes [HotRestart] fail where the empty list does not. *)
Lemma HotRestart_empty_host_alone_fails :
  let m := run sample_annotation (NewWorkloadClustersMux sample_host)
             [OpInitListener "a"] in
  let c := sample_cluster "c" "" 23000 in
  cpHost c = ""
  ∧ HotRestart sample_annotation m [] = (None, m)
  ∧ HotRestart sample_annotation m [c] = (Some ErrAlreadyInitialized, m).
Proof. intros m c. repeat split; by vm_compute. Qed.

Lemma HotRestart_skips_empty_host_witness :
  let m := NewWorkloadClustersMux sample_host in
  let a := sample_cluster "a" sample_host 20005 in
  let b := sample_cluster "b" sample_host 20010 in
  let c := sample_cluster "c" "" 23000 in
  cpHost c = ""
  ∧ HotRestart sample_annotation m [a; c; b] = HotRestart sample_annotation m [a; b]
  ∧ portIndex (HotRestart sample_annotation m [a; c; b]).2 = 20011
  ∧ workloadClusterListeners (HotRestart sample_annotation m [a; c; b]).2 !! "c" = None.
Proof.
  intros m a b c. split; [done|].
  split; [|split; by vm_compute].
  apply (proj1 (proj2 (proj2
           (HotRestart_skips_empty_host sample_annotation m [a] [b] c eq_refl)))).
  discriminate.
Defined.

(** ** Hot restart: failure *)

(** When the loop fails, it does so at a listed cluster with a host, and
    leaves the mux as the clusters listed before that one made it. *)
Lemma HotRestart_loop_error (ann : string) (items : list InMemoryCluster) :
  ∀ m ports mp e m' mp',
  HotRestart_loop ann m ports mp items = (Some e, m', mp') →
  ∃ done c rest,
    items = (done ++ c :: rest)%list
    ∧ HotRestart_loop ann m ports mp done = (None, m', mp')
    ∧ cpHost c ≠ ""
    ∧ (e = ErrHostChanged (cpHost c) (host m) ∧ cpHost c ≠ host m
       ∨ e = ErrDuplicatePort (cpPort c) ∧ cpPort c ∈ ports
       ∨ e = ErrMissingAnnotation (Namespace c) (Name c) ann
         ∧ Annotations c !! ann = None).
Proof.
  induction items as [|c items IH]; intros m ports mp e m' mp' H.
  - simpl in H. by simplify_eq.
  - loop_cases ann m ports mp c items H.
    + destruct (IH _ _ _ _ _ _ H) as (dn & c' & rest & -> & Hd & Hc' & He).
      exists (c :: dn), c', rest. split; [done|]. split; [|done].
      simpl. by destruct (decide (cpHost c = "")).
    + simplify_eq. exists [], c, items. repeat split; try done. by left.
    + simplify_eq. exists [], c, items. repeat split; try done. right. by left.
    + simplify_eq. exists [], c, items. repeat split; try done. right. by right.
    + destruct (IH _ _ _ _ _ _ H) as (dn & c' & rest & -> & Hd & Hc' & He).
      exists (c :: dn), c', rest. split; [done|]. split; [|done].
      by rewrite (HotRestart_loop_register ann m ports mp c dn rg).
Qed.

(** After a loop that ends without error every listed cluster with a host
    has a record under its resource group name. *)
Lemma HotRestart_loop_registered (ann : string) (items : list InMemoryCluster) :
  ∀ m ports mp m' mp',
  HotRestart_loop ann m ports mp items = (None, m', mp') →
  ∀ d, d ∈ items → cpHost d ≠ "" →
  ∃ rg, Annotations d !! ann = Some rg
        ∧ is_Some (workloadClusterListeners m' !! rg).
Proof.
  induction items as [|c items IH]; intros m ports mp m' mp' H d Hd Hh.
  - by apply elem_of_nil in Hd.
  - loop_cases ann m ports mp c items H; try done.
    + apply elem_of_cons in Hd as [->|Hd]; [done|]. by eapply IH.
    + apply elem_of_cons in Hd as [->|Hd]; [|by eapply IH].
      exists rg. split; [done|].
      eapply HotRestart_loop_keeps_keys; [exact H|].
      simpl. rewrite lookup_insert_eq. eauto.
Qed.

(** C2, as the code has it. When [HotRestart] returns an error the host,
    the port range and the port cursor are as before. When the mux already
    had a record, the error says so and the whole mux is as before. When it
    had none, the call failed at a listed cluster with a host, and the mux
    is what the loop made of the clusters listed before that one: their
    records and reverse index entries stay. It is the mux as before when
    all of those have an empty host, and otherwise holds a record for each
    of those that has a host, and no other record. *)
Theorem HotRestart_failure (ann : string) (m : WorkloadClustersMux)
    (clusters : list InMemoryCluster) (e : error) (m' : WorkloadClustersMux) :
  HotRestart ann m clusters = (Some e, m') →
  host m' = host m ∧ minPort m' = minPort m ∧ maxPort m' = maxPort m
  ∧ portIndex m' = portIndex m
  ∧ (workloadClusterListeners m ≠ ∅ → e = ErrAlreadyInitialized ∧ m' = m)
  ∧ (workloadClusterListeners m = ∅ →
     ∃ done c rest mp,
       clusters = (done ++ c :: rest)%list
       ∧ cpHost c ≠ ""
       ∧ HotRestart_loop ann m ∅ (wrap_int (minPort m - 1)) done = (None, m', mp)
       ∧ (∀ d, d ∈ done → cpHost d ≠ "" →
            ∃ rg, Annotations d !! ann = Some rg
                  ∧ is_Some (workloadClusterListeners m' !! rg))
       ∧ (∀ k w, workloadClusterListeners m' !! k = Some w →
            ∃ d, d ∈ done ∧ w = reserved (host m) (cpPort d))
       ∧ (Forall (λ d, cpHost d = "") done → m' = m)).
Proof.
  intros H.
  destruct (decide (workloadClusterListeners m = ∅)) as [Hm|Hm].
  - unfold HotRestart in H.
    destruct (decide (length clusters = 0%nat)); [by simplify_eq|].
    destruct (decide (0 < size (workloadClusterListeners m))%nat) as [Hs|_].
    { apply nonempty_size in Hs. done. }
    destruct (HotRestart_loop _ _ _ _ _) as [[e0 m0] mp0] eqn:Hl.
    destruct e0 as [e0|]; [|by simplify_eq]. simplify_eq.
    pose proof (HotRestart_loop_frame _ _ _ _ _ _ _ _ Hl) as (? & ? & ? & ?).
    do 4 (split; [done|]). split; [intros Hne; by destruct Hne|]. intros _.
    destruct (HotRestart_loop_error _ _ _ _ _ _ _ _ Hl)
      as (dn & c & rest & -> & Hd & Hc & He).
    exists dn, c, rest, mp0. do 3 (split; [done|]).
    split; [by apply (HotRestart_loop_registered _ _ _ _ _ _ _ Hd)|].
    split.
    { intros k w Hk.
      destruct (HotRestart_loop_records _ _ _ _ _ _ _ _ Hd k w Hk) as [Hold|?]; [|done].
      by rewrite Hm, lookup_empty in Hold. }
    intros Hall. rewrite HotRestart_loop_filter in Hd.
    rewrite (filter_hosts_all_empty _ Hall) in Hd. simpl in Hd. by simplify_eq.
  - rewrite (HotRestart_initialized ann m clusters Hm) in H.
    destruct (decide (length clusters = 0%nat)); simplify_eq.
    do 4 (split; [done|]). split; [done|]. intros He. done.
Qed.

(** C2 fails when a listed cluster passes the checks and a later one does
    not: the call returns an error and the record and reverse index entry
    of the first stay in the mux. *)
Lemma HotRestart_partial_mutation :
  let m := NewWorkloadClustersMux sample_host in
  let clusters := [sample_cluster "a" sample_host 20005;
                   sample_cluster "x" "10.0.0.1" 20006] in
  let r := HotRestart sample_annotation m clusters in
  r.1 = Some (ErrHostChanged "10.0.0.1" "127.0.0.1")
  ∧ workloadClusterListeners m !! "a" = None
  ∧ workloadClusterListeners r.2 !! "a" = Some (reserved "127.0.0.1" 20005)
  ∧ workloadClusterNameByHost r.2 !! "127.0.0.1:20005" = Some "a"
  ∧ r.2 ≠ m.
Proof.
  intros m clusters r.
  assert (Ha : workloadClusterListeners r.2 !! "a" = Some (reserved "127.0.0.1" 20005))
    by (by vm_compute).
  do 4 (split; [by vm_compute|]).
  intros Heq. rewrite Heq in Ha. simpl in Ha. by rewrite lookup_empty in Ha.
Qed.

Lemma HotRestart_failure_witness :
  let m := NewWorkloadClustersMux sample_host in
  let clusters := [sample_cluster "a" sample_host 20005;
                   sample_cluster "x" "10.0.0.1" 20006] in
  let r := HotRestart sample_annotation m clusters in
  r.1 = Some (ErrHostChanged "10.0.0.1" "127.0.0.1")
  ∧ portIndex r.2 = portIndex m.
Proof.
  intros m clusters r.
  assert (Hr : r = (Some (ErrHostChanged "10.0.0.1" "127.0.0.1"), r.2)).
  { rewrite (surjective_pairing r) at 1. by f_equal. }
  split; [by rewrite Hr|].
  exact (proj1 (proj2 (proj2 (proj2
           (HotRestart_failure sample_annotation m clusters _ _ Hr))))).
Defined.

(** ** Hot restart: success *)

Lemma resourceGroups_cons (ann : string) (c : InMemoryCluster)
    (items : list InMemoryCluster) (rg : string) :
  Annotations c !! ann = Some rg →
  resourceGroups ann (c :: items) = rg :: resourceGroups ann items.
Proof. intros H. unfold resourceGroups. simpl. by rewrite H. Qed.

(** What a loop that ends without error over clusters that all have a
    host has done. *)
Lemma HotRestart_loop_success (ann : string) (items : list InMemoryCluster) :
  ∀ m ports mp m' mp',
  HotRestart_loop ann m ports mp items = (None, m', mp') →
  (∀ c, c ∈ items → cpHost c ≠ "") →
  NoDup (resourceGroups ann items) →
  (∀ c, c ∈ items →
     ∃ rg, Annotations c !! ann = Some rg
           ∧ workloadClusterListeners m' !! rg
             = Some (reserved (host m) (cpPort c)))
  ∧ (∀ k, k ∉ resourceGroups ann items →
          workloadClusterListeners m' !! k = workloadClusterListeners m !! k)
  ∧ mp ≤ mp'
  ∧ (∀ c, c ∈ items → cpPort c ≤ mp')
  ∧ (mp' = mp ∨ ∃ c, c ∈ items ∧ mp' = cpPort c).
Proof.
  induction items as [|c items IH]; intros m ports mp m' mp' H Hh Hnd.
  - simpl in H. simplify_eq. split; [intros c Hc; by apply elem_of_nil in Hc|].
    split; [done|]. split; [lia|]. split; [|by left].
    intros c Hc. by apply elem_of_nil in Hc.
  - loop_cases ann m ports mp c items H; try done.
    + exfalso. apply (Hh c); [left|done].
    + rewrite (resourceGroups_cons ann c items rg) in Hnd by done.
      apply NoDup_cons in Hnd as [Hrg Hnd].
      destruct (IH _ _ _ _ _ H (λ c' Hc', Hh c' (list_elem_of_further _ _ _ Hc')) Hnd)
        as (Hrec & Hother & Hle & Hports & Hmax).
      split; [|split; [|split; [|split]]].
      * intros c' Hc'. apply elem_of_cons in Hc' as [->|Hc'].
        -- exists rg. split; [done|]. rewrite (Hother rg Hrg). simpl.
           apply lookup_insert_eq.
        -- apply Hrec in Hc'. done.
      * intros k Hk. rewrite (resourceGroups_cons ann c items rg) in Hk by done.
        apply not_elem_of_cons in Hk as [Hne Hk].
        rewrite (Hother k Hk). simpl. by rewrite lookup_insert_ne.
      * lia.
      * intros c' Hc'. apply elem_of_cons in Hc' as [->|Hc']; [lia|by apply Hports].
      * destruct Hmax as [->|(c' & Hc' & ->)].
        -- destruct (Z.max_spec mp (cpPort c)) as [[_ ->]|[_ ->]].
           ++ right. exists c. split; [left|done].
           ++ by left.
        -- right. exists c'. split; [by right|done].
Qed.

(** C9, as the code has it. Take a mux without records and with a
    non-empty host, and a non-empty list of clusters, all bound to that
    host, with pairwise distinct resource group names and ports inside the
    port range. If [HotRestart] returns no error then: each listed cluster
    has, under its resource group name, a record on its port with no
    identity and no socket, and [InitWorkloadClusterListener] for that name
    returns this record and changes nothing; the cursor is one past the
    largest listed port; and for a name without a record
    [InitWorkloadClusterListener] returns a record on the cursor's port when
    the cursor is inside the range, and the exhaustion error, changing
    nothing, when it is past it. *)
Theorem HotRestart_restores (ann : string) (m : WorkloadClustersMux)
    (clusters : list InMemoryCluster) (m' : WorkloadClustersMux) :
  workloadClusterListeners m = ∅ →
  clusters ≠ [] →
  host m ≠ "" →
  (∀ c, c ∈ clusters → cpHost c = host m) →
  NoDup (resourceGroups ann clusters) →
  int_min < minPort m → maxPort m < int_max →
  (∀ c, c ∈ clusters → minPort m ≤ cpPort c ≤ maxPort m) →
  HotRestart ann m clusters = (None, m') →
  (∀ c, c ∈ clusters →
     ∃ rg, Annotations c !! ann = Some rg
           ∧ workloadClusterListeners m' !! rg = Some (reserved (host m) (cpPort c))
           ∧ InitWorkloadClusterListener m' rg
             = (Ok (reserved (host m) (cpPort c)), m'))
  ∧ (∃ c, c ∈ clusters ∧ portIndex m' = cpPort c + 1)
  ∧ (∀ c, c ∈ clusters → cpPort c < portIndex m')
  ∧ (∀ name, workloadClusterListeners m' !! name = None →
       portIndex m' ≤ maxPort m →
       ∃ w m'', InitWorkloadClusterListener m' name = (Ok w, m'')
                ∧ wcl_port w = portIndex m')
  ∧ (∀ name, workloadClusterListeners m' !! name = None →
       portIndex m' > maxPort m →
       InitWorkloadClusterListener m' name
       = (Err (ErrNoMoreFreePorts (minPort m) (maxPort m)), m')).
Proof.
  intros Hm Hne Hhost Hhosts Hnd Hlo Hhi Hports H.
  unfold HotRestart in H.
  destruct (decide (length clusters = 0%nat)) as [Hl|_].
  { by apply length_zero_iff_nil in Hl. }
  destruct (decide (0 < size (workloadClusterListeners m))%nat) as [Hs|_].
  { by apply nonempty_size in Hs. }
  destruct (HotRestart_loop _ _ _ _ _) as [[e0 m0] mp0] eqn:Hloop.
  destruct e0 as [e0|]; [done|]. simplify_eq.
  pose proof (HotRestart_loop_frame _ _ _ _ _ _ _ _ Hloop) as (Hh0 & Hmin0 & Hmax0 & _).
  destruct (HotRestart_loop_success ann clusters _ _ _ _ _ Hloop)
    as (Hrec & _ & Hle & Hbelow & Hmax); [|done|].
  { intros c Hc. by rewrite (Hhosts c Hc). }
  assert (Hports_int : ∀ c, c ∈ clusters → minPort m ≤ cpPort c).
  { intros c Hc. by apply Hports. }
  rewrite wrap_int_id in Hle, Hmax
    by (unfold is_int, int_min, int_max in *;
        destruct clusters as [|c0 cs]; [done|];
        pose proof (Hports c0 (list_elem_of_here _ _)); lia).
  assert (Hmp : ∃ c, c ∈ clusters ∧ mp0 = cpPort c).
  { destruct Hmax as [->|?]; [|done].
    destruct clusters as [|c0 cs]; [done|].
    pose proof (Hbelow c0 (list_elem_of_here _ _)).
    pose proof (Hports c0 (list_elem_of_here _ _)). lia. }
  destruct Hmp as (cmax & Hcmax & ->).
  assert (Hw : wrap_int (cpPort cmax + 1) = cpPort cmax + 1).
  { apply wrap_int_id. pose proof (Hports cmax Hcmax).
    unfold is_int, int_min, int_max in *. lia. }
  simpl. rewrite Hw.
  split; [|split; [|split; [|split]]].
  - intros c Hc. destruct (Hrec c Hc) as (rg & Ha & Hr).
    exists rg. split; [done|]. split; [done|]. by apply Init_existing.
  - by exists cmax.
  - intros c Hc. pose proof (Hbelow c Hc). lia.
  - intros name Hn Hp.
    eexists _, _. split; [apply Init_fresh_ok|].
    + done.
    + simpl. lia.
    + done.
  - intros name Hn Hp.
    rewrite Init_fresh_exhausted; simpl; [|done|lia].
    by rewrite Hmin0, Hmax0.
Qed.

(** C9 fails when the largest restored port is the last of the range (the
    next fresh name gets the exhaustion error, not that port plus one),
    when two listed clusters have one resource group name (one record, on
    the port of the later one), and when the restored ports are below the
    range (the cursor is the start of the range). *)
Lemma HotRestart_restore_limits :
  let m := NewWorkloadClustersMux sample_host in
  (let r := HotRestart sample_annotation m [sample_cluster "a" sample_host 24000] in
   r.1 = None
   ∧ workloadClusterListeners r.2 !! "c" = None
   ∧ (InitWorkloadClusterListener r.2 "c").1 = Err (ErrNoMoreFreePorts 20000 24000))
  ∧ (let r := HotRestart sample_annotation m
                [sample_cluster "a" sample_host 20005;
                 sample_cluster "a" sample_host 20010] in
     r.1 = None
     ∧ wcl_port <$> workloadClusterListeners r.2 !! "a" = Some 20010)
  ∧ (let r := HotRestart sample_annotation m [sample_cluster "a" sample_host 100] in
     r.1 = None ∧ portIndex r.2 = 20000).
Proof. intros m. repeat split; by vm_compute. Qed.

Lemma HotRestart_restores_witness :
  let m := NewWorkloadClustersMux sample_host in
  let clusters := [sample_cluster "a" sample_host 20005;
                   sample_cluster "b" sample_host 20010] in
  let m' := (HotRestart sample_annotation m clusters).2 in
  HotRestart sample_annotation m clusters = (None, m')
  ∧ InitWorkloadClusterListener m' "a" = (Ok (reserved sample_host 20005), m')
  ∧ InitWorkloadClusterListener m' "b" = (Ok (reserved sample_host 20010), m')
  ∧ ∃ w m'', InitWorkloadClusterListener m' "c" = (Ok w, m'') ∧ wcl_port w = 20011.
Proof.
  intros m clusters m'.
  assert (Hr : HotRestart sample_annotation m clusters = (None, m')).
  { unfold m'. rewrite (surjective_pairing (HotRestart _ _ _)) at 1. by f_equal. }
  assert (Hin : ∀ c, c ∈ clusters →
                     c = sample_cluster "a" sample_host 20005
                     ∨ c = sample_cluster "b" sample_host 20010).
  { intros c Hc. apply elem_of_cons in Hc as [->|Hc]; [by left|].
    apply list_elem_of_singleton in Hc. by right. }
  destruct (HotRestart_restores sample_annotation m clusters m')
    as (Hrec & _ & _ & Hfresh & _).
  - done.
  - done.
  - done.
  - intros c Hc. by destruct (Hin c Hc) as [->| ->].
  - by apply (bool_decide_unpack _); vm_compute.
  - by vm_compute.
  - by vm_compute.
  - intros c Hc. destruct (Hin c Hc) as [->| ->]; split; by vm_compute.
  - exact Hr.
  - split; [exact Hr|].
    destruct (Hrec (sample_cluster "a" sample_host 20005)) as (rga & Ha & _ & Hia);
      [left|].
    destruct (Hrec (sample_cluster "b" sample_host 20010)) as (rgb & Hb & _ & Hib);
      [right; left|].
    assert (rga = "a") as -> by (vm_compute in Ha; congruence).
    assert (rgb = "b") as -> by (vm_compute in Hb; congruence).
    split; [exact Hia|]. split; [exact Hib|].
    destruct (Hfresh "c") as (w & m'' & Hi & Hp).
    + by vm_compute.
    + by vm_compute.
    + exists w, m''. split; [done|]. rewrite Hp. by vm_compute.
Defined.

(** ** Hot restart: two clusters on one port *)

(** The set [ports] the loop tests is never added to, so the test for a
    port used twice never fires: such a list is restored without error, one
    record per cluster, and the reverse index entry of the shared address
    names the cluster listed last. *)
Example HotRestart_same_port_twice :
  let r := HotRestart sample_annotation (NewWorkloadClustersMux sample_host)
             [sample_cluster "a" sample_host 20005;
              sample_cluster "b" sample_host 20005] in
  r.1 = None
  ∧ wcl_port <$> workloadClusterListeners r.2 !! "a" = Some 20005
  ∧ wcl_port <$> workloadClusterListeners r.2 !! "b" = Some 20005
  ∧ workloadClusterNameByHost r.2 !! "127.0.0.1:20005" = Some "b".
Proof. intros r. repeat split; by vm_compute. Qed.

(** * Further properties of the mux *)

(** ** Membership queries *)

(** X1. After [AddAPIServer] the query [HasAPIServer] for the same names
    answers true exactly when the listener had been initialised, whether or
    not the call returned an error; likewise [HasEtcdMember] after
    [AddEtcdMember]. *)
Theorem membership_after_add (m : WorkloadClustersMux) (wclName podName : string)
    caCert caKey (env : APIServerEnv) (env' : EtcdMemberEnv) :
  HasAPIServer (AddAPIServer m wclName podName caCert caKey env).2 wclName podName
  = bool_decide (is_Some (workloadClusterListeners m !! wclName))
  ∧ HasEtcdMember (AddEtcdMember m wclName podName caCert caKey env').2 wclName podName
    = bool_decide (is_Some (workloadClusterListeners m !! wclName)).
Proof.
  destruct (workloadClusterListeners m !! wclName) as [w|] eqn:Hw.
  - rewrite (bool_decide_eq_true_2 _ (mk_is_Some _ _ eq_refl)). split.
    + destruct (AddAPIServer_found m wclName podName caCert caKey env w Hw)
        as (e & w' & -> & Hu).
      unfold HasAPIServer. simpl. rewrite lookup_insert_eq.
      apply bool_decide_eq_true. destruct Hu as (_ & _ & -> & _).
      apply elem_of_union_l. by apply elem_of_singleton.
    + destruct (AddEtcdMember_found m wclName podName caCert caKey env' w Hw)
        as (e & w' & -> & Hu).
      unfold HasEtcdMember. simpl. rewrite lookup_insert_eq.
      apply bool_decide_eq_true.
      destruct Hu as (_ & _ & _ & _ & _ & _ & _ & _ & _ & -> & _).
      apply elem_of_union_l. by apply elem_of_singleton.
  - rewrite bool_decide_eq_false_2 by (by intros [? ?]).
    rewrite AddAPIServer_missing, AddEtcdMember_missing by done.
    unfold HasAPIServer, HasEtcdMember. simpl. by rewrite Hw.
Qed.

Lemma step_keeps_identities (ann : string) (m : WorkloadClustersMux) (op : Op)
    (k : string) (w : WorkloadClusterListener) :
  workloadClusterListeners m !! k = Some w →
  ∃ w', workloadClusterListeners (step ann m op) !! k = Some w'
        ∧ wcl_host w' = wcl_host w ∧ wcl_port w' = wcl_port w
        ∧ apiServers w ⊆ apiServers w'
        ∧ etcdMembers w ⊆ etcdMembers w'.
Proof.
  intros Hk.
  destruct (step_records_forward ann m op k w Hk) as (w' & Hk' & Hu).
  exists w'. split; [done|].
  destruct Hu as [->|[(pod & ca & key & env & _ & Hu)|(pod & ca & key & env & _ & Hu)]].
  - done.
  - destruct Hu as (-> & -> & -> & _ & _ & -> & _).
    repeat split; try done. apply union_subseteq_r.
  - destruct Hu as (-> & -> & -> & _ & _ & _ & _ & _ & _ & -> & _).
    repeat split; try done. apply union_subseteq_r.
Qed.

Lemma run_keeps_identities (ann : string) (ops : list Op) :
  ∀ (m : WorkloadClustersMux) (k : string) (w : WorkloadClusterListener),
  workloadClusterListeners m !! k = Some w →
  ∃ w', workloadClusterListeners (run ann m ops) !! k = Some w'
        ∧ wcl_host w' = wcl_host w ∧ wcl_port w' = wcl_port w
        ∧ apiServers w ⊆ apiServers w'
        ∧ etcdMembers w ⊆ etcdMembers w'.
Proof.
  induction ops as [|op ops IH]; intros m k w Hk.
  - exists w. by repeat split.
  - destruct (step_keeps_identities ann m op k w Hk)
      as (w1 & Hk1 & Hh1 & Hp1 & Ha1 & He1).
    destruct (IH _ _ _ Hk1) as (w' & Hk' & Hh & Hp & Ha & He).
    exists w'. split; [done|]. rewrite Hh, Hp.
    repeat split; try done; by etrans.
Qed.

(** X2. Identities are never removed: an API server or etcd member that
    the queries report stays reported after any further calls. *)
Theorem identities_never_removed (ann : string) (ops : list Op)
    (m : WorkloadClustersMux) (wclName podName : string) :
  (HasAPIServer m wclName podName = true →
   HasAPIServer (run ann m ops) wclName podName = true)
  ∧ (HasEtcdMember m wclName podName = true →
     HasEtcdMember (run ann m ops) wclName podName = true).
Proof.
  unfold HasAPIServer, HasEtcdMember.
  destruct (workloadClusterListeners m !! wclName) as [w|] eqn:Hw; [|done].
  destruct (run_keeps_identities ann ops m wclName w Hw)
    as (w' & -> & _ & _ & Ha & He).
  split; intros H%bool_decide_eq_true; apply bool_decide_eq_true; set_solver.
Qed.

Lemma identities_never_removed_witness :
  let m := run sample_annotation (NewWorkloadClustersMux sample_host)
             [OpInitListener "c";
              OpAddAPIServer "c" "kube-apiserver-0"
                (Some (X509Cert "ca")) (Some (RSAKey "ca")) sample_env_bind_fails] in
  let ops := [OpInitListener "d";
              OpHotRestart [sample_cluster "e" sample_host 20005];
              OpAddAPIServer "c" "kube-apiserver-1"
                (Some (X509Cert "ca")) (Some (RSAKey "ca")) sample_env_ok] in
  HasAPIServer m "c" "kube-apiserver-0" = true
  ∧ HasAPIServer (run sample_annotation m ops) "c" "kube-apiserver-0" = true.
Proof.
  intros m ops.
  assert (H : HasAPIServer m "c" "kube-apiserver-0" = true) by (by vm_compute).
  split; [exact H|].
  exact (proj1 (identities_never_removed sample_annotation ops m "c" "kube-apiserver-0") H).
Defined.

(** X3. A record, once created, is never removed and keeps its host and
    its port through any calls, so its address never changes. *)
Theorem record_keeps_address (ann : string) (ops : list Op)
    (m : WorkloadClustersMux) (k : string) (w : WorkloadClusterListener) :
  workloadClusterListeners m !! k = Some w →
  ∃ w', workloadClusterListeners (run ann m ops) !! k = Some w'
        ∧ wcl_host w' = wcl_host w
        ∧ wcl_port w' = wcl_port w
        ∧ HostPort w' = HostPort w.
Proof.
  intros Hk.
  destruct (run_keeps_identities ann ops m k w Hk) as (w' & Hk' & Hh & Hp & _).
  exists w'. repeat split; try done. unfold HostPort. by rewrite Hh, Hp.
Qed.

Lemma record_keeps_address_witness :
  let m := (InitWorkloadClusterListener (NewWorkloadClustersMux sample_host) "c").2 in
  let ops := [OpAddAPIServer "c" "kube-apiserver-0"
                (Some (X509Cert "ca")) (Some (RSAKey "ca")) sample_env_ok;
              OpInitListener "d";
              OpHotRestart [sample_cluster "c" sample_host 20005]] in
  ∃ w', workloadClusterListeners (run sample_annotation m ops) !! "c" = Some w'
        ∧ wcl_port w' = 20000
        ∧ HostPort w' = "127.0.0.1:20000".
Proof.
  intros m ops.
  destruct (record_keeps_address sample_annotation ops m "c"
              (reserved sample_host 20000)) as (w' & Hw' & _ & Hp & Hhp).
  - by vm_compute.
  - exists w'. split; [done|]. split; [done|]. rewrite Hhp. by vm_compute.
Defined.

(** X4. A listing entry never changes or disappears: for an address that
    is computed from the host and the port of a record, what
    [ListListeners] reports for a name stays what it is through any calls. *)
Theorem ListListeners_stable (ann : string) (ops : list Op)
    (address : string → Z → string)
    (m : WorkloadClustersMux) (k : string) (a : string) :
  ListListeners (λ w, address (wcl_host w) (wcl_port w)) m !! k = Some a →
  ListListeners (λ w, address (wcl_host w) (wcl_port w)) (run ann m ops) !! k = Some a.
Proof.
  unfold ListListeners. rewrite !lookup_fmap.
  intros H. apply fmap_Some in H as (w & Hw & ->).
  destruct (run_keeps_identities ann ops m k w Hw) as (w' & -> & Hh & Hp & _).
  simpl. by rewrite Hh, Hp.
Qed.

Lemma ListListeners_stable_witness :
  let m := (InitWorkloadClusterListener (NewWorkloadClustersMux sample_host) "c").2 in
  let address := λ (h : string) (p : Z), "https://" +:+ h +:+ ":" +:+ pretty p in
  let ops := [OpAddAPIServer "c" "kube-apiserver-0"
                (Some (X509Cert "ca")) (Some (RSAKey "ca")) sample_env_ok;
              OpInitListener "d"] in
  ListListeners (λ w, address (wcl_host w) (wcl_port w)) (run sample_annotation m ops)
    !! "c" = Some "https://127.0.0.1:20000".
Proof.
  intros m address ops.
  apply (ListListeners_stable sample_annotation ops address m "c").
  by vm_compute.
Defined.

(** ** What the identity calls leave alone *)

Lemma identity_call_cases (m : WorkloadClustersMux) (wclName podName : string)
    caCert caKey (env : APIServerEnv) (env' : EtcdMemberEnv) (m' : WorkloadClustersMux) :
  m' = (AddAPIServer m wclName podName caCert caKey env).2
  ∨ m' = (AddEtcdMember m wclName podName caCert caKey env').2 →
  m' = m
  ∨ ∃ w w', workloadClusterListeners m !! wclName = Some w
            ∧ m' = set_listener_record wclName w' m.
Proof.
  intros Hm'.
  destruct (workloadClusterListeners m !! wclName) as [w|] eqn:Hw.
  - right. exists w. destruct Hm' as [-> | ->].
    + destruct (AddAPIServer_found m wclName podName caCert caKey env w Hw)
        as (e & w' & -> & _). eauto.
    + destruct (AddEtcdMember_found m wclName podName caCert caKey env' w Hw)
        as (e & w' & -> & _). eauto.
  - left. destruct Hm' as [-> | ->].
    + by rewrite AddAPIServer_missing.
    + by rewrite AddEtcdMember_missing.
Qed.

Lemma identity_call_index_sound (m : WorkloadClustersMux) (wclName podName : string)
    caCert caKey (env : APIServerEnv) (env' : EtcdMemberEnv) (m' : WorkloadClustersMux) :
  m' = (AddAPIServer m wclName podName caCert caKey env).2
  ∨ m' = (AddEtcdMember m wclName podName caCert caKey env').2 →
  index_sound m → index_sound m'.
Proof.
  intros Hm' Hs.
  destruct (identity_call_cases m wclName podName caCert caKey env env' m' Hm')
    as [->|(w & w' & Hw & ->)]; [done|].
  intros hp k Hk. simpl in *. apply Hs in Hk.
  destruct (decide (wclName = k)) as [->|?].
  - rewrite lookup_insert_eq. eauto.
  - by rewrite lookup_insert_ne.
Qed.

(** X5. [AddAPIServer] and [AddEtcdMember] touch the record of the named
    cluster only: the port cursor, the port range, the host and the reverse
    index stay as they are, no record is created or removed, and the record
    of every other cluster is unchanged. *)
Theorem identity_calls_frame (m : WorkloadClustersMux) (wclName podName : string)
    caCert caKey (env : APIServerEnv) (env' : EtcdMemberEnv) (m' : WorkloadClustersMux) :
  m' = (AddAPIServer m wclName podName caCert caKey env).2
  ∨ m' = (AddEtcdMember m wclName podName caCert caKey env').2 →
  portIndex m' = portIndex m
  ∧ minPort m' = minPort m ∧ maxPort m' = maxPort m ∧ host m' = host m
  ∧ workloadClusterNameByHost m' = workloadClusterNameByHost m
  ∧ (∀ k, is_Some (workloadClusterListeners m' !! k)
          ↔ is_Some (workloadClusterListeners m !! k))
  ∧ (∀ k, k ≠ wclName →
          workloadClusterListeners m' !! k = workloadClusterListeners m !! k).
Proof.
  intros Hm'.
  pose proof (identity_call_cases m wclName podName caCert caKey env env' m' Hm')
    as Hcases.
  destruct Hcases as [->|(w & w' & Hw & ->)]; [done|]. simpl.
  do 5 (split; [done|]). split.
  - intros k. destruct (decide (wclName = k)) as [<-|Hne].
    + rewrite lookup_insert_eq, Hw. split; eauto.
    + by rewrite lookup_insert_ne.
  - intros k Hne. by rewrite lookup_insert_ne.
Qed.

Lemma identity_calls_frame_witness :
  let m := run sample_annotation (NewWorkloadClustersMux sample_host)
             [OpInitListener "c"; OpInitListener "d"] in
  let m' := (AddAPIServer m "c" "kube-apiserver-0"
               (Some (X509Cert "ca")) (Some (RSAKey "ca")) sample_env_ok).2 in
  portIndex m' = 20002
  ∧ workloadClusterListeners m' !! "d" = Some (reserved sample_host 20001).
Proof.
  intros m m'.
  destruct (identity_calls_frame m "c" "kube-apiserver-0"
              (Some (X509Cert "ca")) (Some (RSAKey "ca")) sample_env_ok
              (mkEtcdMemberEnv (Err (ErrExternal "unused")) (Err (ErrExternal "unused")))
              m' (or_introl eq_refl))
    as (Hp & _ & _ & _ & _ & _ & Hother).
  split.
  - rewrite Hp. by vm_compute.
  - rewrite (Hother "d") by discriminate. by vm_compute.
Defined.

(** ** The reverse index *)

Lemma HotRestart_loop_index_sound (ann : string) (items : list InMemoryCluster) :
  ∀ m ports mp e m' mp',
  HotRestart_loop ann m ports mp items = (e, m', mp') →
  index_sound m → index_sound m'.
Proof.
  induction items as [|c items IH]; intros m ports mp e m' mp' H Hs.
  - simpl in H. by simplify_eq.
  - loop_cases ann m ports mp c items H; try (by simplify_eq).
    + by eapply IH.
    + eapply IH; [exact H|]. intros hp n. simpl.
      destruct (decide (HostPort (reserved (host m) (cpPort c)) = hp)) as [<-|Hne].
      * rewrite lookup_insert_eq. intros ?. simplify_eq.
        rewrite lookup_insert_eq. eauto.
      * rewrite lookup_insert_ne by done. intros Hn.
        apply Hs in Hn. destruct (decide (rg = n)) as [->|?].
        -- rewrite lookup_insert_eq. eauto.
        -- by rewrite lookup_insert_ne.
Qed.

Lemma step_index_sound (ann : string) (m : WorkloadClustersMux) (op : Op) :
  index_sound m → index_sound (step ann m op).
Proof.
  intros Hs.
  destruct op as [n|n pod ca key env|n pod ca key env|cs].
  - rewrite step_InitListener.
    destruct (Init_cases m n) as [->|(_ & _ & ->)]; [done|].
    intros hp k. simpl.
    destruct (decide (HostPort (reserved (host m) (portIndex m)) = hp)) as [<-|Hne].
    + rewrite lookup_insert_eq. intros ?. simplify_eq.
      rewrite lookup_insert_eq. eauto.
    + rewrite lookup_insert_ne by done. intros Hn.
      apply Hs in Hn. destruct (decide (n = k)) as [->|?].
      * rewrite lookup_insert_eq. eauto.
      * by rewrite lookup_insert_ne.
  - unfold step, call.
    apply (identity_call_index_sound m n pod ca key env
             (mkEtcdMemberEnv (Err ErrAlreadyInitialized) (Err ErrAlreadyInitialized)));
      [by left|done].
  - unfold step, call.
    apply (identity_call_index_sound m n pod ca key sample_env_ok env);
      [by right|done].
  - unfold step, call, HotRestart.
    destruct (decide (length cs = 0%nat)); [done|].
    destruct (decide (0 < size (workloadClusterListeners m))%nat); [done|].
    destruct (HotRestart_loop _ _ _ _ _) as [[e m'] mp'] eqn:Hl.
    apply HotRestart_loop_index_sound in Hl; [|done].
    by destruct e.
Qed.

Lemma run_index_sound (ann : string) (ops : list Op) :
  ∀ m, index_sound m → index_sound (run ann m ops).
Proof.
  induction ops as [|op ops IH]; intros m Hs; [done|].
  unfold run in *. simpl. apply IH. by apply step_index_sound.
Qed.

(** X6. In every mux reached from the constructor the reverse index only
    names clusters that have a record. So a host the resolver knows always
    has its record, and the certificate resolver returns an error exactly
    for a local address that is not in the reverse index, the error naming
    that address. *)
Theorem resolution_sound (ann h : string) (ops : list Op) (hostPort serverName : string) :
  let m := run ann (NewWorkloadClustersMux h) ops in
  (∀ n, resourceGroupResolver m hostPort = Ok n →
        is_Some (workloadClusterListeners m !! n))
  ∧ (getCertificate m hostPort serverName).2
    = match workloadClusterNameByHost m !! hostPort with
      | None => Some (ErrNoListenerName hostPort)
      | Some _ => None
      end
  ∧ (resourceGroupResolver m hostPort = Err (ErrResolverNoListener hostPort)
     ↔ getCertificate m hostPort serverName = (None, Some (ErrNoListenerName hostPort))).
Proof.
  intros m.
  assert (Hs : index_sound m).
  { apply run_index_sound. intros hp n Hn. simpl in Hn.
    by rewrite lookup_empty in Hn. }
  unfold resourceGroupResolver, getCertificate.
  destruct (workloadClusterNameByHost m !! hostPort) as [n|] eqn:Hn.
  - destruct (Hs _ _ Hn) as [w Hw]. rewrite Hw.
    split; [intros ? ?; simplify_eq; eauto|].
    split; [by destruct (decide (serverName ∈ etcdMembers w))|].
    split; [done|]. by destruct (decide (serverName ∈ etcdMembers w)).
  - split; [done|]. split; [done|]. done.
Qed.

Lemma resolution_sound_witness :
  let ops := [OpHotRestart [sample_cluster "a" sample_host 20005];
              OpInitListener "c"] in
  let m := run sample_annotation (NewWorkloadClustersMux sample_host) ops in
  is_Some (workloadClusterListeners m !! "a")
  ∧ (getCertificate m "127.0.0.1:20005" "etcd-0").2 = None
  ∧ (getCertificate m "127.0.0.1:20007" "etcd-0").2
    = Some (ErrNoListenerName "127.0.0.1:20007").
Proof.
  intros ops m.
  pose proof (resolution_sound sample_annotation sample_host ops
                "127.0.0.1:20005" "etcd-0") as (Hr & Hc & _).
  pose proof (resolution_sound sample_annotation sample_host ops
                "127.0.0.1:20007" "etcd-0") as (_ & Hc' & _).
  fold m in Hr, Hc, Hc'.
  split; [|split].
  - apply Hr. by vm_compute.
  - rewrite Hc. by vm_compute.
  - rewrite Hc'. by vm_compute.
Defined.

(** ** Ports of a mux that was never hot restarted *)

Lemma JoinHostPort_inj (h p q : string) :
  JoinHostPort h p = JoinHostPort h q → p = q.
Proof.
  unfold JoinHostPort. destruct (has_byte ":" h); intros H.
  - apply (inj (String.app "[")) in H. apply (inj (String.app h)) in H.
    by apply (inj (String.app "]:")) in H.
  - apply (inj (String.app h)) in H. by apply (inj (String.app ":")) in H.
Qed.

Lemma HostPort_inj (w1 w2 : WorkloadClusterListener) :
  wcl_host w1 = wcl_host w2 → HostPort w1 = HostPort w2 →
  wcl_port w1 = wcl_port w2.
Proof.
  unfold HostPort. intros -> H. apply JoinHostPort_inj in H.
  by apply (inj pretty) in H.
Qed.

Lemma step_records_allocated (ann : string) (m : WorkloadClustersMux) (op : Op) :
  is_HotRestart op = false →
  int_min ≤ minPort m → maxPort m < int_max →
  records_allocated m → records_allocated (step ann m op).
Proof.
  intros Hop Hlo Hhi [Hrange Hrec].
  destruct op as [n|n pod ca key env|n pod ca key env|cs]; [| | |done].
  - rewrite step_InitListener.
    destruct (Init_cases m n) as [->|(Hn & Hp & ->)]; [done|].
    assert (Hw : wrap_int (portIndex m + 1) = portIndex m + 1).
    { apply wrap_int_id. unfold is_int, int_min, int_max in *. lia. }
    split; simpl; [rewrite Hw; lia|].
    intros k w. destruct (decide (n = k)) as [->|Hne].
    + rewrite lookup_insert_eq. intros ?. simplify_eq. simpl.
      split; [done|]. split; [rewrite Hw; lia|]. apply lookup_insert_eq.
    + rewrite lookup_insert_ne by done. intros Hk.
      destruct (Hrec k w Hk) as (Hh & Hport & Hidx).
      split; [done|]. split; [rewrite Hw; lia|].
      rewrite lookup_insert_ne; [done|].
      intros Heq. apply HostPort_inj in Heq; [|by rewrite Hh].
      simpl in Heq. lia.
  - unfold step, call.
    destruct (workloadClusterListeners m !! n) as [w0|] eqn:Hn;
      [|by rewrite AddAPIServer_missing].
    destruct (AddAPIServer_found m n pod ca key env w0 Hn) as (e & w' & -> & Hu).
    destruct Hu as (Hh' & Hp' & _).
    split; [done|]. simpl. intros k w.
    destruct (decide (n = k)) as [->|Hne].
    + rewrite lookup_insert_eq. intros ?. simplify_eq.
      destruct (Hrec k w0 Hn) as (Hh & Hport & Hidx).
      unfold HostPort in *. by rewrite Hh', Hp'.
    + rewrite lookup_insert_ne by done. apply Hrec.
  - unfold step, call.
    destruct (workloadClusterListeners m !! n) as [w0|] eqn:Hn;
      [|by rewrite AddEtcdMember_missing].
    destruct (AddEtcdMember_found m n pod ca key env w0 Hn) as (e & w' & -> & Hu).
    destruct Hu as (Hh' & Hp' & _).
    split; [done|]. simpl. intros k w.
    destruct (decide (n = k)) as [->|Hne].
    + rewrite lookup_insert_eq. intros ?. simplify_eq.
      destruct (Hrec k w0 Hn) as (Hh & Hport & Hidx).
      unfold HostPort in *. by rewrite Hh', Hp'.
    + rewrite lookup_insert_ne by done. apply Hrec.
Qed.

Lemma run_records_allocated (ann : string) (ops : list Op) :
  ∀ m, Forall (λ op, is_HotRestart op = false) ops →
       int_min ≤ minPort m → maxPort m < int_max →
       records_allocated m → records_allocated (run ann m ops).
Proof.
  induction ops as [|op ops IH]; intros m Hops Hlo Hhi Hr; [done|].
  apply Forall_cons in Hops as [Hop Hops].
  unfold run in *. simpl.
  destruct (step_frame ann m op) as (_ & Hmin & Hmax).
  apply IH; [done|by rewrite Hmin|by rewrite Hmax|].
  by apply step_records_allocated.
Qed.

(** X7. In a mux built by the constructor and never hot restarted, every
    record is on the host of the mux and on a port of the range below the
    cursor, its address resolves to its own name, and no two records share
    a port. *)
Theorem ports_unique (ann h : string) (ops : list Op) :
  Forall (λ op, is_HotRestart op = false) ops →
  let m := run ann (NewWorkloadClustersMux h) ops in
  (∀ k w, workloadClusterListeners m !! k = Some w →
          wcl_host w = h
          ∧ minPort_const ≤ wcl_port w < portIndex m
          ∧ portIndex m ≤ maxPort_const + 1
          ∧ resourceGroupResolver m (HostPort w) = Ok k)
  ∧ (∀ k1 k2 w1 w2,
       workloadClusterListeners m !! k1 = Some w1 →
       workloadClusterListeners m !! k2 = Some w2 →
       wcl_port w1 = wcl_port w2 → k1 = k2).
Proof.
  intros Hops m.
  assert (Hr : records_allocated m).
  { apply run_records_allocated; [done| | |].
    - by vm_compute.
    - by vm_compute.
    - split; [simpl; unfold minPort_const, maxPort_const; lia|].
      intros k w Hk. simpl in Hk. by rewrite lookup_empty in Hk. }
  destruct (run_frame ann ops (NewWorkloadClustersMux h)) as (Hh & Hmin & Hmax).
  fold m in Hh, Hmin, Hmax. simpl in Hh, Hmin, Hmax.
  destruct Hr as [Hrange Hrec]. rewrite Hh, Hmin, Hmax in *.
  assert (Hall : ∀ k w, workloadClusterListeners m !! k = Some w →
            wcl_host w = h
            ∧ minPort_const ≤ wcl_port w < portIndex m
            ∧ portIndex m ≤ maxPort_const + 1
            ∧ resourceGroupResolver m (HostPort w) = Ok k).
  { intros k w Hk. destruct (Hrec k w Hk) as (Hhw & Hp & Hidx).
    split; [done|]. split; [done|]. split; [lia|].
    unfold resourceGroupResolver. by rewrite Hidx. }
  split; [exact Hall|].
  intros k1 k2 w1 w2 H1 H2 Hp.
  destruct (Hall k1 w1 H1) as (Hh1 & _ & _ & Hr1).
  destruct (Hall k2 w2 H2) as (Hh2 & _ & _ & Hr2).
  assert (HostPort w1 = HostPort w2) as Heq
    by (unfold HostPort; by rewrite Hh1, Hh2, Hp).
  rewrite Heq in Hr1. congruence.
Qed.

Lemma ports_unique_witness :
  let ops := [OpInitListener "c";
              OpAddAPIServer "c" "kube-apiserver-0"
                (Some (X509Cert "ca")) (Some (RSAKey "ca")) sample_env_ok;
              OpInitListener "d"] in
  let m := run sample_annotation (NewWorkloadClustersMux sample_host) ops in
  Forall (λ op, is_HotRestart op = false) ops
  ∧ workloadClusterListeners m !! "d" = Some (reserved sample_host 20001)
  ∧ resourceGroupResolver m "127.0.0.1:20001" = Ok "d".
Proof.
  intros ops m.
  assert (Hops : Forall (λ op, is_HotRestart op = false) ops)
    by (by repeat constructor).
  assert (Hd : workloadClusterListeners m !! "d" = Some (reserved sample_host 20001))
    by (by vm_compute).
  split; [exact Hops|]. split; [exact Hd|].
  destruct (proj1 (ports_unique sample_annotation sample_host ops Hops) "d" _ Hd)
    as (_ & _ & _ & Hr).
  exact Hr.
Defined.

(** ** Starting a listener *)

Lemma AddAPIServer_found_socket (m : WorkloadClustersMux) (wclName podName : string)
    caCert caKey env (w : WorkloadClusterListener) :
  workloadClusterListeners m !! wclName = Some w →
  ∃ err w',
    AddAPIServer m wclName podName caCert caKey env
    = (err, set_listener_record wclName w' m)
    ∧ api_server_update podName caCert caKey err w w'
    ∧ api_server_socket_update err w w'.
Proof.
  intros H. unfold AddAPIServer, api_server_update, api_server_socket_update.
  rewrite H.
  destruct w as [h p srv cac cak sc ac ak em ec l]; simpl.
  destruct sc as [sc|]; [|destruct (servingCertAndKey env) as [[]|];
                           [destruct (servingKeyPair env)|]];
    simpl;
    try (eexists _, _; split; [reflexivity|]; simpl; naive_solver);
    (destruct ac as [ac|]; [|destruct (adminCertAndKey env) as [[]|]];
     simpl;
     try (eexists _, _; split; [reflexivity|]; simpl; naive_solver);
     (destruct l as [l|]; [|destruct (listenErr env); [|destruct (startErr env)]];
      simpl; eexists _, _; (split; [reflexivity|]); simpl; naive_solver)).
Qed.

(** X8. On an initialised listener, when every collaborator succeeds,
    [AddAPIServer] returns no error whatever happened before (so also on a
    retry after a failed attempt): afterwards the identity is recorded, the
    serving and admin certificates are there, and there is a socket, which
    is bound to the record's own address if it is new and is the one the
    record had otherwise. *)
Theorem AddAPIServer_succeeds (m : WorkloadClustersMux) (wclName podName : string)
    caCert caKey env (w : WorkloadClusterListener) :
  workloadClusterListeners m !! wclName = Some w →
  env_succeeds env →
  ∃ w', AddAPIServer m wclName podName caCert caKey env
        = (None, set_listener_record wclName w' m)
        ∧ podName ∈ apiServers w'
        ∧ is_Some (apiServerServingCertificate w')
        ∧ is_Some (adminCertificate w')
        ∧ listener w' = match listener w with
                        | Some l => Some l
                        | None => Some (TCPListener (HostPort w))
                        end.
Proof.
  intros Hw ([p1 Hs1] & [c2 Hs2] & [[ac' ak'] Ha] & Hl & Hst).
  unfold AddAPIServer. rewrite Hw, Hs1, Hs2, Ha, Hl, Hst.
  destruct w as [h p srv cac cak sc ac ak em ec l]; simpl.
  destruct sc as [sc|], ac as [ac|], l as [l|]; simpl;
    eexists; (split; [reflexivity|]); simpl;
    (split; [apply elem_of_union_l; by apply elem_of_singleton|]);
    naive_solver.
Qed.

Lemma AddAPIServer_succeeds_witness :
  let m := run sample_annotation (NewWorkloadClustersMux sample_host)
             [OpInitListener "c";
              OpAddAPIServer "c" "kube-apiserver-0"
                (Some (X509Cert "ca")) (Some (RSAKey "ca")) sample_env_bind_fails] in
  let r := AddAPIServer m "c" "kube-apiserver-0"
             (Some (X509Cert "ca")) (Some (RSAKey "ca")) sample_env_ok in
  (listener <$> workloadClusterListeners m !! "c") = Some None
  ∧ r.1 = None
  ∧ (listener <$> workloadClusterListeners r.2 !! "c")
    = Some (Some (TCPListener "127.0.0.1:20000")).
Proof.
  intros m r.
  assert (Hl : (listener <$> workloadClusterListeners m !! "c") = Some None)
    by (by vm_compute).
  split; [exact Hl|].
  apply lookup_field in Hl as (w & Hw & Hl).
  assert (Hh : HostPort w = "127.0.0.1:20000").
  { assert (H : HostPort <$> workloadClusterListeners m !! "c"
                = Some "127.0.0.1:20000") by (by vm_compute).
    rewrite Hw in H. by injection H. }
  destruct (AddAPIServer_succeeds m "c" "kube-apiserver-0"
              (Some (X509Cert "ca")) (Some (RSAKey "ca")) sample_env_ok w Hw)
    as (w' & Hr & _ & _ & _ & Hl').
  { unfold env_succeeds, sample_env_ok. simpl. eauto 10. }
  unfold r. rewrite Hr. simpl. split; [done|].
  rewrite lookup_insert_eq. simpl. by rewrite Hl', Hl, Hh.
Defined.

Lemma set_listener_record_id (m : WorkloadClustersMux) (k : string)
    (w : WorkloadClusterListener) :
  workloadClusterListeners m !! k = Some w → set_listener_record k w m = m.
Proof.
  intros H. destruct m. unfold set_listener_record. simpl in *.
  by rewrite insert_id.
Qed.

Lemma AddAPIServer_noop (m : WorkloadClustersMux) (wclName podName : string)
    caCert caKey env (w : WorkloadClusterListener) :
  workloadClusterListeners m !! wclName = Some w →
  podName ∈ apiServers w →
  apiServerCaCertificate w = caCert → apiServerCaKey w = caKey →
  is_Some (apiServerServingCertificate w) →
  is_Some (adminCertificate w) →
  is_Some (listener w) →
  AddAPIServer m wclName podName caCert caKey env = (None, m).
Proof.
  intros Hw Hpod Hc Hk [sc Hsc] [ac Hac] [l Hl].
  unfold AddAPIServer. rewrite Hw.
  destruct w as [h p srv cac cak sc0 ac0 ak em ec l0]; simpl in *.
  subst. simpl.
  assert (Hu : {[podName]} ∪ srv = srv).
  { apply subseteq_union_1_L. by apply singleton_subseteq_l. }
  rewrite Hu. f_equal. by apply set_listener_record_id.
Qed.

(** X9. [AddAPIServer] is idempotent once it has succeeded: the same call
    again (same cluster, identity and authority, whatever the collaborators
    would answer) returns no error and leaves the whole mux as it is. *)
Theorem AddAPIServer_repeat (m : WorkloadClustersMux) (wclName podName : string)
    caCert caKey (env env' : APIServerEnv) :
  (AddAPIServer m wclName podName caCert caKey env).1 = None →
  AddAPIServer (AddAPIServer m wclName podName caCert caKey env).2
    wclName podName caCert caKey env'
  = (None, (AddAPIServer m wclName podName caCert caKey env).2).
Proof.
  destruct (workloadClusterListeners m !! wclName) as [w|] eqn:Hw;
    [|by rewrite AddAPIServer_missing].
  destruct (AddAPIServer_found_socket m wclName podName caCert caKey env w Hw)
    as (e & w' & -> & Hu & Hsock).
  simpl. intros ->.
  destruct Hu as (_ & _ & Hs & Hca & Hkey & _).
  destruct Hsock as (_ & Hok & _). destruct (Hok eq_refl) as (Hsc & Hac & Hl).
  apply (AddAPIServer_noop _ _ _ _ _ _ w'); try done.
  - simpl. apply lookup_insert_eq.
  - rewrite Hs. apply elem_of_union_l. by apply elem_of_singleton.
Qed.

Lemma AddAPIServer_repeat_witness :
  let m := (InitWorkloadClusterListener (NewWorkloadClustersMux sample_host) "c").2 in
  let r := AddAPIServer m "c" "kube-apiserver-0"
             (Some (X509Cert "ca")) (Some (RSAKey "ca")) sample_env_ok in
  r.1 = None
  ∧ AddAPIServer r.2 "c" "kube-apiserver-0"
      (Some (X509Cert "ca")) (Some (RSAKey "ca")) sample_env_bind_fails
    = (None, r.2).
Proof.
  intros m r.
  assert (H : r.1 = None) by (by vm_compute).
  split; [exact H|].
  exact (AddAPIServer_repeat m "c" "kube-apiserver-0" _ _ sample_env_ok
           sample_env_bind_fails H).
Defined.

(** ** Certificates of the etcd members *)

Lemma AddEtcdMember_found_certificate (m : WorkloadClustersMux)
    (wclName podName : string) caCert caKey env (w : WorkloadClusterListener) :
  workloadClusterListeners m !! wclName = Some w →
  ∃ err w',
    AddEtcdMember m wclName podName caCert caKey env
    = (err, set_listener_record wclName w' m)
    ∧ etcd_member_update podName w w'
    ∧ etcd_certificate_update podName err w w'.
Proof.
  intros H. unfold AddEtcdMember, etcd_member_update, etcd_certificate_update.
  rewrite H.
  destruct w as [h p srv cac cak sc ac ak em ec l]; simpl.
  destruct (ec !! podName) as [c0|] eqn:Hc;
    [|destruct (etcdCertAndKey env); [destruct (etcdKeyPair env) as [cert|]|]];
    eexists _, _; (split; [reflexivity|]); simpl.
  - rewrite Hc. naive_solver.
  - split; [repeat split; try done|split].
    + intros pod c Hp. destruct (decide (podName = pod)) as [->|Hne];
        [congruence|by rewrite lookup_insert_ne].
    + intros pod c. destruct (decide (podName = pod)) as [->|Hne]; [by left|].
      rewrite lookup_insert_ne by done. by right.
    + rewrite lookup_insert_eq. naive_solver.
  - rewrite Hc. split; [repeat split; try done|]. split; [by right|].
    split; [done|by intros [? ?]].
  - rewrite Hc. split; [repeat split; try done|]. split; [by right|].
    split; [done|by intros [? ?]].
Qed.

(** X10. After [AddEtcdMember] on an initialised listener, a handshake on
    an address of that listener asking for the member's name gets no
    error, and gets a certificate exactly when the call returned no error:
    when minting fails the member is known and the resolver answers with a
    nil certificate. A certificate the member already had is the one
    returned. *)
Theorem AddEtcdMember_resolves (m : WorkloadClustersMux) (hostPort wclName podName : string)
    caCert caKey env (w : WorkloadClusterListener) :
  workloadClusterNameByHost m !! hostPort = Some wclName →
  workloadClusterListeners m !! wclName = Some w →
  let r := AddEtcdMember m wclName podName caCert caKey env in
  (getCertificate r.2 hostPort podName).2 = None
  ∧ (r.1 = None ↔ is_Some (getCertificate r.2 hostPort podName).1)
  ∧ (∀ cert, etcdServingCertificates w !! podName = Some cert →
             getCertificate r.2 hostPort podName = (Some cert, None)).
Proof.
  intros Hh Hw r. unfold r.
  destruct (AddEtcdMember_found_certificate m wclName podName caCert caKey env w Hw)
    as (e & w' & -> & Hu & Hcert).
  destruct Hu as (_ & _ & _ & _ & _ & _ & _ & _ & _ & Hmem & Hkeep).
  destruct Hcert as (_ & Hiff).
  assert (Hg : getCertificate (set_listener_record wclName w' m) hostPort podName
               = (etcdServingCertificates w' !! podName, None)).
  { unfold getCertificate. simpl. rewrite Hh, lookup_insert_eq.
    destruct (decide (podName ∈ etcdMembers w')) as [|Hn]; [done|].
    exfalso. apply Hn. rewrite Hmem. apply elem_of_union_l.
    by apply elem_of_singleton. }
  simpl. rewrite Hg. simpl. split; [done|]. split; [done|].
  intros cert Hc. by rewrite (Hkeep _ _ Hc).
Qed.

Lemma AddEtcdMember_resolves_witness :
  let m := (InitWorkloadClusterListener (NewWorkloadClustersMux sample_host) "c").2 in
  let ok := AddEtcdMember m "c" "etcd-0" (Some (X509Cert "ca")) (Some (RSAKey "ca"))
              (mkEtcdMemberEnv (Ok (X509Cert "etcd-0", RSAKey "etcd-0"))
                               (Ok (TLSCert "etcd-0"))) in
  let ko := AddEtcdMember m "c" "etcd-0" (Some (X509Cert "ca")) (Some (RSAKey "ca"))
              (mkEtcdMemberEnv (Err (ErrExternal "no entropy"))
                               (Ok (TLSCert "etcd-0"))) in
  getCertificate ok.2 "127.0.0.1:20000" "etcd-0" = (Some (TLSCert "etcd-0"), None)
  ∧ (getCertificate ko.2 "127.0.0.1:20000" "etcd-0").2 = None
  ∧ ¬ is_Some (getCertificate ko.2 "127.0.0.1:20000" "etcd-0").1.
Proof.
  intros m ok ko.
  assert (Hh : workloadClusterNameByHost m !! "127.0.0.1:20000" = Some "c")
    by (by vm_compute).
  assert (Hw : workloadClusterListeners m !! "c" = Some (reserved sample_host 20000))
    by (by vm_compute).
  split; [by vm_compute|].
  destruct (AddEtcdMember_resolves m "127.0.0.1:20000" "c" "etcd-0"
              (Some (X509Cert "ca")) (Some (RSAKey "ca"))
              (mkEtcdMemberEnv (Err (ErrExternal "no entropy")) (Ok (TLSCert "etcd-0")))
              _ Hh Hw) as (Hnone & Hiff & _).
  split; [exact Hnone|].
  intros Hs. apply Hiff in Hs. by vm_compute in Hs.
Defined.

Lemma AddEtcdMember_noop (m : WorkloadClustersMux) (wclName podName : string)
    caCert caKey env (w : WorkloadClusterListener) :
  workloadClusterListeners m !! wclName = Some w →
  podName ∈ etcdMembers w →
  is_Some (etcdServingCertificates w !! podName) →
  AddEtcdMember m wclName podName caCert caKey env = (None, m).
Proof.
  intros Hw Hpod [c Hc].
  unfold AddEtcdMember. rewrite Hw.
  destruct w as [h p srv cac cak sc0 ac0 ak em ec l0]; simpl in *.
  rewrite Hc.
  assert (Hu : {[podName]} ∪ em = em).
  { apply subseteq_union_1_L. by apply singleton_subseteq_l. }
  rewrite Hu. f_equal. by apply set_listener_record_id.
Qed.

(** X11. [AddEtcdMember] is idempotent once it has succeeded: a later call
    for the same cluster and member, with any authority and whatever the
    collaborators would answer, returns no error and leaves the whole mux as
    it is, so a member's certificate is minted once. *)
Theorem AddEtcdMember_repeat (m : WorkloadClustersMux) (wclName podName : string)
    caCert caKey caCert' caKey' (env env' : EtcdMemberEnv) :
  (AddEtcdMember m wclName podName caCert caKey env).1 = None →
  AddEtcdMember (AddEtcdMember m wclName podName caCert caKey env).2
    wclName podName caCert' caKey' env'
  = (None, (AddEtcdMember m wclName podName caCert caKey env).2).
Proof.
  destruct (workloadClusterListeners m !! wclName) as [w|] eqn:Hw;
    [|by rewrite AddEtcdMember_missing].
  destruct (AddEtcdMember_found_certificate m wclName podName caCert caKey env w Hw)
    as (e & w' & -> & Hu & Hcert).
  simpl. intros ->.
  destruct Hu as (_ & _ & _ & _ & _ & _ & _ & _ & _ & Hmem & _).
  destruct Hcert as (_ & Hiff).
  apply (AddEtcdMember_noop _ _ _ _ _ _ w').
  - simpl. apply lookup_insert_eq.
  - rewrite Hmem. apply elem_of_union_l. by apply elem_of_singleton.
  - by apply Hiff.
Qed.

Lemma AddEtcdMember_repeat_witness :
  let m := (InitWorkloadClusterListener (NewWorkloadClustersMux sample_host) "c").2 in
  let env := mkEtcdMemberEnv (Ok (X509Cert "etcd-0", RSAKey "etcd-0"))
                             (Ok (TLSCert "etcd-0")) in
  let env' := mkEtcdMemberEnv (Ok (X509Cert "other", RSAKey "other"))
                              (Ok (TLSCert "other")) in
  let r := AddEtcdMember m "c" "etcd-0" (Some (X509Cert "ca")) (Some (RSAKey "ca")) env in
  r.1 = None
  ∧ AddEtcdMember r.2 "c" "etcd-0" (Some (X509Cert "ca-2")) (Some (RSAKey "ca-2")) env'
    = (None, r.2).
Proof.
  intros m env env' r.
  assert (H : r.1 = None) by (by vm_compute).
  split; [exact H|].
  exact (AddEtcdMember_repeat m "c" "etcd-0" _ _ _ _ env env' H).
Defined.

(** ** Well-formed records *)

Lemma step_records_more (ann : string) (m : WorkloadClustersMux) (op : Op)
    (k : string) (w' : WorkloadClusterListener) :
  workloadClusterListeners (step ann m op) !! k = Some w' →
  workloadClusterListeners m !! k = Some w'
  ∨ (∃ p, w' = reserved (host m) p)
  ∨ (∃ w pod ca key e,
        workloadClusterListeners m !! k = Some w
        ∧ api_server_update pod ca key e w w'
        ∧ api_server_socket_update e w w')
  ∨ (∃ w pod e,
        workloadClusterListeners m !! k = Some w
        ∧ etcd_member_update pod w w'
        ∧ etcd_certificate_update pod e w w').
Proof.
  destruct op as [n|n pod ca key env|n pod ca key env|cs].
  - intros Hk. apply (step_records ann m (OpInitListener n)) in Hk
      as [?|[?|[(w & pod & ca & key & env & Hop & _)
               |(w & pod & ca & key & env & Hop & _)]]];
      [by left|right; by left|done|done].
  - unfold step, call.
    destruct (workloadClusterListeners m !! n) as [w|] eqn:Hn.
    + destruct (AddAPIServer_found_socket m n pod ca key env w Hn)
        as (e & w1 & -> & Hu & Hs).
      simpl. destruct (decide (n = k)) as [->|Hne].
      * rewrite lookup_insert_eq. intros ?. simplify_eq.
        right. right. left. by exists w, pod, ca, key, e.
      * rewrite lookup_insert_ne by done. by left.
    + rewrite AddAPIServer_missing by done. by left.
  - unfold step, call.
    destruct (workloadClusterListeners m !! n) as [w|] eqn:Hn.
    + destruct (AddEtcdMember_found_certificate m n pod ca key env w Hn)
        as (e & w1 & -> & Hu & Hs).
      simpl. destruct (decide (n = k)) as [->|Hne].
      * rewrite lookup_insert_eq. intros ?. simplify_eq.
        right. right. right. by exists w, pod, e.
      * rewrite lookup_insert_ne by done. by left.
    + rewrite AddEtcdMember_missing by done. by left.
  - intros Hk. apply HotRestart_records in Hk as [?|(c & _ & ->)]; [by left|].
    right. left. eauto.
Qed.

Lemma reserved_wf (h : string) (p : Z) : record_wf h (reserved h p).
Proof.
  unfold record_wf. simpl. split; [done|]. split; [done|].
  split; [by intros [? ?]|]. split; [split; by intros [? ?]|].
  intros pod [? H]. by rewrite lookup_empty in H.
Qed.

Lemma step_record_wf (ann : string) (m : WorkloadClustersMux) (op : Op) :
  (∀ k w, workloadClusterListeners m !! k = Some w → record_wf (host m) w) →
  ∀ k w, workloadClusterListeners (step ann m op) !! k = Some w →
         record_wf (host m) w.
Proof.
  intros Hinv k w' Hk.
  apply step_records_more in Hk
    as [Hk|[(p & ->)|[(w & pod & ca & key & e & Hw & Hu & Hs)
                     |(w & pod & e & Hw & Hu & Hs)]]].
  - by eapply Hinv.
  - apply reserved_wf.
  - destruct (Hinv k w Hw) as (Hh & Hl & Hc & Hak & He).
    destruct Hu as (Hh' & Hp' & _ & _ & _ & Hem & Hec & Hsc & Hac & _).
    destruct Hs as (Hsock & _ & Hadm & _).
    assert (Hhp : HostPort w' = HostPort w) by (unfold HostPort; by rewrite Hh', Hp').
    split; [by rewrite Hh'|]. split; [|split; [|split]].
    + intros l. rewrite Hhp.
      destruct Hsock as [-> |(_ & -> & _)]; [apply Hl|by intros ?; simplify_eq].
    + destruct Hsock as [Heq|(_ & _ & ? & ?)]; [|done].
      rewrite Heq. intros Hsome. destruct (Hc Hsome) as [H1 H2].
      rewrite (Hsc H1). destruct (Hac H2) as [-> _]. done.
    + destruct Hadm as [[-> ->]|(_ & ? & ?)]; [done|]. done.
    + intros p. rewrite Hec, Hem. apply He.
  - destruct (Hinv k w Hw) as (Hh & Hl & Hc & Hak & He).
    destruct Hu as (Hh' & Hp' & _ & _ & _ & Hsc & Hac & Hkey & Hlis & Hem & _).
    destruct Hs as (Hcerts & _).
    assert (Hhp : HostPort w' = HostPort w) by (unfold HostPort; by rewrite Hh', Hp').
    split; [by rewrite Hh'|]. split; [|split; [|split]].
    + intros l. rewrite Hhp, Hlis. apply Hl.
    + rewrite Hlis, Hsc, Hac. apply Hc.
    + by rewrite Hac, Hkey.
    + intros p [c Hp]. rewrite Hem.
      destruct (Hcerts p c Hp) as [->|Hold].
      * apply elem_of_union_l. by apply elem_of_singleton.
      * apply elem_of_union_r. apply He. eauto.
Qed.

(** X12. Every record of a mux reached from the constructor is well
    formed: it is on the host of the mux; its socket, if any, is bound to
    its own address; a record with a socket has its serving and admin
    certificates; the admin certificate and its key are set together; and
    only etcd members have an etcd serving certificate. *)
Theorem records_well_formed (ann h : string) (ops : list Op)
    (k : string) (w : WorkloadClusterListener) :
  workloadClusterListeners (run ann (NewWorkloadClustersMux h) ops) !! k = Some w →
  record_wf h w.
Proof.
  assert (Hgen : ∀ m, (∀ k w, workloadClusterListeners m !! k = Some w →
                              record_wf (host m) w) →
                      ∀ k w, workloadClusterListeners (run ann m ops) !! k = Some w →
                             record_wf (host m) w).
  { induction ops as [|op ops IH]; intros m Hinv; [done|].
    unfold run in *. simpl. intros k' w' Hk.
    destruct (step_frame ann m op) as (Hh & _ & _). rewrite <- Hh.
    eapply (IH (step ann m op)); [|exact Hk].
    rewrite Hh. by apply step_record_wf. }
  intros Hk. eapply (Hgen (NewWorkloadClustersMux h)); [|exact Hk].
  intros k' w' Hk'. simpl in Hk'. by rewrite lookup_empty in Hk'.
Qed.

Lemma records_well_formed_witness :
  let ops := [OpInitListener "c";
              OpAddAPIServer "c" "kube-apiserver-0"
                (Some (X509Cert "ca")) (Some (RSAKey "ca")) sample_env_ok] in
  let m := run sample_annotation (NewWorkloadClustersMux sample_host) ops in
  ∃ w, workloadClusterListeners m !! "c" = Some w
       ∧ listener w = Some (TCPListener (HostPort w))
       ∧ is_Some (adminKey w).
Proof.
  intros ops m.
  destruct (workloadClusterListeners m !! "c") as [w|] eqn:Hw;
    [|by vm_compute in Hw].
  exists w. split; [done|].
  destruct (records_well_formed sample_annotation sample_host ops "c" w Hw)
    as (_ & Hl & Hc & Hak & _).
  assert (Hsome : is_Some (listener w)).
  { assert (H : listener <$> workloadClusterListeners m !! "c"
                = Some (Some (TCPListener "127.0.0.1:20000"))) by (by vm_compute).
    rewrite Hw in H. injection H as ->. eauto. }
  split.
  - destruct Hsome as [l Hl']. rewrite Hl'. f_equal. by apply Hl.
  - apply Hak. by apply Hc.
Defined.

(** ** When the hot restart succeeds, and where it leaves the cursor *)

Lemma HotRestart_loop_succeeds_iff (ann : string) (items : list InMemoryCluster) :
  ∀ m mp,
  (HotRestart_loop ann m ∅ mp items).1.1 = None
  ↔ ∀ c, c ∈ items → cpHost c ≠ "" →
         cpHost c = host m ∧ is_Some (Annotations c !! ann).
Proof.
  induction items as [|c items IH]; intros m mp.
  - simpl. split; [|done]. intros _ c Hc. by apply elem_of_nil in Hc.
  - destruct (HotRestart_loop_cons ann m ∅ mp c items)
      as [(Hh & ->)|[(Hh & Hm & ->)|[(_ & _ & Hin & _)
         |[(Hh & Hm & _ & Ha & ->)|(rg & Hh & Hm & _ & Ha & ->)]]]].
    + rewrite IH. split.
      * intros H c' Hc'. apply elem_of_cons in Hc' as [->|Hc']; [done|by apply H].
      * intros H c' Hc'. apply H. by right.
    + simpl. split; [done|]. intros H.
      destruct (H c (list_elem_of_here _ _) Hh) as [? _]. done.
    + exfalso. by eapply (not_elem_of_empty (C:=gset Z)).
    + simpl. split; [done|]. intros H.
      destruct (H c (list_elem_of_here _ _) Hh) as [_ [? Hs]]. congruence.
    + rewrite IH. simpl. split.
      * intros H c' Hc'. apply elem_of_cons in Hc' as [->|Hc']; [eauto|by apply H].
      * intros H c' Hc'. apply H. by right.
Qed.

(** X13. On a mux without records [HotRestart] returns no error exactly
    when every listed cluster that has a host is on the host of the mux and
    carries the resource group annotation; nothing else about the list
    matters, the ports in particular. On a mux with records it returns no
    error exactly when the list is empty. *)
Theorem HotRestart_succeeds_iff (ann : string) (m : WorkloadClustersMux)
    (clusters : list InMemoryCluster) :
  (workloadClusterListeners m = ∅ →
   ((HotRestart ann m clusters).1 = None
    ↔ ∀ c, c ∈ clusters → cpHost c ≠ "" →
           cpHost c = host m ∧ is_Some (Annotations c !! ann)))
  ∧ (workloadClusterListeners m ≠ ∅ →
     ((HotRestart ann m clusters).1 = None ↔ clusters = [])).
Proof.
  split.
  - intros Hm. unfold HotRestart.
    destruct (decide (length clusters = 0%nat)) as [Hl|Hl].
    + apply length_zero_iff_nil in Hl as ->. simpl. split; [|done].
      intros _ c Hc. by apply elem_of_nil in Hc.
    + destruct (decide (0 < size (workloadClusterListeners m))%nat) as [Hs|_].
      { by apply nonempty_size in Hs. }
      rewrite <- (HotRestart_loop_succeeds_iff ann clusters m (wrap_int (minPort m - 1))).
      destruct (HotRestart_loop _ _ _ _ _) as [[e m'] mp']. by destruct e.
  - intros Hm. rewrite (HotRestart_initialized ann m clusters Hm). simpl.
    destruct (decide (length clusters = 0%nat)) as [Hl|Hl].
    + by apply length_zero_iff_nil in Hl.
    + split; [done|]. intros ->. done.
Qed.

Lemma HotRestart_succeeds_iff_witness :
  let m := NewWorkloadClustersMux sample_host in
  let clusters := [sample_cluster "a" sample_host 20005;
                   sample_cluster "skipped" "" 7;
                   sample_cluster "b" sample_host 20005] in
  (HotRestart sample_annotation m clusters).1 = None.
Proof.
  intros m clusters.
  apply (proj1 (HotRestart_succeeds_iff sample_annotation m clusters) eq_refl).
  intros c Hc Hh.
  apply elem_of_cons in Hc as [->|Hc];
    [split; [done|eexists; vm_compute; reflexivity]|].
  apply elem_of_cons in Hc as [->|Hc]; [done|].
  apply list_elem_of_singleton in Hc as ->.
  split; [done|eexists; vm_compute; reflexivity].
Defined.

Lemma HotRestart_loop_maximum (ann : string) (items : list InMemoryCluster) :
  ∀ m ports mp m' mp',
  HotRestart_loop ann m ports mp items = (None, m', mp') →
  mp ≤ mp'
  ∧ (∀ c, c ∈ items → cpHost c ≠ "" → cpPort c ≤ mp')
  ∧ (mp' = mp ∨ ∃ c, c ∈ items ∧ cpHost c ≠ "" ∧ mp' = cpPort c).
Proof.
  induction items as [|c items IH]; intros m ports mp m' mp' H.
  - simpl in H. simplify_eq. split; [lia|]. split; [|by left].
    intros c Hc. by apply elem_of_nil in Hc.
  - loop_cases ann m ports mp c items H; try done.
    + destruct (IH _ _ _ _ _ H) as (Hle & Hb & Hmax).
      split; [done|]. split.
      * intros c' Hc' Hh. apply elem_of_cons in Hc' as [->|Hc']; [done|by apply Hb].
      * destruct Hmax as [?|(c' & ? & ? & ?)]; [by left|].
        right. exists c'. split; [by right|done].
    + destruct (IH _ _ _ _ _ H) as (Hle & Hb & Hmax).
      split; [lia|]. split.
      * intros c' Hc' Hh. apply elem_of_cons in Hc' as [->|Hc']; [lia|by apply Hb].
      * destruct Hmax as [->|(c' & ? & ? & ?)].
        -- destruct (Z.max_spec mp (cpPort c)) as [[_ ->]|[_ ->]]; [|by left].
           right. exists c. split; [left|done].
        -- right. exists c'. split; [by right|done].
Qed.

(** X14. After a [HotRestart] that returns no error on a mux without
    records and a non-empty list, the cursor is at least the start of the
    range and above the port of every listed cluster that has a host
    (machine integers allowing: the start of the range above the least
    integer, those ports below the greatest). So a port handed out later to
    a name without record is none of the restored ones. *)
Theorem HotRestart_cursor_above (ann : string) (m : WorkloadClustersMux)
    (clusters : list InMemoryCluster) (m' : WorkloadClustersMux) :
  workloadClusterListeners m = ∅ →
  clusters ≠ [] →
  int_min < minPort m → minPort m ≤ int_max →
  (∀ c, c ∈ clusters → cpHost c ≠ "" → cpPort c < int_max) →
  HotRestart ann m clusters = (None, m') →
  minPort m ≤ portIndex m'
  ∧ (∀ c, c ∈ clusters → cpHost c ≠ "" → cpPort c < portIndex m')
  ∧ (∀ name w m'', workloadClusterListeners m' !! name = None →
       InitWorkloadClusterListener m' name = (Ok w, m'') →
       ∀ c, c ∈ clusters → cpHost c ≠ "" → cpPort c < wcl_port w).
Proof.
  intros Hm Hne Hlo Hhi Hports H.
  unfold HotRestart in H.
  destruct (decide (length clusters = 0%nat)) as [Hl|_].
  { by apply length_zero_iff_nil in Hl. }
  destruct (decide (0 < size (workloadClusterListeners m))%nat) as [Hs|_].
  { by apply nonempty_size in Hs. }
  destruct (HotRestart_loop _ _ _ _ _) as [[e0 m0] mp0] eqn:Hloop.
  destruct e0 as [e0|]; [done|]. simplify_eq.
  destruct (HotRestart_loop_maximum _ _ _ _ _ _ _ Hloop) as (Hle & Hb & Hmax).
  rewrite (wrap_int_id (minPort m - 1)) in Hle, Hmax
    by (unfold is_int, int_min, int_max in *; lia).
  assert (Hw : wrap_int (mp0 + 1) = mp0 + 1).
  { apply wrap_int_id. unfold is_int, int_min, int_max in *.
    destruct Hmax as [->|(c & Hc & Hh & ->)]; [lia|].
    pose proof (Hports c Hc Hh). lia. }
  assert (Habove : ∀ c, c ∈ clusters → cpHost c ≠ "" → cpPort c < mp0 + 1).
  { intros c Hc Hh. pose proof (Hb c Hc Hh). lia. }
  simpl. rewrite Hw. split; [lia|]. split; [done|].
  intros name w m'' Hn Hi c Hc Hh.
  destruct (decide (mp0 + 1 > maxPort m0)) as [Hp|Hp].
  - rewrite Init_fresh_exhausted in Hi by done. done.
  - rewrite Init_fresh_ok in Hi; [|done|simpl; lia].
    simplify_eq. simpl. by apply Habove.
Qed.

Lemma HotRestart_cursor_above_witness :
  let m := NewWorkloadClustersMux sample_host in
  let clusters := [sample_cluster "a" sample_host 20005;
                   sample_cluster "b" sample_host 20005;
                   sample_cluster "skipped" "" 23000] in
  let m' := (HotRestart sample_annotation m clusters).2 in
  HotRestart sample_annotation m clusters = (None, m')
  ∧ 20005 < portIndex m'.
Proof.
  intros m clusters m'.
  assert (Hr : HotRestart sample_annotation m clusters = (None, m')).
  { unfold m'. rewrite (surjective_pairing (HotRestart _ _ _)) at 1. by f_equal. }
  split; [exact Hr|].
  destruct (HotRestart_cursor_above sample_annotation m clusters m') as (_ & Hb & _);
    [done|done|by vm_compute|by vm_compute| |exact Hr|].
  - intros c Hc Hh.
    apply elem_of_cons in Hc as [->|Hc]; [by vm_compute|].
    apply elem_of_cons in Hc as [->|Hc]; [by vm_compute|].
    apply list_elem_of_singleton in Hc as ->. done.
  - apply (Hb (sample_cluster "a" sample_host 20005)); [left|done].
Defined.

(** * Properties of the MachinePool webhook *)

Section WebhookProperties.
Import Webhook.
Local Set Default Proof Using "Type".
Variable ClusterNameLabel : string.
Variable Group : string.
Variable KubeSemver_MatchString : string → bool.
Variable ObjectMeta_Validate : ObjectMeta → list string → list FieldError.

Lemma HasPrefix_v (v : string) : HasPrefix ("v" +:+ v) "v" = true.
Proof. apply HasPrefix_spec. by exists v. Qed.

Lemma normalized_version_prefixed (v : string) :
  HasPrefix (normalized_version v) "v" = true.
Proof.
  unfold normalized_version. destruct (HasPrefix v "v") eqn:Hp; [done|].
  apply HasPrefix_v.
Qed.

Lemma Default_Version (m : MachinePool) :
  Version (Default ClusterNameLabel m) = normalized_version <$> Version m.
Proof.
  unfold Default, normalized_version; simpl.
  destruct (Version m) as [v|]; [|done]. simpl. by destruct (HasPrefix v "v").
Qed.

Lemma Default_ConfigRef (m : MachinePool) :
  ConfigRef (Default ClusterNameLabel m) =
  (λ r, if decide (refNamespace r = "") then with_refNamespace (Namespace m) r else r)
    <$> ConfigRef m.
Proof.
  unfold Default; simpl. destruct (ConfigRef m) as [r|]; [|done].
  simpl. by case_decide.
Qed.

Lemma defaulted_namespace (ns : string) (r : ObjectReference) :
  refNamespace (if decide (refNamespace r = "") then with_refNamespace ns r else r) = ns
  ↔ refNamespace r = "" ∨ refNamespace r = ns.
Proof.
  case_decide as He; simpl.
  - split; [by left | done].
  - split; [by right | by intros [?|?]].
Qed.

Lemma elem_of_step {A : Type} (c : Prop) `{Decision c} (acc : list A) (e x : A) :
  x ∈ (if decide c then append acc [e] else acc) ↔ x ∈ acc ∨ (c ∧ x = e).
Proof.
  unfold append. case_decide as Hc.
  - rewrite elem_of_app, list_elem_of_singleton. split.
    + intros [?|?]; [by left|by right].
    + intros [?|[_ ?]]; [by left|by right].
  - split; [by left|]. by intros [?|[? _]].
Qed.

(** The membership of [allErrs], check by check. *)
Lemma elem_of_validate_errors (m : MachinePool) (old : option MachinePool)
    (e : FieldError) :
  e ∈ validate_errors KubeSemver_MatchString ObjectMeta_Validate m old ↔
    (ConfigRef m = None ∧ DataSecretName m = None ∧
     e = Required ["spec"; "template"; "spec"; "bootstrap"; "data"]
           "expected either spec.bootstrap.dataSecretName or spec.bootstrap.configRef to be populated")
    ∨ (∃ r, ConfigRef m = Some r ∧ refNamespace r ≠ Namespace m ∧
         e = Invalid ["spec"; "template"; "spec"; "bootstrap"; "configRef"; "namespace"]
               (refNamespace r) "must match metadata.namespace")
    ∨ (refNamespace (InfrastructureRef m) ≠ Namespace m ∧
         e = Invalid ["spec"; "infrastructureRef"; "namespace"]
               (refNamespace (InfrastructureRef m)) "must match metadata.namespace")
    ∨ (∃ o, old = Some o ∧ ClusterName o ≠ ClusterName m ∧
         e = Forbidden ["spec"; "clusterName"] "field is immutable")
    ∨ (∃ v, Version m = Some v ∧ KubeSemver_MatchString v = false ∧
         e = Invalid ["spec"; "template"; "spec"; "version"] v
               "must be a valid semantic version")
    ∨ e ∈ ObjectMeta_Validate (TemplateMeta m) ["spec"; "template"; "metadata"].
Proof.
  clear ClusterNameLabel Group.
  unfold validate_errors, NewPath, Child. cbn [append app].
  unfold append at 1. rewrite elem_of_app.
  set (meta := ObjectMeta_Validate _ _).
  assert (Hv : ∀ acc : list FieldError,
    e ∈ match Version m with
        | Some v => if KubeSemver_MatchString v then acc
                    else append acc [Invalid ["spec"; "template"; "spec"; "version"] v
                                       "must be a valid semantic version"]
        | None => acc end ↔
    e ∈ acc ∨ ∃ v, Version m = Some v ∧ KubeSemver_MatchString v = false ∧
         e = Invalid ["spec"; "template"; "spec"; "version"] v
               "must be a valid semantic version").
  { intros acc. destruct (Version m) as [v|].
    - destruct (KubeSemver_MatchString v) eqn:Hk.
      + split; [by left|]. intros [?|(v' & [= <-] & ? & _)]; [done|congruence].
      + unfold append. rewrite elem_of_app, list_elem_of_singleton.
        split; intros [?|H]; [by left|right; by exists v|by left|].
        destruct H as (v' & [= <-] & _ & ->). by right.
    - split; [by left|]. by intros [?|(v' & ? & _)]. }
  rewrite Hv. clear Hv.
  assert (Ho : ∀ acc : list FieldError,
    e ∈ match old with
        | Some o => if decide (ClusterName o ≠ ClusterName m)
                    then append acc [Forbidden ["spec"; "clusterName"] "field is immutable"]
                    else acc
        | None => acc end ↔
    e ∈ acc ∨ ∃ o, old = Some o ∧ ClusterName o ≠ ClusterName m ∧
         e = Forbidden ["spec"; "clusterName"] "field is immutable").
  { intros acc. destruct old as [o|].
    - rewrite elem_of_step. split; intros [?|H]; [by left| |by left|].
      + right. exists o. tauto.
      + destruct H as (o' & [= <-] & ? & ?). by right.
    - split; [by left|]. by intros [?|(o' & ? & _)]. }
  rewrite Ho. clear Ho.
  rewrite elem_of_step.
  assert (Hc : ∀ acc : list FieldError,
    e ∈ match ConfigRef m with
        | Some r => if decide (refNamespace r ≠ Namespace m)
                    then append acc [Invalid
                      ["spec"; "template"; "spec"; "bootstrap"; "configRef"; "namespace"]
                      (refNamespace r) "must match metadata.namespace"]
                    else acc
        | None => acc end ↔
    e ∈ acc ∨ ∃ r, ConfigRef m = Some r ∧ refNamespace r ≠ Namespace m ∧
         e = Invalid ["spec"; "template"; "spec"; "bootstrap"; "configRef"; "namespace"]
               (refNamespace r) "must match metadata.namespace").
  { intros acc. destruct (ConfigRef m) as [r|].
    - rewrite elem_of_step. split; intros [?|H]; [by left| |by left|].
      + right. exists r. tauto.
      + destruct H as (r' & [= <-] & ? & ?). by right.
    - split; [by left|]. by intros [?|(r' & ? & _)]. }
  rewrite Hc. clear Hc.
  assert (Hd : e ∈ match ConfigRef m, DataSecretName m with
        | None, None =>
          append [] [Required ["spec"; "template"; "spec"; "bootstrap"; "data"]
            "expected either spec.bootstrap.dataSecretName or spec.bootstrap.configRef to be populated"]
        | _, _ => [] end ↔
      ConfigRef m = None ∧ DataSecretName m = None ∧
      e = Required ["spec"; "template"; "spec"; "bootstrap"; "data"]
            "expected either spec.bootstrap.dataSecretName or spec.bootstrap.configRef to be populated").
  { destruct (ConfigRef m), (DataSecretName m); unfold append; cbn [app];
      rewrite ?list_elem_of_singleton, ?elem_of_nil;
      try (split; [done|by intros (?&?&?)]). }
  rewrite Hd. clear Hd. tauto.
Qed.

(** [allErrs] is empty exactly when every check passes. *)
Lemma validate_errors_nil_iff (m : MachinePool) (old : option MachinePool) :
  validate_errors KubeSemver_MatchString ObjectMeta_Validate m old = [] ↔
    (ConfigRef m ≠ None ∨ DataSecretName m ≠ None) ∧
    (∀ r, ConfigRef m = Some r → refNamespace r = Namespace m) ∧
    refNamespace (InfrastructureRef m) = Namespace m ∧
    (∀ o, old = Some o → ClusterName o = ClusterName m) ∧
    (∀ v, Version m = Some v → KubeSemver_MatchString v = true) ∧
    ObjectMeta_Validate (TemplateMeta m) ["spec"; "template"; "metadata"] = [].
Proof.
  split.
  - intros Hnil.
    assert (Hno : ∀ e, ¬ e ∈ validate_errors KubeSemver_MatchString
                              ObjectMeta_Validate m old).
    { intros e. rewrite Hnil. apply not_elem_of_nil. }
    repeat split.
    + destruct (ConfigRef m) as [r|] eqn:Hc; [by left|].
      destruct (DataSecretName m) as [d|] eqn:Hd; [by right|].
      exfalso. eapply Hno. apply elem_of_validate_errors. left. by rewrite Hc, Hd.
    + intros r Hr. destruct (decide (refNamespace r = Namespace m)) as [|Hne]; [done|].
      exfalso. eapply Hno. apply elem_of_validate_errors. right; left. by exists r.
    + destruct (decide (refNamespace (InfrastructureRef m) = Namespace m)) as [|Hne];
        [done|].
      exfalso. eapply Hno. apply elem_of_validate_errors. right; right; left. done.
    + intros o Ho. destruct (decide (ClusterName o = ClusterName m)) as [|Hne]; [done|].
      exfalso. eapply Hno. apply elem_of_validate_errors.
      right; right; right; left. by exists o.
    + intros v Hv. destruct (KubeSemver_MatchString v) eqn:Hk; [done|].
      exfalso. eapply Hno. apply elem_of_validate_errors.
      right; right; right; right; left. by exists v.
    + destruct (ObjectMeta_Validate _ _) as [|e l] eqn:Hm; [done|].
      exfalso. apply (Hno e). apply elem_of_validate_errors.
      do 5 right. rewrite Hm. apply elem_of_cons. by left.
  - intros (Hd & Hc & Hi & Ho & Hv & Hm).
    destruct (validate_errors _ _ m old) as [|e l] eqn:He; [done|].
    assert (Hin : e ∈ validate_errors KubeSemver_MatchString ObjectMeta_Validate m old).
    { rewrite He. apply elem_of_cons. by left. }
    apply elem_of_validate_errors in Hin.
    destruct Hin as [(Hc' & Hd' & _)|[(r & Hr & Hne & _)|[(Hne & _)|
      [(o & Hold & Hne & _)|[(v & Hver & Hk & _)|Hin]]]]].
    + by destruct Hd.
    + by specialize (Hc r Hr).
    + done.
    + by specialize (Ho o Hold).
    + specialize (Hv v Hver). congruence.
    + rewrite Hm in Hin. by apply elem_of_nil in Hin.
Qed.

(** [validate] returns nil exactly when the feature gate is enabled and
    [allErrs] is empty. *)
Lemma validate_None_iff (enabled : bool) (m : MachinePool) (old : option MachinePool) :
  validate Group enabled KubeSemver_MatchString ObjectMeta_Validate m old = None ↔
    enabled = true ∧
    validate_errors KubeSemver_MatchString ObjectMeta_Validate m old = [].
Proof.
  unfold validate. destruct enabled; simpl; [|by split; [|intros [? _]]].
  case_decide as Hl.
  - apply length_zero_iff_nil in Hl. by split.
  - split; [done|]. intros [_ Hnil]. rewrite Hnil in Hl. done.
Qed.

(** X15. [Default] is idempotent: a second call changes nothing. *)
Theorem Default_idempotent (m : MachinePool) :
  Default ClusterNameLabel (Default ClusterNameLabel m) = Default ClusterNameLabel m.
Proof.
  unfold Default; simpl. f_equal.
  - by rewrite insert_insert_eq.
  - by destruct (Replicas m).
  - by destruct (MinReadySeconds m).
  - destruct (ConfigRef m) as [r|]; [|done].
    destruct (decide (refNamespace r = "")) as [He|He]; simpl.
    + case_decide as Hn; [|done]. by destruct r.
    + by rewrite decide_False.
  - destruct (decide (refNamespace (InfrastructureRef m) = "")) as [He|He]; simpl.
    + case_decide as Hn; [|done]. by destruct (InfrastructureRef m).
    + by rewrite decide_False.
  - destruct (Version m) as [v|]; [|done].
    destruct (HasPrefix v "v") eqn:Hp.
    + by rewrite Hp.
    + by rewrite HasPrefix_v.
Qed.

(** X16. what [Default] establishes and what it keeps.  The labels carry
    the cluster name under [ClusterNameLabel] and are otherwise the labels
    of before; replicas and minReadySeconds are set, to 1 and 0 unless they
    were given; a version begins with "v"; a reference's namespace is empty
    only if the object's own namespace is; the object's namespace, name and
    cluster name, the template metadata and the data secret name are
    untouched. *)
Theorem Default_establishes (m : MachinePool) :
  let m' := Default ClusterNameLabel m in
  (∃ labels, Labels m' = Some labels ∧
     labels !! ClusterNameLabel = Some (ClusterName m) ∧
     ∀ k, k ≠ ClusterNameLabel → labels !! k = default ∅ (Labels m) !! k) ∧
  Replicas m' = Some (default 1 (Replicas m)) ∧
  MinReadySeconds m' = Some (default 0 (MinReadySeconds m)) ∧
  (∀ v, Version m' = Some v → HasPrefix v "v" = true) ∧
  (∀ r, ConfigRef m' = Some r → refNamespace r = "" → Namespace m = "") ∧
  (refNamespace (InfrastructureRef m') = "" → Namespace m = "") ∧
  Namespace m' = Namespace m ∧ Name m' = Name m ∧ ClusterName m' = ClusterName m ∧
  TemplateMeta m' = TemplateMeta m ∧ DataSecretName m' = DataSecretName m.
Proof.
  intros m'. repeat split.
  - eexists. split; [reflexivity|]. split.
    + apply lookup_insert_eq.
    + intros k Hk. rewrite lookup_insert_ne by done. by destruct (Labels m).
  - subst m'; simpl. by destruct (Replicas m).
  - subst m'; simpl. by destruct (MinReadySeconds m).
  - intros v. subst m'. rewrite Default_Version.
    destruct (Version m) as [v0|]; [|done]. intros [= <-].
    apply normalized_version_prefixed.
  - intros r. subst m'. rewrite Default_ConfigRef.
    destruct (ConfigRef m) as [r0|]; [|done]. simpl.
    case_decide as He; intros [= <-]; simpl; [done|]. by intros ?.
  - subst m'; simpl. case_decide as He; simpl; [done|]. by intros ?.
Qed.

(** X17. the outcomes of [ValidateUpdate].  An old object that is not a
    MachinePool gives a bad request naming its type, whatever the feature
    gate says; otherwise a disabled gate gives the one forbidden error on
    [spec]; otherwise the result is nil when no check fails and an invalid
    status for the MachinePool kind and the object's name, carrying a list
    of errors that is never empty. *)
Theorem ValidateUpdate_outcomes (enabled : bool) (m : MachinePool) (old : RuntimeObject) :
  match ValidateUpdate Group enabled KubeSemver_MatchString ObjectMeta_Validate m old with
  | None =>
    enabled = true ∧
    ∃ o, old = ObjMachinePool o ∧
         validate_errors KubeSemver_MatchString ObjectMeta_Validate m o = []
  | Some (StatusBadRequest message) =>
    ∃ typeName, old = ObjOther typeName ∧
                message = "expected a MachinePool but got a " +:+ typeName
  | Some (FieldErr e) =>
    enabled = false ∧ (∃ o, old = ObjMachinePool o) ∧
    e = Forbidden ["spec"] "can be set only if the MachinePool feature flag is enabled"
  | Some (StatusInvalid group kind name errs) =>
    enabled = true ∧ group = Group ∧ kind = "MachinePool" ∧ name = Name m ∧
    errs ≠ [] ∧
    ∃ o, old = ObjMachinePool o ∧
         errs = validate_errors KubeSemver_MatchString ObjectMeta_Validate m o
  end.
Proof.
  destruct old as [o|typeName]; simpl.
  - unfold validate. destruct enabled; simpl.
    + case_decide as Hl.
      * apply length_zero_iff_nil in Hl. split; [done|]. by exists o.
      * do 4 (split; [done|]). split; [|by exists o].
        intros Hnil. by rewrite Hnil in Hl.
    + split; [done|]. split; [by exists o|done].
  - by exists typeName.
Qed.

(** X18. [ValidateCreate] and [ValidateDelete] accept an object under the
    same conditions: the feature gate is enabled, a bootstrap config
    reference or data secret name is given, the namespaces of the config
    reference (if any) and of the infrastructure reference are the object's
    namespace, the version (if any) matches the semantic version pattern and
    the template metadata validates. *)
Theorem create_delete_accept_iff (enabled : bool) (m : MachinePool) :
  let accepted :=
    enabled = true ∧
    (ConfigRef m ≠ None ∨ DataSecretName m ≠ None) ∧
    (∀ r, ConfigRef m = Some r → refNamespace r = Namespace m) ∧
    refNamespace (InfrastructureRef m) = Namespace m ∧
    (∀ v, Version m = Some v → KubeSemver_MatchString v = true) ∧
    ObjectMeta_Validate (TemplateMeta m) ["spec"; "template"; "metadata"] = [] in
  (ValidateCreate Group enabled KubeSemver_MatchString ObjectMeta_Validate m = None
   ↔ accepted) ∧
  (ValidateDelete Group enabled KubeSemver_MatchString ObjectMeta_Validate m = None
   ↔ accepted).
Proof.
  intros accepted. unfold ValidateCreate, ValidateDelete.
  assert (H : validate Group enabled KubeSemver_MatchString ObjectMeta_Validate m None
              = None ↔ accepted).
  { rewrite validate_None_iff, validate_errors_nil_iff. subst accepted.
    split.
    - intros (? & ? & ? & ? & _ & ? & ?). done.
    - intros (? & ? & ? & ? & ? & ?). by repeat split. }
  by split.
Qed.

(** X19. a rejection by the checks reports every violation: when the gate
    is enabled and [validate] returns an error, the error is an invalid
    status whose list holds exactly the errors of the failed checks and
    those of the template metadata. *)
Theorem validate_reports_all (m : MachinePool) (old : option MachinePool)
    (err : webhook_error) :
  validate Group true KubeSemver_MatchString ObjectMeta_Validate m old = Some err →
  ∃ errs, err = StatusInvalid Group "MachinePool" (Name m) errs ∧
    ∀ e, e ∈ errs ↔
      (ConfigRef m = None ∧ DataSecretName m = None ∧
       e = Required ["spec"; "template"; "spec"; "bootstrap"; "data"]
             "expected either spec.bootstrap.dataSecretName or spec.bootstrap.configRef to be populated")
      ∨ (∃ r, ConfigRef m = Some r ∧ refNamespace r ≠ Namespace m ∧
           e = Invalid ["spec"; "template"; "spec"; "bootstrap"; "configRef"; "namespace"]
                 (refNamespace r) "must match metadata.namespace")
      ∨ (refNamespace (InfrastructureRef m) ≠ Namespace m ∧
           e = Invalid ["spec"; "infrastructureRef"; "namespace"]
                 (refNamespace (InfrastructureRef m)) "must match metadata.namespace")
      ∨ (∃ o, old = Some o ∧ ClusterName o ≠ ClusterName m ∧
           e = Forbidden ["spec"; "clusterName"] "field is immutable")
      ∨ (∃ v, Version m = Some v ∧ KubeSemver_MatchString v = false ∧
           e = Invalid ["spec"; "template"; "spec"; "version"] v
                 "must be a valid semantic version")
      ∨ e ∈ ObjectMeta_Validate (TemplateMeta m) ["spec"; "template"; "metadata"].
Proof.
  unfold validate; simpl. case_decide as Hl; [done|]. intros [= <-].
  eexists. split; [reflexivity|]. intros e. apply elem_of_validate_errors.
Qed.

(** X20. [Default] followed by [ValidateCreate].  The defaulted object is
    accepted exactly when the gate is enabled, a bootstrap config reference
    or data secret name is given, each reference namespace was empty or the
    object's namespace, the version with "v" prepended where it was missing
    matches the pattern, and the template metadata validates. *)
Theorem Default_then_ValidateCreate (enabled : bool) (m : MachinePool) :
  ValidateCreate Group enabled KubeSemver_MatchString ObjectMeta_Validate
    (Default ClusterNameLabel m) = None ↔
    enabled = true ∧
    (ConfigRef m ≠ None ∨ DataSecretName m ≠ None) ∧
    (∀ r, ConfigRef m = Some r → namespace_defaultable m r) ∧
    namespace_defaultable m (InfrastructureRef m) ∧
    (∀ v, Version m = Some v → KubeSemver_MatchString (normalized_version v) = true) ∧
    ObjectMeta_Validate (TemplateMeta m) ["spec"; "template"; "metadata"] = [].
Proof.
  unfold ValidateCreate. rewrite validate_None_iff, validate_errors_nil_iff.
  rewrite Default_Version, Default_ConfigRef.
  change (Namespace (Default ClusterNameLabel m)) with (Namespace m).
  change (DataSecretName (Default ClusterNameLabel m)) with (DataSecretName m).
  change (TemplateMeta (Default ClusterNameLabel m)) with (TemplateMeta m).
  change (InfrastructureRef (Default ClusterNameLabel m)) with
    (if decide (refNamespace (InfrastructureRef m) = "")
     then with_refNamespace (Namespace m) (InfrastructureRef m)
     else InfrastructureRef m).
  rewrite defaulted_namespace. unfold namespace_defaultable.
  split.
  - intros (He & Hd & Hc & Hi & _ & Hv & Hm). split; [done|]. split.
    { destruct (ConfigRef m); [by left|]. destruct Hd as [Hd|Hd]; [done|by right]. }
    split.
    { intros r Hr. rewrite Hr in Hc. apply (defaulted_namespace (Namespace m) r).
      by apply Hc. }
    split; [done|]. split; [|done].
    intros v Hver. apply Hv. by rewrite Hver.
  - intros (He & Hd & Hc & Hi & Hv & Hm). split; [done|]. split.
    { destruct (ConfigRef m); [by left|]. destruct Hd as [Hd|Hd]; [done|by right]. }
    split.
    { intros r. destruct (ConfigRef m) as [r0|]; [|done]. simpl. intros [= <-].
      apply defaulted_namespace. by apply Hc. }
    split; [done|]. split; [done|]. split; [|done].
    intros v. destruct (Version m) as [v0|]; [|done]. simpl. intros [= <-].
    by apply Hv.
Qed.

(** X21. the cluster name is immutable: with the gate enabled, an update
    whose old object names another cluster is rejected with an invalid
    status that holds the forbidden error on [spec.clusterName], whatever
    else the new object contains. *)
Theorem clusterName_immutable (m o : MachinePool) :
  ClusterName o ≠ ClusterName m →
  ∃ errs,
    ValidateUpdate Group true KubeSemver_MatchString ObjectMeta_Validate m
      (ObjMachinePool (Some o))
    = Some (StatusInvalid Group "MachinePool" (Name m) errs) ∧
    Forbidden ["spec"; "clusterName"] "field is immutable" ∈ errs.
Proof.
  intros Hne. simpl.
  assert (Hin : Forbidden ["spec"; "clusterName"] "field is immutable"
                ∈ validate_errors KubeSemver_MatchString ObjectMeta_Validate m (Some o)).
  { apply elem_of_validate_errors. right; right; right; left. by exists o. }
  unfold validate; simpl. case_decide as Hl.
  - apply length_zero_iff_nil in Hl. rewrite Hl in Hin. by apply elem_of_nil in Hin.
  - by eexists.
Qed.

(** X22. of the old object an update reads the cluster name only: when the
    old MachinePool names the same cluster as the new one, [ValidateUpdate]
    returns what [ValidateCreate] returns for the new object. *)
Theorem ValidateUpdate_same_cluster (enabled : bool) (m o : MachinePool) :
  ClusterName o = ClusterName m →
  ValidateUpdate Group enabled KubeSemver_MatchString ObjectMeta_Validate m
    (ObjMachinePool (Some o))
  = ValidateCreate Group enabled KubeSemver_MatchString ObjectMeta_Validate m.
Proof.
  intros Heq. unfold ValidateUpdate, ValidateCreate, validate, validate_errors.
  destruct (decide (ClusterName o ≠ ClusterName m)) as [Hne|_]; [by destruct Hne|done].
Qed.

(** X23. defaulting keeps a valid object valid, provided the version
    pattern only matches strings that begin with "v": an object that
    [ValidateCreate] accepts is still accepted after [Default], and its
    references and version are as they were. *)
Theorem Default_keeps_valid (enabled : bool) (m : MachinePool) :
  (∀ v, KubeSemver_MatchString v = true → HasPrefix v "v" = true) →
  ValidateCreate Group enabled KubeSemver_MatchString ObjectMeta_Validate m = None →
  ValidateCreate Group enabled KubeSemver_MatchString ObjectMeta_Validate
    (Default ClusterNameLabel m) = None ∧
  ConfigRef (Default ClusterNameLabel m) = ConfigRef m ∧
  InfrastructureRef (Default ClusterNameLabel m) = InfrastructureRef m ∧
  Version (Default ClusterNameLabel m) = Version m.
Proof.
  intros Hk. unfold ValidateCreate.
  rewrite !validate_None_iff, !validate_errors_nil_iff.
  intros (He & Hd & Hc & Hi & _ & Hv & Hm).
  assert (HC : ConfigRef (Default ClusterNameLabel m) = ConfigRef m).
  { rewrite Default_ConfigRef. destruct (ConfigRef m) as [r|]; [|done]. simpl.
    case_decide as Hr; [|done]. f_equal.
    destruct r as [k ns n a]. unfold with_refNamespace; simpl.
    f_equal. symmetry. by apply (Hc (mkObjectReference k ns n a)). }
  assert (HI : InfrastructureRef (Default ClusterNameLabel m) = InfrastructureRef m).
  { simpl. case_decide as Hr; [|done].
    destruct (InfrastructureRef m) as [k ns n a]. unfold with_refNamespace; simpl.
    f_equal. by symmetry. }
  assert (HV : Version (Default ClusterNameLabel m) = Version m).
  { rewrite Default_Version. destruct (Version m) as [v|]; [|done]. simpl.
    unfold normalized_version. by rewrite (Hk v (Hv v eq_refl)). }
  rewrite HC, HI, HV. by repeat split.
Qed.

End WebhookProperties.

Section WebhookWitnesses.
Import Webhook.

Lemma validate_reports_all_witness :
  let m := sample_pool "default" "cluster-1" "other" (Some "1.27.0") in
  let old := Some (sample_pool "default" "cluster-0" "default" None) in
  ∃ errs,
    validate sample_group true sample_semver sample_meta_validate m old
    = Some (StatusInvalid sample_group "MachinePool" (Name m) errs) ∧
    Forbidden ["spec"; "clusterName"] "field is immutable" ∈ errs ∧
    Invalid ["spec"; "template"; "spec"; "version"] "1.27.0"
      "must be a valid semantic version" ∈ errs ∧
    ¬ Required ["spec"; "template"; "spec"; "bootstrap"; "data"]
        "expected either spec.bootstrap.dataSecretName or spec.bootstrap.configRef to be populated"
      ∈ errs.
Proof.
  intros m old.
  destruct (validate_reports_all sample_group sample_semver sample_meta_validate
              m old
              (StatusInvalid sample_group "MachinePool" "pool"
                 (validate_errors sample_semver sample_meta_validate m old)))
    as (errs & Herr & Hin).
  - by vm_compute.
  - exists errs. split; [rewrite <- Herr; by vm_compute|]. split; [|split].
    + apply Hin. right; right; right; left. eexists. by vm_compute.
    + apply Hin. right; right; right; right; left. eexists. by vm_compute.
    + intros H. apply Hin in H.
      destruct H as [(Hc & _)|[(r & _ & _ & He)|[(_ & He)|[(o & _ & _ & He)|
        [(v & _ & _ & He)|He]]]]]; try discriminate He.
      * vm_compute in Hc. discriminate Hc.
      * vm_compute in He. by apply elem_of_nil in He.
Defined.

Lemma clusterName_immutable_witness :
  let m := sample_pool "default" "cluster-1" "default" (Some "v1.27.0") in
  let o := sample_pool "default" "cluster-0" "default" (Some "v1.27.0") in
  ClusterName o ≠ ClusterName m ∧
  ∃ errs,
    ValidateUpdate sample_group true sample_semver sample_meta_validate m
      (ObjMachinePool (Some o))
    = Some (StatusInvalid sample_group "MachinePool" (Name m) errs) ∧
    Forbidden ["spec"; "clusterName"] "field is immutable" ∈ errs.
Proof.
  intros m o.
  assert (Hne : ClusterName o ≠ ClusterName m) by (by vm_compute).
  split; [exact Hne|].
  exact (clusterName_immutable sample_group sample_semver sample_meta_validate m o Hne).
Defined.

Lemma ValidateUpdate_same_cluster_witness :
  let m := sample_pool "default" "cluster-1" "other" (Some "1.27.0") in
  let o := sample_pool "elsewhere" "cluster-1" "default" None in
  ClusterName o = ClusterName m ∧
  ValidateUpdate sample_group true sample_semver sample_meta_validate m
    (ObjMachinePool (Some o))
  = ValidateCreate sample_group true sample_semver sample_meta_validate m.
Proof.
  intros m o.
  assert (Heq : ClusterName o = ClusterName m) by reflexivity.
  split; [exact Heq|].
  exact (ValidateUpdate_same_cluster sample_group sample_semver sample_meta_validate
           true m o Heq).
Defined.

Lemma Default_keeps_valid_witness :
  let m := sample_pool "default" "cluster-1" "default" (Some "v1.27.0") in
  (∀ v, sample_semver v = true → HasPrefix v "v" = true) ∧
  ValidateCreate sample_group true sample_semver sample_meta_validate m = None ∧
  ValidateCreate sample_group true sample_semver sample_meta_validate
    (Default sample_label m) = None ∧
  ConfigRef (Default sample_label m) = ConfigRef m ∧
  InfrastructureRef (Default sample_label m) = InfrastructureRef m ∧
  Version (Default sample_label m) = Version m.
Proof.
  intros m.
  assert (Hk : ∀ v, sample_semver v = true → HasPrefix v "v" = true)
    by (intros v Hv; exact Hv).
  assert (Hm : ValidateCreate sample_group true sample_semver sample_meta_validate m
               = None) by (by vm_compute).
  split; [exact Hk|]. split; [exact Hm|].
  exact (Default_keeps_valid sample_label sample_group sample_semver
           sample_meta_validate true m Hk Hm).
Defined.

End WebhookWitnesses.
